(** * Price alerts on prediction markets: a model of [main.py]

    The development follows the program:
    - [PyStr]: the string built-ins the program calls ([strip], [split],
      [replace], [lower], [int]), on UTF-8 text;
    - [json]: the values [resp.json()] and [json.loads] return, with Python's
      truthiness, [dict.get] and [str];
    - the table [alerts] (an SQLite table with an integer primary key) as a
      finite map from the key to the row, and the dictionary
      [user_add_state] as a finite map from the user to the dialogue entry;
    - the market helpers ([extract_event_slug], [fetch_event_by_slug],
      [strike_exists_in_event], [pick_token_id_for_outcome],
      [fetch_token_price]), the command handlers, the [/add] dialogue and one
      pass of [alerts_worker], in a state-and-exception monad;
    - the properties, and then the program and the properties on sample
      inputs.

    Scope of the string model: a [string] is the UTF-8 encoding of the Python
    text.  Whitespace is what [str.isspace] accepts in any script, and the
    decimal digits are those of the interpreter's Unicode database, a
    parameter ([PyStr.Unicode]).  [lower] folds ASCII and the Cyrillic
    capitals U+0400..U+042F: no other character has a small letter that
    occurs in the words the program compares with.

    Prices and targets are IEEE doubles, as Python's [float].

    Library functions whose result the program only passes on ([urlparse],
    [json.loads], [float] of a text or of an integer, [str] of a float, list
    or dict) are the fields of [PyLib]; the two HTTP endpoints and Telegram
    are the fields of [Services].  A handler and a pass of the worker run one
    at a time: the interleaving of coroutines at [await] is not modelled. *)

From Stdlib Require Import ZArith List String Ascii Floats Lia Bool DecimalString.
From stdpp Require Import base option gmap strings sorting.

Local Open Scope string_scope.
Local Open Scope Z_scope.
#[local] Set Warnings "-register-all".

(** ** Python's string built-ins *)

Module PyStr.

Definition code (c : ascii) : Z := Z.of_N (N_of_ascii c).

Definition chr (n : Z) : ascii := ascii_of_N (Z.to_N n).

(** *** Characters *)

(** A continuation byte of a UTF-8 sequence. *)
Definition is_cont (c : ascii) : bool :=
  let n := code c in (128 <=? n) && (n <? 192).

(** Puts a byte in front of the first piece. *)
Definition glue (c : ascii) (l : list string) : list string :=
  match l with
  | [] => [String c EmptyString]
  | w :: ws => String c w :: ws
  end.

(** The characters of a text: a piece is a byte with the continuation bytes
    that follow it, which in UTF-8 is the encoding of one code point. *)
Fixpoint chars (s : string) : list string :=
  match s with
  | EmptyString => []
  | String c s' =>
      match s' with
      | EmptyString => [String c EmptyString]
      | String d _ =>
          if is_cont d then glue c (chars s')
          else String c EmptyString :: chars s'
      end
  end.

Definition join (l : list string) : string :=
  fold_right String.append EmptyString l.

(** The code point a piece encodes, when it is the UTF-8 encoding of one. *)
Definition point (ch : string) : option Z :=
  match ch with
  | String b0 EmptyString =>
      if code b0 <? 128 then Some (code b0) else None
  | String b0 (String b1 EmptyString) =>
      let n := (code b0 - 192) * 64 + (code b1 - 128) in
      if (192 <=? code b0) && (code b0 <? 224) && is_cont b1 && (128 <=? n)
      then Some n else None
  | String b0 (String b1 (String b2 EmptyString)) =>
      let n := (code b0 - 224) * 4096 + (code b1 - 128) * 64
               + (code b2 - 128) in
      if (224 <=? code b0) && (code b0 <? 240) && is_cont b1 && is_cont b2
         && (2048 <=? n)
      then Some n else None
  | String b0 (String b1 (String b2 (String b3 EmptyString))) =>
      let n := (code b0 - 240) * 262144 + (code b1 - 128) * 4096
               + (code b2 - 128) * 64 + (code b3 - 128) in
      if (240 <=? code b0) && (code b0 <? 248) && is_cont b1 && is_cont b2
         && is_cont b3 && (65536 <=? n) && (n <? 1114112)
      then Some n else None
  | _ => None
  end.

(** [str.isspace] of a code point: TAB, LF, VT, FF, CR, FS, GS, RS, US, the
    space, NEL, the no-break space, and the spaces and separators of
    U+1680, U+2000..U+200A, U+2028, U+2029, U+202F, U+205F and U+3000. *)
Definition is_space_point (n : Z) : bool :=
  ((9 <=? n) && (n <=? 13)) || ((28 <=? n) && (n <=? 32))
  || (n =? 133) || (n =? 160) || (n =? 5760)
  || ((8192 <=? n) && (n <=? 8202))
  || (n =? 8232) || (n =? 8233) || (n =? 8239) || (n =? 8287) || (n =? 12288).

(** The whitespace [strip] and [split] cut at. *)
Definition is_space (ch : string) : bool :=
  match point ch with
  | Some n => is_space_point n
  | None => false
  end.

(** The whitespace [int] accepts around a literal: the same, without the four
    separators FS, GS, RS and US. *)
Definition is_int_space (ch : string) : bool :=
  match point ch with
  | Some n => is_space_point n && negb ((28 <=? n) && (n <=? 31))
  | None => false
  end.

(** The Unicode database of the interpreter, as far as [int] reads it: the
    value of a code point that is a decimal digit (category Nd).  Its content
    grows with the version of Unicode; the ASCII range does not. *)
Class Unicode := {
  to_decimal : Z -> option Z;
  to_decimal_ascii : forall c, 0 <= c < 128 ->
    to_decimal c = if (48 <=? c) && (c <=? 57) then Some (c - 48) else None;
  to_decimal_digit : forall c d, to_decimal c = Some d -> 0 <= d <= 9;
  to_decimal_space : forall c, is_space_point c = true -> to_decimal c = None
}.

(** *** Stripping and splitting *)

Fixpoint lstrip_by (p : ascii -> bool) (s : string) : string :=
  match s with
  | EmptyString => EmptyString
  | String c s' => if p c then lstrip_by p s' else s
  end.

(** Drops the longest suffix whose characters all satisfy [p]. *)
Fixpoint rstrip_by (p : ascii -> bool) (s : string) : string :=
  match s with
  | EmptyString => EmptyString
  | String c s' =>
      match rstrip_by p s' with
      | EmptyString => if p c then EmptyString else String c EmptyString
      | t => String c t
      end
  end.

Definition strip_by (p : ascii -> bool) (s : string) : string :=
  rstrip_by p (lstrip_by p s).

(** [s.strip(c)] for a one-character ASCII argument *)
Definition strip_char (c : ascii) (s : string) : string :=
  strip_by (Ascii.eqb c) s.

(** The same two functions on the characters of a text. *)
Fixpoint lstrip_chars (p : string -> bool) (l : list string) : list string :=
  match l with
  | [] => []
  | ch :: l' => if p ch then lstrip_chars p l' else l
  end.

Fixpoint rstrip_chars (p : string -> bool) (l : list string) : list string :=
  match l with
  | [] => []
  | ch :: l' =>
      match rstrip_chars p l' with
      | [] => if p ch then [] else [ch]
      | t => ch :: t
      end
  end.

Definition strip_chars (p : string -> bool) (l : list string) : list string :=
  rstrip_chars p (lstrip_chars p l).

(** [s.strip()] *)
Definition strip (s : string) : string :=
  join (strip_chars is_space (chars s)).

(** [s.split(sep)] for a one-character ASCII separator: every separator cuts,
    empty pieces are kept, and the result is never the empty list. *)
Fixpoint split_on (sep : ascii) (s : string) : list string :=
  match s with
  | EmptyString => [EmptyString]
  | String c s' =>
      if Ascii.eqb c sep then EmptyString :: split_on sep s'
      else match split_on sep s' with
           | [] => [String c EmptyString]
           | w :: ws => String c w :: ws
           end
  end.

Fixpoint words (l : list string) : list string :=
  match l with
  | [] => []
  | ch :: l' =>
      if is_space ch then words l'
      else match l' with
           | [] => [ch]
           | ch' :: _ =>
               if is_space ch' then ch :: words l'
               else match words l' with
                    | [] => [ch]
                    | w :: ws => String.append ch w :: ws
                    end
           end
  end.

(** [s.split()]: cut at runs of whitespace, no empty piece. *)
Definition split (s : string) : list string := words (chars s).

(** [s.replace(c, r)] for a one-character ASCII [c] *)
Fixpoint replace (c : ascii) (r : string) (s : string) : string :=
  match s with
  | EmptyString => EmptyString
  | String d s' =>
      if Ascii.eqb d c then String.append r (replace c r s') else String d (replace c r s')
  end.

Definition lower_ascii (c : ascii) : ascii :=
  let n := code c in
  if (65 <=? n) && (n <=? 90) then chr (n + 32) else c.

(** [s.lower()]: ASCII capitals, and the two-byte sequences of U+0400..U+042F
    (lead byte 0xD0), whose small letters are U+0450..U+045F and
    U+0430..U+044F. *)
Fixpoint lower (s : string) : string :=
  match s with
  | EmptyString => EmptyString
  | String c s' =>
      match s' with
      | EmptyString => String (lower_ascii c) EmptyString
      | String d s'' =>
          let n := code d in
          if negb (code c =? 208) then String (lower_ascii c) (lower s')
          else if (128 <=? n) && (n <=? 143)
          then String (chr 209) (String (chr (n + 16)) (lower s''))
          else if (144 <=? n) && (n <=? 159)
          then String (chr 208) (String (chr (n + 32)) (lower s''))
          else if (160 <=? n) && (n <=? 175)
          then String (chr 209) (String (chr (n - 32)) (lower s''))
          else String c (lower s')
      end
  end.

(** [x in (a, b, ...)] for strings *)
Definition mem (x : string) (l : list string) : bool :=
  existsb (String.eqb x) l.

Definition upper_ascii (c : ascii) : ascii :=
  let n := code c in
  if (97 <=? n) && (n <=? 122) then chr (n - 32) else c.

(** [s.upper()] on ASCII text (the program applies it to the literal side
    [BUY] only). *)
Fixpoint upper (s : string) : string :=
  match s with
  | EmptyString => EmptyString
  | String c s' => String (upper_ascii c) (upper s')
  end.

Fixpoint take_cont (s : string) : string :=
  match s with
  | EmptyString => EmptyString
  | String c s' => if is_cont c then String c (take_cont s') else EmptyString
  end.

(** [s[0]] of a non-empty text: its first code point. *)
Definition first_char (s : string) : option string :=
  match s with
  | EmptyString => None
  | String c s' => Some (String c (take_cont s'))
  end.

Fixpoint until_space (l : list string) : list string * list string :=
  match l with
  | [] => ([], [])
  | ch :: l' =>
      if is_space ch then ([], l)
      else let '(w, r) := until_space l' in (ch :: w, r)
  end.

(** [s.split(maxsplit=1)]: the first word, and what follows the whitespace
    after it when anything does. *)
Definition split_max1 (s : string) : list string :=
  match lstrip_chars is_space (chars s) with
  | [] => []
  | t => let '(w, r) := until_space t in
         match lstrip_chars is_space r with
         | [] => [join w]
         | r' => [join w; join r']
         end
  end.

(** *** Integers *)

(** CPython's default for [sys.get_int_max_str_digits()]: a longer decimal
    literal makes [int] raise [ValueError]. *)
Definition max_str_digits : Z := 4300.

Section Int.

Context {U : Unicode}.

(** The value of a character that is a decimal digit, in any script. *)
Definition digit_of (ch : string) : option Z :=
  match point ch with
  | Some n => to_decimal n
  | None => None
  end.

Definition is_digit (ch : string) : bool :=
  match digit_of ch with
  | Some _ => true
  | None => false
  end.

(** The digits of a decimal literal: single underscores may sit between two
    digits.  Returns the value and the number of digits read. *)
Fixpoint int_digits (l : list string) (acc ndig : Z) (after_digit : bool)
  : option (Z * Z) :=
  match l with
  | [] => if after_digit then Some (acc, ndig) else None
  | ch :: l' =>
      if String.eqb ch "_"
      then (if after_digit then int_digits l' acc ndig false else None)
      else match digit_of ch with
           | Some d => int_digits l' (10 * acc + d) (ndig + 1) true
           | None => None
           end
  end.

Definition int_signed (sign : Z) (body : list string) : option Z :=
  match int_digits body 0 0 false with
  | Some (v, n) => if n <=? max_str_digits then Some (sign * v) else None
  | None => None
  end.

(** [int(s)] in base ten; [None] is [ValueError]. *)
Definition int (s : string) : option Z :=
  match strip_chars is_int_space (chars s) with
  | ch :: body =>
      if String.eqb ch "+" then int_signed 1 body
      else if String.eqb ch "-" then int_signed (-1) body
      else int_signed 1 (ch :: body)
  | [] => None
  end.

End Int.

(** [str(n)] for an integer *)
Definition of_int (n : Z) : string := NilZero.string_of_int (Z.to_int n).

End PyStr.


(** ** Exceptions and results *)

(** The exception classes the program can meet; all derive from [Exception]. *)
Inductive exn :=
  | ValueError | TypeError | AttributeError | KeyError | IndexError
  | OverflowError
  | HTTPStatusError | TransportError | JSONDecodeError
  | IntegrityError | TelegramError.

Inductive res (A : Type) :=
  | Ok (a : A)
  | Raise (e : exn).
Arguments Ok {A} a.
Arguments Raise {A} e.

Definition rbind {A B} (m : res A) (k : A -> res B) : res B :=
  match m with
  | Ok a => k a
  | Raise e => Raise e
  end.

Notation "x <~ m ;; k" := (rbind m (fun x => k))
  (at level 100, m at next level, right associativity).

(** ** JSON values, as Python sees them *)

Inductive json :=
  | JNull
  | JBool (b : bool)
  | JInt (n : Z)
  | JFloat (f : float)
  | JStr (s : string)
  | JList (l : list json)
  | JDict (kv : list (string * json)).

(** [bool(v)] *)
Definition truthy (v : json) : bool :=
  match v with
  | JNull => false
  | JBool b => b
  | JInt n => negb (n =? 0)
  | JFloat f => negb (PrimFloat.eqb f 0)
  | JStr s => negb (String.eqb s "")
  | JList l => match l with [] => false | _ => true end
  | JDict kv => match kv with [] => false | _ => true end
  end.

(** [a or b] *)
Definition py_or (a b : json) : json := if truthy a then a else b.

Fixpoint assoc (k : string) (kv : list (string * json)) : option json :=
  match kv with
  | [] => None
  | (k', v) :: kv' => if String.eqb k k' then Some v else assoc k kv'
  end.

(** [d.get(k)] of a dict: [None] for a key that is absent *)
Definition dict_get (kv : list (string * json)) (k : string) : json :=
  match assoc k kv with
  | Some v => v
  | None => JNull
  end.

(** [o.get(k)]: only a dict has the method. *)
Definition py_get (o : json) (k : string) : res json :=
  match o with
  | JDict kv => Ok (dict_get kv k)
  | _ => Raise AttributeError
  end.

(** [o[0]] *)
Definition py_item0 (o : json) : res json :=
  match o with
  | JList (x :: _) => Ok x
  | JList [] => Raise IndexError
  | JStr s => match PyStr.first_char s with
              | Some c => Ok (JStr c)
              | None => Raise IndexError
              end
  | JDict _ => Raise KeyError
  | _ => Raise TypeError
  end.

(** ** The alert table and the dialogue state *)

(** A row of [alerts]; the key [id] is the key of the map that holds it. *)
Record alert := {
  user_id : Z;
  market_url : string;
  outcome : string;
  target_price : float;
  direction : string;
  active : bool
}.

(** [user_add_state[user_id]]: [step] is set when the entry is made, the two
    texts are filled in step by step. *)
Record add_state := {
  step : Z;
  st_market_url : option string;
  st_outcome : option string
}.

Record http_response := {
  status_code : Z;
  json_body : res json   (* what [resp.json()] gives *)
}.

(** What the bot writes to a chat. *)
Inductive text_out :=
  | TStart | TNoAlerts
  | TAlertList (rows : list (Z * string * string * float * string))
  | TAddStep1 | TAddStep2 | TAddStep3
  | TBadNumber | TNoStrike | TStrikeMissing
  | TAlertAdded (market_url outcome : string) (target_price : float)
  | TDeleteUsage | TDeleteNotNumber | TDeleteNotFound
  | TDeleted (alert_id : Z)
  | TTriggered (alert_id : Z) (market_url outcome : string)
               (target_price_cents current_cents : float).

(** What [alerts_worker] prints. *)
Inductive log_line :=
  | LActive (n : nat)
  | LNoSlug (market_url : string)
  | LNoEvent (slug : string)
  | LNoToken (outcome : string)
  | LNoPrice (token_id : string)
  | LPrice (alert_id : Z) (current_cents target_price_cents : float)
           (direction : string)
  | LSendError (user_id : Z) (e : exn)
  | LAlertError (alert_id : Z) (e : exn).

(** ** What the program is linked against *)

(** Python library functions the program calls. *)
Class PyLib := {
  (** [urlparse(url).path], or the exception [urlparse] raises *)
  urlparse_path : string -> res string;
  (** [json.loads] of a text *)
  json_loads : string -> res json;
  (** [float(s)]; [None] is [ValueError] *)
  float_of_string : string -> option float;
  (** [float(n)]; raises [OverflowError] on a large integer *)
  float_of_int : Z -> res float;
  (** [str(v)] of a float, a list or a dict *)
  repr : json -> string
}.

(** The network, seen from the program: a state [W] the three endpoints read
    and change. *)
Class Services (W : Type) := {
  (** [GET {GAMMA_BASE}/events?slug=...] *)
  gamma_events : string -> W -> res http_response * W;
  (** [GET {CLOB_BASE}/price] with [token_id] and [side] *)
  clob_price : string -> string -> W -> res http_response * W;
  (** [bot.send_message] and [message.answer] *)
  telegram_send : Z -> text_out -> W -> res unit * W
}.

Record state (W : Type) := {
  alerts : gmap Z alert;
  user_add_state : gmap Z add_state;
  world : W;
  outbox : list (Z * text_out);   (* every text handed to Telegram, in order *)
  stdout : list log_line
}.
Arguments alerts {W} s.
Arguments user_add_state {W} s.
Arguments world {W} s.
Arguments outbox {W} s.
Arguments stdout {W} s.

(** ** The state-and-exception monad *)

Definition M (W A : Type) : Type := state W -> res A * state W.

Definition ret {W A} (a : A) : M W A := fun st => (Ok a, st).

Definition raise {W A} (e : exn) : M W A := fun st => (Raise e, st).

Definition bind {W A B} (m : M W A) (k : A -> M W B) : M W B :=
  fun st => match m st with
            | (Ok a, st') => k a st'
            | (Raise e, st') => (Raise e, st')
            end.

Notation "x <- m ;; k" := (bind m (fun x => k))
  (at level 100, m at next level, right associativity).

Definition lift {W A} (r : res A) : M W A := fun st => (r, st).

(** [try: m  except Exception as e: h e] *)
Definition try_except {W A} (m : M W A) (h : exn -> M W A) : M W A :=
  fun st => match m st with
            | (Ok a, st') => (Ok a, st')
            | (Raise e, st') => h e st'
            end.

(** [for a in l: body a] *)
Fixpoint for_each {W A} (l : list A) (body : A -> M W unit) : M W unit :=
  match l with
  | [] => ret tt
  | a :: l' => _ <- body a ;; for_each l' body
  end.

Definition exec {W A} (m : M W A) (st : state W) : state W := snd (m st).

(** The order of the rows of a table scan. *)
Definition id_le (x y : Z * alert) : Prop := x.1 <= y.1.

#[global] Instance id_le_dec : RelDecision id_le :=
  fun x y => decide (x.1 <= y.1).

(** ** The program *)

Section Program.

Context {UC : PyStr.Unicode} {L : PyLib} {W : Type} {Net : Services W}.

(** *** Effects *)

Definition print (l : log_line) : M W unit :=
  fun st => (Ok tt, {| alerts := alerts st; user_add_state := user_add_state st;
                       world := world st; outbox := outbox st;
                       stdout := stdout st ++ [l] |}).

(** A call of one of the endpoints: the answer comes from the world, which
    moves on. *)
Definition call {A} (f : W -> res A * W) : M W A :=
  fun st => let '(r, w) := f (world st) in
            (r, {| alerts := alerts st; user_add_state := user_add_state st;
                   world := w; outbox := outbox st; stdout := stdout st |}).

(** [await bot.send_message(chat, text)] and [await message.answer(text)]:
    the text is recorded, whether or not the delivery raises. *)
Definition send_message (chat : Z) (text : text_out) : M W unit :=
  fun st =>
    let '(r, w) := telegram_send chat text (world st) in
    (r, {| alerts := alerts st; user_add_state := user_add_state st;
           world := w; outbox := outbox st ++ [(chat, text)];
           stdout := stdout st |}).

Definition set_alerts (t : gmap Z alert) : M W unit :=
  fun st => (Ok tt, {| alerts := t; user_add_state := user_add_state st;
                       world := world st; outbox := outbox st;
                       stdout := stdout st |}).

Definition set_user_add_state (m : gmap Z add_state) : M W unit :=
  fun st => (Ok tt, {| alerts := alerts st; user_add_state := m;
                       world := world st; outbox := outbox st;
                       stdout := stdout st |}).

Definition get_state : M W (state W) := fun st => (Ok st, st).

(** *** The table (lines 50-100) *)

(** The largest key in use; [AUTOINCREMENT] hands out the next one (no row is
    ever deleted, so this is the table's sequence). *)
Definition max_id (t : gmap Z alert) : Z :=
  foldr (fun kv acc => Z.max kv.1 acc) 0 (map_to_list t).

(** What a REAL column keeps of a number: SQLite stores a zero of either sign
    as the integer 0, so minus zero comes back as zero; every other number
    comes back as it was. *)
Definition sqlite_real (x : float) : float :=
  if (x =? 0)%float then 0%float else x.

Definition insert_alert (t : gmap Z alert) (user_id : Z)
    (market_url outcome : string) (target_price : float) : gmap Z alert :=
  <[max_id t + 1 :=
      {| user_id := user_id; market_url := market_url; outcome := outcome;
         target_price := sqlite_real target_price; direction := ">=";
         active := true |}]> t.

(** [add_alert]: SQLite binds a NaN as NULL, which the column's [NOT NULL]
    refuses. *)
Definition add_alert (user_id : Z) (market_url outcome : string)
    (target_price : float) : M W unit :=
  if PrimFloat.is_nan target_price then raise IntegrityError
  else st <- get_state ;;
       set_alerts (insert_alert (alerts st) user_id market_url outcome target_price).

Definition set_inactive (a : alert) : alert :=
  {| user_id := user_id a; market_url := market_url a; outcome := outcome a;
     target_price := target_price a; direction := direction a;
     active := false |}.

(** [UPDATE alerts SET active = 0 WHERE id = ? AND user_id = ? AND active = 1],
    and whether a row was changed. *)
Definition deactivate_row (t : gmap Z alert) (uid alert_id : Z)
  : gmap Z alert * bool :=
  match t !! alert_id with
  | Some a =>
      if (user_id a =? uid) && active a
      then (<[alert_id := set_inactive a]> t, true)
      else (t, false)
  | None => (t, false)
  end.

(** The integers SQLite holds: 64 bits, signed. *)
Definition sqlite_int (n : Z) : bool := (- 2 ^ 63 <=? n) && (n <? 2 ^ 63).

(** [sqlite3] raises [OverflowError] when it is given a Python integer that
    does not fit: the keys of the table fit (SQLite holds no other), so the
    ids it refuses are ids that are no key.  User ids are Telegram's and
    fit. *)
Definition bindable (t : gmap Z alert) (alert_id : Z) : bool :=
  sqlite_int alert_id || bool_decide (is_Some (t !! alert_id)).

Definition deactivate_alert (user_id alert_id : Z) : M W bool :=
  st <- get_state ;;
  if negb (bindable (alerts st) alert_id) then raise OverflowError else
  let '(t, found) := deactivate_row (alerts st) user_id alert_id in
  _ <- set_alerts t ;;
  ret found.

(** The rows in the order of their keys. *)
Definition rows_by_id (t : gmap Z alert) : list (Z * alert) :=
  merge_sort id_le (map_to_list t).

(** [SELECT id, user_id, market_url, outcome, target_price, direction
     FROM alerts WHERE active = 1] *)
Definition select_all_active (t : gmap Z alert)
  : list (Z * Z * string * string * float * string) :=
  map (fun kv => (kv.1, user_id kv.2, market_url kv.2, outcome kv.2,
                  target_price kv.2, direction kv.2))
      (List.filter (fun kv => active kv.2) (rows_by_id t)).

Definition get_all_active_alerts
  : M W (list (Z * Z * string * string * float * string)) :=
  st <- get_state ;; ret (select_all_active (alerts st)).

(** [SELECT id, market_url, outcome, target_price, direction FROM alerts
     WHERE user_id = ? AND active = 1 ORDER BY id] *)
Definition select_user_active (t : gmap Z alert) (uid : Z)
  : list (Z * string * string * float * string) :=
  map (fun kv => (kv.1, market_url kv.2, outcome kv.2, target_price kv.2,
                  direction kv.2))
      (List.filter (fun kv => (user_id kv.2 =? uid) && active kv.2)
                   (rows_by_id t)).

Definition get_user_alerts (user_id : Z)
  : M W (list (Z * string * string * float * string)) :=
  st <- get_state ;; ret (select_user_active (alerts st) user_id).

(** *** Market helpers (lines 109-259) *)

Definition extract_event_slug (market_url : string) : option string :=
  match urlparse_path market_url with
  | Raise _ => None                                   (* except Exception *)
  | Ok path =>
      let parts := PyStr.split_on "/" (PyStr.strip_char "/" path) in
      match parts with
      | p0 :: p1 :: _ => if String.eqb p0 "event" then Some p1 else None
      | _ => None
      end
  end.

(** [if not slug] on an optional text *)
Definition falsy_str (s : option string) : bool :=
  match s with
  | None => true
  | Some t => String.eqb t ""
  end.

(** [resp.raise_for_status()]: httpx raises unless the status is 2xx. *)
Definition raise_for_status (resp : http_response) : res unit :=
  if (200 <=? status_code resp) && (status_code resp <=? 299)
  then Ok tt else Raise HTTPStatusError.

(** Lines 139-144: the events of an answer, which is an object with an
    [events] list, or a bare list. *)
Definition events_of (data : json) : json :=
  match data with
  | JDict kv => py_or (dict_get kv "events") (JList [])
  | JList _ => data
  | _ => JList []
  end.

(** Returns [JNull] for Python's [None]. *)
Definition fetch_event_by_slug (slug : string) : M W json :=
  resp <- call (gamma_events slug) ;;
  _ <- lift (raise_for_status resp) ;;
  data <- lift (json_body resp) ;;
  let events := events_of data in
  if negb (truthy events) then ret JNull
  else lift (py_item0 events).

(** [str(v)] *)
Definition py_str (v : json) : string :=
  match v with
  | JStr s => s
  | JInt n => PyStr.of_int n
  | JBool true => "True"
  | JBool false => "False"
  | JNull => "None"
  | _ => repr v
  end.

(** [title.replace(",", "").strip()] and [int] of it *)
Definition normalize_title (title : string) : option Z :=
  PyStr.int (PyStr.strip (PyStr.replace "," "" title)).

(** The loop over [markets] (lines 168-176 and 209-218): the first market
    whose [groupItemTitle] is [strike] once normalized. *)
Fixpoint find_market (markets : list json) (strike : Z) : res (option json) :=
  match markets with
  | [] => Ok None
  | m :: ms =>
      t <~ py_get m "groupItemTitle" ;;
      let title := py_str (py_or t (JStr "")) in
      match normalize_title title with
      | None => find_market ms strike                        (* continue *)
      | Some v => if v =? strike then Ok (Some m) else find_market ms strike
      end
  end.

Definition strike_exists_in_event (market_url : string) (strike : Z)
  : M W bool :=
  let slug := extract_event_slug market_url in
  if falsy_str slug then ret false else
  event <- fetch_event_by_slug (default "" slug) ;;
  if negb (truthy event) then ret false else
  mk <- lift (py_get event "markets") ;;
  match py_or mk (JList []) with
  | JList markets =>
      found <- lift (find_market markets strike) ;;
      ret (match found with Some _ => true | None => false end)
  | _ => ret false
  end.

(** The strike in an outcome such as [82000 YES]: [int(parts[0])]. *)
Definition parse_strike (parts : list string) : option Z :=
  match parts with
  | p0 :: _ => PyStr.int p0
  | [] => None
  end.

Definition no_words : list string := ["no"; "нет"; "нету"].

Definition parse_side_yes (parts : list string) : bool :=
  match parts with
  | _ :: p1 :: _ => negb (PyStr.mem (PyStr.lower p1) no_words)
  | _ => true
  end.

(** [json.loads(v)]: a value that is not a text raises [TypeError]. *)
Definition py_json_loads (v : json) : res json :=
  match v with
  | JStr s => json_loads s
  | _ => Raise TypeError
  end.

Definition pick_token_id_for_outcome (event : json) (outcome_str : string)
  : res (option string) :=
  mk <~ py_get event "markets" ;;
  match py_or mk (JList []) with
  | JList (m0 :: ms) =>
      let markets := m0 :: ms in
      let parts := PyStr.split (PyStr.strip outcome_str) in
      let strike := parse_strike parts in
      let side_yes := parse_side_yes parts in
      chosen_market <~ match strike with
                       | Some k => find_market markets k
                       | None => Ok None
                       end ;;
      match chosen_market with
      | None => Ok None
      | Some m =>
          clob_token_ids_raw <~ py_get m "clobTokenIds" ;;
          if negb (truthy clob_token_ids_raw) then Ok None else
          match py_json_loads clob_token_ids_raw with
          | Raise _ => Ok None                          (* except Exception *)
          | Ok (JList (id0 :: id1 :: _)) =>
              Ok (Some (py_str (if side_yes then id0 else id1)))
          | Ok _ => Ok None
          end
      end
  | _ => Ok None
  end.

(** [float(price_str)] under [except ValueError: return None] *)
Definition float_of_price (price_str : json) : res (option float) :=
  match price_str with
  | JStr s => Ok (float_of_string s)
  | JInt n => f <~ float_of_int n ;; Ok (Some f)
  | JFloat f => Ok (Some f)
  | JBool b => Ok (Some (if b then 1%float else 0%float))
  | _ => Raise TypeError
  end.

Definition fetch_token_price (token_id side : string) : M W (option float) :=
  resp <- call (clob_price token_id (PyStr.upper side)) ;;
  if negb (status_code resp =? 200) then ret None else
  data <- lift (json_body resp) ;;
  price_str <- lift (py_get data "price") ;;
  match price_str with
  | JNull => ret None
  | _ => lift (float_of_price price_str)
  end.

(** *** The commands and the [/add] dialogue (lines 269-416) *)

(** A handler answers with [message.answer], which writes to the chat of the
    message; the entry it leaves in the outbox names the user whose message
    is answered, which in a private chat is the chat. *)

(** [message.text], absent on a message without text: a method call on it
    then raises [AttributeError]. *)
Definition text_of (text : option string) : res string :=
  match text with
  | Some t => Ok t
  | None => Raise AttributeError
  end.

(** [state[key]] of an entry of [user_add_state] *)
Definition field_of (v : option string) : res string :=
  match v with
  | Some t => Ok t
  | None => Raise KeyError
  end.

Definition update_add_state (user_id : Z) (s : add_state) : M W unit :=
  st <- get_state ;; set_user_add_state (<[user_id := s]> (user_add_state st)).

Definition cmd_start (user_id : Z) : M W unit :=
  send_message user_id TStart.

Definition cmd_list (user_id : Z) : M W unit :=
  alerts <- get_user_alerts user_id ;;
  match alerts with
  | [] => send_message user_id TNoAlerts
  | _ => send_message user_id (TAlertList alerts)
  end.

Definition cmd_add (user_id : Z) : M W unit :=
  _ <- update_add_state user_id
         {| step := 1; st_market_url := None; st_outcome := None |} ;;
  send_message user_id TAddStep1.

Definition cmd_delete (user_id : Z) (text : string) : M W unit :=
  let args := PyStr.split_max1 (PyStr.strip text) in
  match args with
  | _ :: a1 :: _ =>
      match PyStr.int a1 with
      | None => send_message user_id TDeleteNotNumber
      | Some alert_id =>
          ok <- deactivate_alert user_id alert_id ;;
          if ok then send_message user_id (TDeleted alert_id)
          else send_message user_id TDeleteNotFound
      end
  | _ => send_message user_id TDeleteUsage
  end.

(** [float(message.text.replace(",", ".").strip())] *)
Definition parse_price (text : string) : option float :=
  float_of_string (PyStr.strip (PyStr.replace "," "." text)).

Definition handle_add_flow_or_default (user_id : Z) (text : option string)
  : M W unit :=
  st <- get_state ;;
  match user_add_state st !! user_id with
  | None => ret tt
  | Some state =>
      if step state =? 1 then
        t <- lift (text_of text) ;;
        _ <- update_add_state user_id
               {| step := 2; st_market_url := Some (PyStr.strip t);
                  st_outcome := st_outcome state |} ;;
        send_message user_id TAddStep2
      else if step state =? 2 then
        t <- lift (text_of text) ;;
        _ <- update_add_state user_id
               {| step := 3; st_market_url := st_market_url state;
                  st_outcome := Some (PyStr.strip t) |} ;;
        send_message user_id TAddStep3
      else if step state =? 3 then
        t <- lift (text_of text) ;;
        match parse_price t with
        | None => send_message user_id TBadNumber      (* except ValueError *)
        | Some target_price =>
            market_url <- lift (field_of (st_market_url state)) ;;
            outcome <- lift (field_of (st_outcome state)) ;;
            let parts := PyStr.split (PyStr.strip outcome) in
            match parse_strike parts with
            | None => send_message user_id TNoStrike
            | Some strike =>
                found <- strike_exists_in_event market_url strike ;;
                if negb found then send_message user_id TStrikeMissing
                else
                  _ <- add_alert user_id market_url outcome target_price ;;
                  st' <- get_state ;;
                  _ <- set_user_add_state (delete user_id (user_add_state st')) ;;
                  send_message user_id
                    (TAlertAdded market_url outcome target_price)
            end
        end
      else ret tt
  end.

(** *** The worker (lines 421-490) *)

Definition should_trigger (direction : string)
    (current_cents target_price_cents : float) : bool :=
  if String.eqb direction ">=" && (target_price_cents <=? current_cents)%float
  then true
  else if String.eqb direction "<=" && (current_cents <=? target_price_cents)%float
  then true
  else false.

(** Lines 440-458 of the loop body: from the alert to the price of its
    instrument; [None] is one of the four [continue]. *)
Definition alert_price (market_url outcome : string) : M W (option float) :=
  let slug := extract_event_slug market_url in
  if falsy_str slug then _ <- print (LNoSlug market_url) ;; ret None else
  let slug := default "" slug in
  event <- fetch_event_by_slug slug ;;
  if negb (truthy event) then _ <- print (LNoEvent slug) ;; ret None else
  token_id <- lift (pick_token_id_for_outcome event outcome) ;;
  if falsy_str token_id then _ <- print (LNoToken outcome) ;; ret None else
  let token_id := default "" token_id in
  price_usd <- fetch_token_price token_id "BUY" ;;
  match price_usd with
  | None => _ <- print (LNoPrice token_id) ;; ret None
  | Some p => ret (Some p)
  end.

(** Lines 460-485: the comparison, the notification and the deactivation. *)
Definition alert_decide (alert_id user_id : Z) (market_url outcome : string)
    (target_price_cents : float) (direction : string) (price_usd : float)
  : M W unit :=
  let current_cents := (price_usd * 100)%float in
  _ <- print (LPrice alert_id current_cents target_price_cents direction) ;;
  if should_trigger direction current_cents target_price_cents then
    _ <- try_except
           (send_message user_id
              (TTriggered alert_id market_url outcome target_price_cents
                          current_cents))
           (fun e => print (LSendError user_id e)) ;;
    _ <- deactivate_alert user_id alert_id ;;
    ret tt
  else ret tt.

(** The body of the [try] of one iteration. *)
Definition alert_body (alert_id user_id : Z) (market_url outcome : string)
    (target_price_cents : float) (direction : string) : M W unit :=
  price <- alert_price market_url outcome ;;
  match price with
  | None => ret tt                                             (* continue *)
  | Some price_usd =>
      alert_decide alert_id user_id market_url outcome target_price_cents
                   direction price_usd
  end.

(** One iteration of the [for]: the body under its [except Exception]. *)
Definition alert_step (a : Z * Z * string * string * float * string)
  : M W unit :=
  let '(alert_id, user_id, market_url, outcome, target_price_cents, direction) := a in
  try_except
    (alert_body alert_id user_id market_url outcome target_price_cents direction)
    (fun e => print (LAlertError alert_id e)).

(** One pass of [while True]: the snapshot, then every alert of it. *)
Definition alerts_worker_cycle : M W unit :=
  alerts <- get_all_active_alerts ;;
  _ <- print (LActive (length alerts)) ;;
  for_each alerts alert_step.

(** *** Vocabulary of the statements about markets *)

(** The markets the two loops run over: [event.get("markets") or []] when it
    is a list. *)
Definition markets_of (event : json) : list json :=
  match py_get event "markets" with
  | Ok mk => match py_or mk (JList []) with
             | JList ms => ms
             | _ => []
             end
  | Raise _ => []
  end.

(** The normalized strike label of a market, when it is an integer. *)
Definition label_of (m : json) : option Z :=
  match py_get m "groupItemTitle" with
  | Ok t => normalize_title (py_str (py_or t (JStr "")))
  | Raise _ => None
  end.

(** The instrument pair of a market: the first two elements of the list its
    [clobTokenIds] text decodes to. *)
Definition token_pair (m : json) : option (json * json) :=
  match py_get m "clobTokenIds" with
  | Ok raw =>
      if truthy raw then
        match py_json_loads raw with
        | Ok (JList (id0 :: id1 :: _)) => Some (id0, id1)
        | _ => None
        end
      else None
  | Raise _ => None
  end.

Definition is_dict (v : json) : bool :=
  match v with
  | JDict _ => true
  | _ => false
  end.

(** *** Invariants of monadic code *)

(** A property of the table, the dialogue map, and the parts of the outbox and
    of the log that [f] and [g] select; the world is left out. *)
Definition inv
    (P : gmap Z alert -> gmap Z add_state -> list (Z * text_out) ->
         list log_line -> Prop)
    (f : Z * text_out -> bool) (g : log_line -> bool) (st : state W) : Prop :=
  P (alerts st) (user_add_state st) (List.filter f (outbox st))
    (List.filter g (stdout st)).

Definition preserves {A} (I : state W -> Prop) (m : M W A) : Prop :=
  forall st, I st -> I (m st).2.

(** [g] selects no line of the log but the price lines. *)
Definition quiet (g : log_line -> bool) : Prop :=
  forall l, match l with LPrice _ _ _ _ => True | _ => g l = false end.

(** [f] selects no text of the outbox but the notifications of the worker. *)
Definition plain (f : Z * text_out -> bool) : Prop :=
  forall chat text,
    match text with TTriggered _ _ _ _ _ => True | _ => f (chat, text) = false end.

(** The condition of the worker, as a proposition: at least the target for
    [>=], at most the target for [<=]. *)
Definition crossed (direction : string) (current_cents target_price_cents : float)
  : Prop :=
  (direction = ">=" /\ (target_price_cents <=? current_cents)%float = true) \/
  (direction = "<=" /\ (current_cents <=? target_price_cents)%float = true).

(** *** The running program *)

(** What the event loop runs, one at a time: a routed command, any other
    message, or a pass of the worker. *)
Inductive update :=
  | CmdStart (user_id : Z)
  | CmdList (user_id : Z)
  | CmdAdd (user_id : Z)
  | CmdDelete (user_id : Z) (text : string)
  | Message (user_id : Z) (text : option string)
  | WorkerCycle.

Definition dispatch (u : update) : M W unit :=
  match u with
  | CmdStart user_id => cmd_start user_id
  | CmdList user_id => cmd_list user_id
  | CmdAdd user_id => cmd_add user_id
  | CmdDelete user_id text => cmd_delete user_id text
  | Message user_id text => handle_add_flow_or_default user_id text
  | WorkerCycle => alerts_worker_cycle
  end.

(** An exception that leaves a handler is logged by the dispatcher; the state
    stays as the handler left it. *)
Definition run (us : list update) (st : state W) : state W :=
  fold_left (fun s u => exec (dispatch u) s) us st.

End Program.

(** ** Vocabulary of the statements *)

Fixpoint last_char (s : string) : option ascii :=
  match s with
  | EmptyString => None
  | String c EmptyString => Some c
  | String _ s' => last_char s'
  end.

Definition nonempty (s : string) : bool := negb (String.eqb s "").

(** The pieces of a path between its slashes, the leading and trailing
    slashes set aside. *)
Definition segments (path : string) : list string :=
  PyStr.split_on "/" (PyStr.strip_char "/" path).

(** Every byte is a continuation byte. *)
Fixpoint all_cont (s : string) : bool :=
  match s with
  | EmptyString => true
  | String c s' => PyStr.is_cont c && all_cont s'
  end.

(** A piece that [PyStr.chars] cuts as one character: a byte that continues
    nothing, and continuation bytes. *)
Definition whole (ch : string) : bool :=
  match ch with
  | EmptyString => false
  | String b rest => negb (PyStr.is_cont b) && all_cont rest
  end.

(** The text begins with a continuation byte. *)
Definition starts_cont (s : string) : bool :=
  match s with
  | EmptyString => false
  | String d _ => PyStr.is_cont d
  end.

(** The decimal digits of a text, in order, as numbers. *)
Definition digits_of {U : PyStr.Unicode} (s : string) : list Z :=
  omap PyStr.digit_of (PyStr.chars s).

(** The number a sequence of decimal digits denotes. *)
Definition decimal (ds : list Z) : Z :=
  fold_left (fun acc d => 10 * acc + d) ds 0.

(** Every character is a decimal digit or the separator [sep]. *)
Definition grouped_by {U : PyStr.Unicode} (sep : ascii) (s : string) : bool :=
  forallb (fun ch => PyStr.is_digit ch || String.eqb ch (String sep EmptyString))
          (PyStr.chars s).

(** The notifications of the worker about one alert. *)
Definition notifies (alert_id : Z) (m : Z * text_out) : bool :=
  match m.2 with
  | TTriggered i _ _ _ _ => i =? alert_id
  | _ => false
  end.

(** The lines the worker prints when it compares the price of one alert. *)
Definition evaluates (alert_id : Z) (l : log_line) : bool :=
  match l with
  | LPrice i _ _ _ => i =? alert_id
  | _ => false
  end.

(** The key of a row of the snapshot. *)
Definition row_id (r : Z * Z * string * string * float * string) : Z :=
  let '(alert_id, _, _, _, _, _) := r in alert_id.

(** The alert is in the table and inactive; the notifications about it and the
    comparisons of its price are those of [O] and [S']. *)
Definition retired {W : Type} (alert_id : Z) (O : list (Z * text_out))
    (S' : list log_line) : state W -> Prop :=
  inv (fun t _ o s =>
         (exists a, t !! alert_id = Some a /\ active a = false) /\
         o = O /\ s = S')
      (notifies alert_id) (evaluates alert_id).

(** The key of a row of [get_user_alerts]. *)
Definition user_row_id (r : Z * string * string * float * string) : Z :=
  let '(alert_id, _, _, _, _) := r in alert_id.

(** A market carries the strike as its normalized label. *)
Definition has_label {U : PyStr.Unicode} {L : PyLib} (strike : Z) (m : json)
  : bool :=
  match label_of m with
  | Some v => v =? strike
  | None => false
  end.

(** Two rows that differ at most in [active]. *)
Definition same_alert (a b : alert) : Prop :=
  user_id b = user_id a /\ market_url b = market_url a /\
  outcome b = outcome a /\ target_price b = target_price a /\
  direction b = direction a.

(** The user a command or a message comes from; the worker has none. *)
Definition sender (u : update) : option Z :=
  match u with
  | CmdStart uid | CmdList uid | CmdAdd uid | CmdDelete uid _
  | Message uid _ => Some uid
  | WorkerCycle => None
  end.

(** What a handler run for user [uid] may change between two states: the
    user's own dialogue entry, rows of the table that are not another
    user's, and the outbox, which it may extend. *)
Definition confined {W : Type} (uid : Z) (st st' : state W) : Prop :=
  (forall v, v <> uid -> user_add_state st' !! v = user_add_state st !! v) /\
  (forall j a, alerts st !! j = Some a -> user_id a <> uid ->
     alerts st' !! j = Some a) /\
  (exists ext, outbox st' = (outbox st ++ ext)%list) /\
  stdout st' = stdout st.

(** The handler [m], run from [st], stays confined to the user. *)
Definition keeps_at {W A : Type} (uid : Z) (m : M W A) (st : state W) : Prop :=
  confined uid st (m st).2.

(** The second table is the first one with some active rows deactivated. *)
Definition only_deactivated (t t' : gmap Z alert) : Prop :=
  forall j, t' !! j = t !! j \/
            exists a, t !! j = Some a /\ active a = true /\
                      t' !! j = Some (set_inactive a).

(** A notification of the worker for an active alert of the table, sent to
    its owner with the columns of its row, at a price that meets its
    condition. *)
Definition notice_of (t : gmap Z alert) (m : Z * text_out) : Prop :=
  exists i a c,
    t !! i = Some a /\ active a = true /\
    m = (user_id a,
         TTriggered i (market_url a) (outcome a) (target_price a) c) /\
    crossed (direction a) c (target_price a).

(** What every row the program stores looks like: a key from 1 on, the
    direction [>=], a target that is a number. *)
Definition well_stored (t : gmap Z alert) : Prop :=
  forall j a, t !! j = Some a ->
    1 <= j /\ direction a = ">=" /\ PrimFloat.is_nan (target_price a) = false.

(** ** A small world to run the program in *)

Module Demo.

(** The double quote, and the text of a two-element instrument list. *)
Definition dq : string := String (PyStr.chr 34) EmptyString.

Definition ids_text : string :=
  String.concat "" ["["; dq; "71"; dq; ", "; dq; "72"; dq; "]"].

(** The zero of every block of decimal digits of Unicode 14.0, the database
    of CPython 3.11. *)
Definition decimal_zeros : list Z :=
  [48; 1632; 1776; 1984; 2406; 2534; 2662; 2790; 2918; 3046; 3174; 3302; 3430;
   3558; 3664; 3792; 3872; 4160; 4240; 6112; 6160; 6470; 6608; 6784; 6800;
   6992; 7088; 7232; 7248; 42528; 43216; 43264; 43472; 43504; 43600; 44016;
   65296; 66720; 68912; 69734; 69872; 69942; 70096; 70384; 70736; 70864;
   71248; 71360; 71472; 71904; 72016; 72784; 73040; 73120; 92768; 92864;
   93008; 120782; 120792; 120802; 120812; 120822; 123200; 123632; 125264;
   130032].

Definition in_block (c z : Z) : bool := (z <=? c) && (c <? z + 10).

Definition decimal14 (c : Z) : option Z :=
  match List.find (in_block c) decimal_zeros with
  | Some z => Some (c - z)
  | None => None
  end.

Lemma decimal14_ascii c :
  0 <= c < 128 ->
  decimal14 c = if (48 <=? c) && (c <=? 57) then Some (c - 48) else None.
Proof.
  intros Hc. unfold decimal14.
  destruct (List.find (in_block c) decimal_zeros) as [z|] eqn:F.
  - apply find_some in F as [Hz F]. unfold in_block in F.
    unfold decimal_zeros in Hz. simpl in Hz.
    destruct Hz as [<- | Hz].
    + replace ((48 <=? c) && (c <=? 57)) with true by lia. reflexivity.
    + repeat (destruct Hz as [<- | Hz]; [lia|]). destruct Hz.
  - pose proof (find_none _ _ F 48 ltac:(left; reflexivity)) as H.
    unfold in_block in H.
    replace ((48 <=? c) && (c <=? 57)) with false by lia. reflexivity.
Qed.

Lemma decimal14_digit c d : decimal14 c = Some d -> 0 <= d <= 9.
Proof.
  unfold decimal14.
  destruct (List.find (in_block c) decimal_zeros) as [z|] eqn:E; [|discriminate].
  apply find_some in E as [_ E]. unfold in_block in E. intros [= <-]. lia.
Qed.

Lemma decimal14_space c :
  PyStr.is_space_point c = true -> decimal14 c = None.
Proof.
  unfold PyStr.is_space_point. intros H.
  assert (Hc : In c [9; 10; 11; 12; 13; 28; 29; 30; 31; 32; 133; 160; 5760;
                     8192; 8193; 8194; 8195; 8196; 8197; 8198; 8199; 8200;
                     8201; 8202; 8232; 8233; 8239; 8287; 12288]).
  { simpl. lia. }
  simpl in Hc.
  repeat (destruct Hc as [<- | Hc]; [reflexivity|]). destruct Hc.
Qed.

Definition ucd : PyStr.Unicode := {|
  PyStr.to_decimal := decimal14;
  PyStr.to_decimal_ascii := decimal14_ascii;
  PyStr.to_decimal_digit := decimal14_digit;
  PyStr.to_decimal_space := decimal14_space
|}.

(** Stand-ins for the library: each knows the few inputs the examples use. *)
Definition lib : PyLib := {|
  urlparse_path url :=
    if String.eqb url "https://x/event/abc/abc-market"
    then Ok "/event/abc/abc-market"
    else if String.eqb url "http://[" then Raise ValueError
    else Ok url;
  json_loads s :=
    if String.eqb s ids_text then Ok (JList [JStr "71"; JStr "72"])
    else if String.eqb s "[71]" then Ok (JList [JInt 71])
    else Raise JSONDecodeError;
  float_of_string s :=
    if String.eqb s "48" then Some 48%float
    else if String.eqb s "12.5" then Some 12.5%float
    else if String.eqb s "0.52" then Some 0x1.0a3d70a3d70a4p-1%float
    else if String.eqb s "nan" then Some nan
    else if String.eqb s "-0" then Some neg_zero
    else None;
  float_of_int n :=
    if n =? 0 then Ok 0%float else if n =? 1 then Ok 1%float
    else Raise OverflowError;
  repr _ := "?"
|}.

(** A network that gives the same three answers whatever it is asked. *)
Record replies := {
  events_reply : res http_response;
  price_reply : res http_response;
  send_reply : res unit
}.

Definition net : Services replies := {|
  gamma_events _ w := (events_reply w, w);
  clob_price _ _ w := (price_reply w, w);
  telegram_send _ _ w := (send_reply w, w)
|}.

Definition market (title : string) : json :=
  JDict [("groupItemTitle", JStr title); ("clobTokenIds", JStr ids_text)].

Definition event (titles : list string) : json :=
  JDict [("slug", JStr "abc"); ("markets", JList (map market titles))].

Definition http_ok (body : json) : res http_response :=
  Ok {| status_code := 200; json_body := Ok body |}.

Definition http_status (code : Z) : res http_response :=
  Ok {| status_code := code; json_body := Raise JSONDecodeError |}.

(** The event with strikes 78,000 and 82,000, a price of 0.52, and a
    Telegram that delivers. *)
Definition calm : replies := {|
  events_reply := http_ok (JList [event ["78,000"; "82,000"]]);
  price_reply := http_ok (JDict [("price", JStr "0.52")]);
  send_reply := Ok tt
|}.

(** The same, with a Telegram that refuses every message. *)
Definition mute : replies := {|
  events_reply := events_reply calm;
  price_reply := price_reply calm;
  send_reply := Raise TelegramError
|}.

(** The same as [calm], with the metadata service out of reach. *)
Definition offline : replies := {|
  events_reply := Raise TransportError;
  price_reply := price_reply calm;
  send_reply := Ok tt
|}.

Definition with_events (r : res http_response) : replies := {|
  events_reply := r;
  price_reply := price_reply calm;
  send_reply := Ok tt
|}.

Definition url : string := "https://x/event/abc/abc-market".

Definition row (uid : Z) (target : float) (dir : string) (act : bool) : alert :=
  {| user_id := uid; market_url := url; outcome := "82000 YES";
     target_price := target; direction := dir; active := act |}.

Definition start (w : replies) (t : gmap Z alert) (u : gmap Z add_state)
  : state replies :=
  {| alerts := t; user_add_state := u; world := w; outbox := []; stdout := [] |}.

(** A user at the price step of the dialogue. *)
Definition at_price (outcome : string) : add_state :=
  {| step := 3; st_market_url := Some url; st_outcome := Some outcome |}.

(** The price 0.52 of [calm], as the nearest double. *)
Definition price52 : float := 0x1.0a3d70a3d70a4p-1%float.

(** A table with the one alert 1, of user 7. *)
Definition table1 (target : float) (dir : string) (act : bool) : gmap Z alert :=
  <[1 := row 7 target dir act]> ∅.

(** User 7 at the price step, after the outcome [outcome]. *)
Definition asking (outcome : string) : gmap Z add_state :=
  <[7 := at_price outcome]> ∅.

(** The worker's view of alert 1. *)
Definition snap1 (target : float) (dir : string)
  : Z * Z * string * string * float * string :=
  (1, 7, url, "82000 YES", target, dir).

(** Alert 1 with target 50 and [>=], active, in each of the worlds. *)
Definition armed (w : replies) : state replies :=
  start w (table1 50 ">=" true) ∅.

(** The same alert, deactivated. *)
Definition spent (w : replies) : state replies :=
  start w (table1 50 ">=" false) ∅.

(** An empty table and user 7 about to give the price. *)
Definition pricing (w : replies) (outcome : string) : state replies :=
  start w ∅ (asking outcome).

(** The no-break space U+00A0 and the separator FS, as texts. *)
Definition nbsp : string :=
  String (PyStr.chr 194) (String (PyStr.chr 160) EmptyString).

Definition fs : string := String (PyStr.chr 28) EmptyString.

(** A label of 4301 digits. *)
Definition long_label : string := PyStr.join (repeat "1" 4301).


(** Alert 1 of user 7 and alert 2 of user 8, both active. *)
Definition both : state replies :=
  start calm (<[2 := row 8 12.5 ">=" true]> (table1 50 ">=" true)) ∅.

(** The same as [calm], with a price service that answers 503. *)
Definition priceless : replies := {|
  events_reply := events_reply calm;
  price_reply := http_status 503;
  send_reply := Ok tt
|}.

(** The same as [calm], with a price that is not a number. *)
Definition nan_quote : replies := {|
  events_reply := events_reply calm;
  price_reply := http_ok (JDict [("price", JStr "nan")]);
  send_reply := Ok tt
|}.

End Demo.

(** * Properties *)

Section Proofs.

Context {UC : PyStr.Unicode} {L : PyLib} {W : Type} {Net : Services W}.

Implicit Types (st : state W) (t : gmap Z alert) (a : alert).
Implicit Types (I : state W -> Prop).

(** ** The table *)

Lemma state_eta st :
  {| alerts := alerts st; user_add_state := user_add_state st;
     world := world st; outbox := outbox st; stdout := stdout st |} = st.
Proof. destruct st; reflexivity. Qed.

Lemma deactivate_row_miss t uid alert_id :
  (forall a, t !! alert_id = Some a -> user_id a = uid -> active a = false) ->
  deactivate_row t uid alert_id = (t, false).
Proof.
  intros H. unfold deactivate_row.
  destruct (t !! alert_id) as [a|] eqn:E; [|reflexivity].
  destruct (user_id a =? uid) eqn:U; [|reflexivity].
  apply Z.eqb_eq in U. rewrite (H a eq_refl U). reflexivity.
Qed.

Lemma deactivate_row_hit t uid alert_id t' :
  deactivate_row t uid alert_id = (t', true) ->
  exists a, t !! alert_id = Some a /\ user_id a = uid /\ active a = true /\
            t' = <[alert_id := set_inactive a]> t.
Proof.
  unfold deactivate_row.
  destruct (t !! alert_id) as [a|] eqn:E; [|discriminate].
  destruct (user_id a =? uid) eqn:U; [|discriminate].
  destruct (active a) eqn:A; [|discriminate].
  simpl. intros [= <-]. exists a. apply Z.eqb_eq in U. auto.
Qed.

(** After the update no row with this key and owner is active. *)
Lemma deactivate_row_done t uid alert_id a :
  (deactivate_row t uid alert_id).1 !! alert_id = Some a ->
  user_id a = uid -> active a = false.
Proof.
  unfold deactivate_row.
  destruct (t !! alert_id) as [a0|] eqn:E; simpl; [|rewrite E; discriminate].
  destruct (user_id a0 =? uid) eqn:U; simpl.
  - destruct (active a0) eqn:A; simpl.
    + rewrite lookup_insert_eq. intros [= <-]. reflexivity.
    + rewrite E. intros [= <-]. auto.
  - rewrite E. intros [= <-] Hu. apply Z.eqb_neq in U. contradiction.
Qed.

(** An id that cannot be bound is no key of the table. *)
Lemma unbindable_absent t alert_id :
  bindable t alert_id = false ->
  sqlite_int alert_id = false /\ t !! alert_id = None.
Proof.
  unfold bindable. intros H. apply orb_false_iff in H as [Hi Hk].
  split; [exact Hi|]. apply bool_decide_eq_false in Hk.
  destruct (t !! alert_id); [exfalso; apply Hk; eauto | reflexivity].
Qed.

Lemma deactivate_row_absent t uid alert_id :
  t !! alert_id = None -> deactivate_row t uid alert_id = (t, false).
Proof. unfold deactivate_row. intros ->. reflexivity. Qed.

(** What a call of [deactivate_alert] answers, and the state it leaves: the
    table after the update, which is the table as it was when the id is
    refused. *)
Lemma deactivate_alert_run uid alert_id st :
  deactivate_alert uid alert_id st =
  (if bindable (alerts st) alert_id
   then Ok (deactivate_row (alerts st) uid alert_id).2
   else Raise OverflowError,
   {| alerts := (deactivate_row (alerts st) uid alert_id).1;
      user_add_state := user_add_state st; world := world st;
      outbox := outbox st; stdout := stdout st |}).
Proof.
  unfold deactivate_alert, bind, get_state, set_alerts, ret, raise.
  destruct (bindable (alerts st) alert_id) eqn:B; cbn [negb].
  - destruct (deactivate_row (alerts st) uid alert_id); reflexivity.
  - apply unbindable_absent in B as [_ B].
    rewrite (deactivate_row_absent _ _ _ B). simpl.
    rewrite state_eta. reflexivity.
Qed.

Lemma bindable_present t alert_id a :
  t !! alert_id = Some a -> bindable t alert_id = true.
Proof.
  intros H. unfold bindable. apply orb_true_iff. right.
  apply bool_decide_eq_true. eauto.
Qed.

Lemma bindable_int t alert_id :
  sqlite_int alert_id = true -> bindable t alert_id = true.
Proof. intros H. unfold bindable. rewrite H. reflexivity. Qed.

(** The update keeps the keys of the table. *)
Lemma bindable_deactivate_row t uid i alert_id :
  bindable (deactivate_row t uid i).1 alert_id = bindable t alert_id.
Proof.
  unfold bindable. f_equal. apply bool_decide_ext.
  unfold deactivate_row. destruct (t !! i) as [a|] eqn:E; [|reflexivity].
  destruct ((user_id a =? uid) && active a); [|reflexivity]. simpl.
  destruct (Z.eq_dec alert_id i) as [->|Hne].
  - rewrite lookup_insert_eq, E. split; eauto.
  - rewrite lookup_insert_ne by congruence. reflexivity.
Qed.

(** C9 (as amended). For an id that fits 64 bits, deactivating an alert that
    does not exist answers [false] and leaves the whole state as it was, and
    so does deactivating an alert that is already inactive; for an id that
    does not fit, and so is the id of no alert, the call raises
    [OverflowError] and leaves the state as it was.  Hence a second
    deactivation after any first one changes nothing, and answers [false]
    when the id fits. *)
Theorem deactivate_alert_idempotent uid alert_id st :
  ((alerts st !! alert_id = None /\ sqlite_int alert_id = true) \/
   (exists a, alerts st !! alert_id = Some a /\ active a = false) ->
   deactivate_alert uid alert_id st = (Ok false, st)) /\
  (alerts st !! alert_id = None -> sqlite_int alert_id = false ->
   deactivate_alert uid alert_id st = (Raise OverflowError, st)) /\
  (let st1 := exec (deactivate_alert uid alert_id) st in
   exec (deactivate_alert uid alert_id) st1 = st1 /\
   (sqlite_int alert_id = true ->
    deactivate_alert uid alert_id st1 = (Ok false, st1))).
Proof.
  split; [|split].
  - intros H. rewrite deactivate_alert_run, deactivate_row_miss.
    + simpl. rewrite state_eta.
      destruct H as [[_ H] | (a & H & _)];
        [rewrite (bindable_int _ _ H) | rewrite (bindable_present _ _ _ H)];
        reflexivity.
    + intros a Ha _. destruct H as [[H _] | (a' & H & Hin)]; congruence.
  - intros Ha Hi. rewrite deactivate_alert_run, (deactivate_row_absent _ _ _ Ha).
    simpl. rewrite state_eta. unfold bindable. rewrite Hi, Ha. reflexivity.
  - cbv zeta. unfold exec. rewrite !deactivate_alert_run. cbn [fst snd alerts].
    rewrite (deactivate_row_miss _ uid alert_id)
      by (intros a; apply deactivate_row_done).
    split; [reflexivity|]. intros Hi.
    rewrite (bindable_int _ _ Hi). reflexivity.
Qed.

(** C10. A deactivation asked by a user who does not own the alert answers
    [false] and leaves the whole state as it was; a deactivation that answers
    [true] has found the owner's active alert under that key, and the new
    table differs from the old one in that row only, whose [active] flag alone
    has changed. *)
Theorem deactivate_alert_owner_scoped u alert_id st :
  (forall v a, alerts st !! alert_id = Some a -> user_id a = v -> u <> v ->
     deactivate_alert u alert_id st = (Ok false, st)) /\
  (forall st', deactivate_alert u alert_id st = (Ok true, st') ->
     exists a, alerts st !! alert_id = Some a /\ user_id a = u /\
       active a = true /\
       alerts st' !! alert_id =
         Some {| user_id := user_id a; market_url := market_url a;
                 outcome := outcome a; target_price := target_price a;
                 direction := direction a; active := false |} /\
       (forall j, j <> alert_id -> alerts st' !! j = alerts st !! j) /\
       user_add_state st' = user_add_state st /\ outbox st' = outbox st).
Proof.
  split.
  - intros v a Ha Hv Hne.
    rewrite deactivate_alert_run, deactivate_row_miss, (bindable_present _ _ _ Ha).
    + simpl. rewrite state_eta. reflexivity.
    + intros a' Ha' Hu. congruence.
  - intros st'. rewrite deactivate_alert_run.
    destruct (bindable (alerts st) alert_id); [|discriminate].
    destruct (deactivate_row (alerts st) u alert_id) as [t' b] eqn:E.
    simpl. intros [= -> <-]. apply deactivate_row_hit in E.
    destruct E as (a & Ha & Hu & Hact & ->). exists a. simpl.
    repeat split; auto.
    + apply lookup_insert_eq.
    + intros j Hj. apply lookup_insert_ne. congruence.
Qed.

(** ** Path segments *)

Lemma lstrip_by_head p s :
  match PyStr.lstrip_by p s with
  | String c _ => p c = false
  | EmptyString => True
  end.
Proof.
  induction s as [|c s IH]; simpl; [exact I|].
  destruct (p c) eqn:E; [exact IH | exact E].
Qed.

Lemma rstrip_by_head p c s :
  p c = false -> exists r, PyStr.rstrip_by p (String c s) = String c r.
Proof.
  intros H. simpl. destruct (PyStr.rstrip_by p s); rewrite ?H; eauto.
Qed.

Lemma rstrip_by_last p s :
  match last_char (PyStr.rstrip_by p s) with
  | Some c => p c = false
  | None => True
  end.
Proof.
  induction s as [|c s IH]; simpl; [exact I|].
  destruct (PyStr.rstrip_by p s) as [|d r] eqn:E.
  - destruct (p c) eqn:Hc; simpl; auto.
  - exact IH.
Qed.

Lemma strip_by_ends p s :
  match PyStr.strip_by p s with
  | String c _ => p c = false
  | EmptyString => True
  end /\
  match last_char (PyStr.strip_by p s) with
  | Some c => p c = false
  | None => True
  end.
Proof.
  unfold PyStr.strip_by. split; [|apply rstrip_by_last].
  pose proof (lstrip_by_head p s) as H.
  destruct (PyStr.lstrip_by p s) as [|c r]; [exact I|].
  destruct (rstrip_by_head p c r H) as [r' ->]. exact H.
Qed.

Lemma split_on_cons sep s : exists w ws, PyStr.split_on sep s = w :: ws.
Proof.
  destruct s as [|c s]; simpl; eauto.
  destruct (Ascii.eqb c sep); eauto.
  destruct (PyStr.split_on sep s); eauto.
Qed.

Lemma split_on_head sep c s :
  Ascii.eqb c sep = false ->
  exists w ws, PyStr.split_on sep (String c s) = String c w :: ws.
Proof.
  intros H. simpl. rewrite H.
  destruct (split_on_cons sep s) as (w & ws & ->). eauto.
Qed.

Lemma split_on_last sep s c :
  last_char s = Some c -> Ascii.eqb c sep = false ->
  List.last (PyStr.split_on sep s) "" <> "".
Proof.
  revert c. induction s as [|d s IH]; intros c Hl Hc; [discriminate|].
  simpl in Hl. destruct s as [|e s'].
  - injection Hl as ->. simpl. rewrite Hc. simpl. discriminate.
  - specialize (IH c Hl Hc).
    change (PyStr.split_on sep (String d (String e s'))) with
      (if Ascii.eqb d sep then EmptyString :: PyStr.split_on sep (String e s')
       else match PyStr.split_on sep (String e s') with
            | [] => [String d EmptyString]
            | w :: ws => String d w :: ws
            end).
    destruct (split_on_cons sep (String e s')) as (w & ws & E).
    rewrite E in *. destruct (Ascii.eqb d sep).
    + exact IH.
    + destruct ws as [|w' ws']; [simpl; discriminate | exact IH].
Qed.

Lemma count_nonempty_two (x y : string) (r : list string) :
  x <> "" -> List.last (x :: y :: r) "" <> "" ->
  (2 <= length (List.filter nonempty (x :: y :: r)))%nat.
Proof.
  intros Hx Hl.
  assert (Hin : In (List.last (y :: r) "") (y :: r)).
  { clear. revert y. induction r as [|z r IH]; intros y; [left; reflexivity|].
    right. apply IH. }
  change (List.last (x :: y :: r) "") with (List.last (y :: r) "") in Hl.
  assert (Hf : In (List.last (y :: r) "") (List.filter nonempty (y :: r))).
  { apply filter_In. split; [exact Hin|]. unfold nonempty.
    destruct (String.eqb_spec (List.last (y :: r) "") ""); [contradiction | reflexivity]. }
  change (List.filter nonempty (x :: y :: r)) with
    (if nonempty x then x :: List.filter nonempty (y :: r)
     else List.filter nonempty (y :: r)).
  assert (Hnx : nonempty x = true).
  { unfold nonempty. destruct (String.eqb_spec x ""); [contradiction | reflexivity]. }
  rewrite Hnx. destruct (List.filter nonempty (y :: r)); [destruct Hf|].
  simpl. lia.
Qed.

(** A trimmed path has two pieces or more exactly when two of its pieces or
    more are not empty. *)
Lemma segments_two path :
  (2 <= length (segments path))%nat <->
  (2 <= length (List.filter nonempty (segments path)))%nat.
Proof.
  split.
  - unfold segments, PyStr.strip_char.
    destruct (strip_by_ends (Ascii.eqb "/") path) as [Hh Hl].
    destruct (PyStr.strip_by (Ascii.eqb "/") path) as [|c s] eqn:E.
    { simpl. lia. }
    assert (Hc : Ascii.eqb c "/" = false) by (rewrite Ascii.eqb_sym; exact Hh).
    destruct (split_on_head "/" c s Hc) as (w & ws & Hs).
    destruct (last_char (String c s)) as [d|] eqn:Ed.
    2:{ exfalso. clear -Ed. revert c Ed. induction s as [|e s IH]; intros c; simpl.
        - discriminate.
        - apply IH. }
    assert (Hd : Ascii.eqb d "/" = false) by (rewrite Ascii.eqb_sym; exact Hl).
    pose proof (split_on_last "/" _ d Ed Hd) as Hlast.
    rewrite Hs in *. destruct ws as [|y r]; [simpl; lia|].
    intros _. apply count_nonempty_two; [discriminate | exact Hlast].
  - pose proof (filter_length_le nonempty (segments path)). lia.
Qed.

Lemma extract_event_slug_run url :
  extract_event_slug url =
  match urlparse_path url with
  | Raise _ => None
  | Ok path =>
      match segments path with
      | p0 :: p1 :: _ => if String.eqb p0 "event" then Some p1 else None
      | _ => None
      end
  end.
Proof. reflexivity. Qed.

(** C5. Whatever [urlparse] does with the text, [extract_event_slug] returns:
    the second piece of the trimmed path when the path has two non-empty
    pieces or more and the first is [event]; nothing when fewer than two
    pieces are non-empty, when the first is not [event], or when [urlparse]
    raises. *)
Theorem extract_event_slug_segments url :
  match urlparse_path url with
  | Raise _ => extract_event_slug url = None
  | Ok path =>
      let segs := segments path in
      let n := length (List.filter nonempty segs) in
      ((2 <= n)%nat /\ nth 0 segs "" = "event" ->
       extract_event_slug url = Some (nth 1 segs "")) /\
      ((n < 2)%nat \/ nth 0 segs "" <> "event" ->
       extract_event_slug url = None)
  end.
Proof.
  rewrite extract_event_slug_run.
  destruct (urlparse_path url) as [path|e]; [|reflexivity].
  cbv zeta. pose proof (segments_two path) as H2.
  destruct (segments path) as [|p0 [|p1 r]] eqn:E.
  - split; [intros [Hn _]; simpl in Hn; lia | reflexivity].
  - split; [|reflexivity]. intros [Hn _].
    apply H2 in Hn. simpl in Hn. lia.
  - cbn [nth]. destruct (String.eqb_spec p0 "event") as [->|Hne].
    + split; [reflexivity|]. intros [Hn | Hn]; [|contradiction].
      assert (H : (2 <= length ("event" :: p1 :: r))%nat) by (simpl; lia).
      apply H2 in H. lia.
    + split; [intros [_ Hp]; contradiction | reflexivity].
Qed.

(** ** Characters *)

Lemma chars_glue b rest (s2 : string) :
  all_cont rest = true -> starts_cont s2 = false ->
  PyStr.chars (String b (String.append rest s2)) = String b rest :: PyStr.chars s2.
Proof.
  revert b. induction rest as [|r rest IH]; intros b Hc Ht.
  - destruct s2 as [|d s2]; [reflexivity|].
    cbn [starts_cont] in Ht.
    change (PyStr.chars (String b (String.append EmptyString (String d s2))))
      with (if PyStr.is_cont d then PyStr.glue b (PyStr.chars (String d s2))
            else String b EmptyString :: PyStr.chars (String d s2)).
    rewrite Ht. reflexivity.
  - cbn [all_cont] in Hc. apply andb_true_iff in Hc as [Hr Hc].
    change (PyStr.chars (String b (String.append (String r rest) s2))) with
      (if PyStr.is_cont r
       then PyStr.glue b (PyStr.chars (String r (String.append rest s2)))
       else String b EmptyString :: PyStr.chars (String r (String.append rest s2))).
    rewrite Hr, (IH r Hc Ht). reflexivity.
Qed.

Lemma whole_join_start (l : list string) :
  Forall (fun ch => whole ch = true) l -> starts_cont (PyStr.join l) = false.
Proof.
  intros [|ch l' Hch _]; [reflexivity|].
  destruct ch as [|b rest]; [discriminate|].
  cbn [whole] in Hch. apply andb_true_iff in Hch as [Hb _].
  cbn. apply negb_true_iff. exact Hb.
Qed.

(** Cutting a text made of whole characters gives these characters back. *)
Lemma chars_join (l : list string) :
  Forall (fun ch => whole ch = true) l -> PyStr.chars (PyStr.join l) = l.
Proof.
  induction 1 as [|ch l Hch Hl IH]; [reflexivity|].
  destruct ch as [|b rest]; [discriminate|].
  cbn [whole] in Hch. apply andb_true_iff in Hch as [_ Hrest].
  change (PyStr.join (String b rest :: l)) with
    (String b (String.append rest (PyStr.join l))).
  rewrite chars_glue by auto using whole_join_start. rewrite IH. reflexivity.
Qed.

Lemma chars_nonempty c s : PyStr.chars (String c s) <> [].
Proof.
  revert c. induction s as [|d s IH]; intros c; [discriminate|].
  change (PyStr.chars (String c (String d s))) with
    (if PyStr.is_cont d then PyStr.glue c (PyStr.chars (String d s))
     else String c EmptyString :: PyStr.chars (String d s)).
  destruct (PyStr.is_cont d); [|discriminate].
  destruct (PyStr.chars (String d s)); discriminate.
Qed.

(** The characters of a text make up the text. *)
Lemma join_chars s : PyStr.join (PyStr.chars s) = s.
Proof.
  induction s as [|c s IH]; [reflexivity|].
  destruct s as [|d s]; [reflexivity|].
  change (PyStr.chars (String c (String d s))) with
    (if PyStr.is_cont d then PyStr.glue c (PyStr.chars (String d s))
     else String c EmptyString :: PyStr.chars (String d s)).
  pose proof (chars_nonempty d s) as Hne.
  destruct (PyStr.is_cont d).
  - destruct (PyStr.chars (String d s)) as [|w ws]; [contradiction|].
    change (String c (PyStr.join (w :: ws)) = String c (String d s)).
    rewrite IH. reflexivity.
  - change (String c (PyStr.join (PyStr.chars (String d s)))
            = String c (String d s)).
    rewrite IH. reflexivity.
Qed.

(** A piece that encodes a code point is a whole character. *)
Lemma point_whole ch n : PyStr.point ch = Some n -> whole ch = true.
Proof.
  unfold PyStr.point, whole, PyStr.is_cont.
  destruct ch as [|b0 [|b1 [|b2 [|b3 [|b4 r]]]]]; try discriminate;
    cbn [all_cont]; unfold PyStr.is_cont; cbv zeta; intros H;
    match type of H with
    | (if ?c then _ else _) = _ => destruct c eqn:E; [|discriminate]
    end; lia.
Qed.

Lemma strip_chars_id (p : string -> bool) (l : list string) :
  Forall (fun ch => p ch = false) l -> PyStr.strip_chars p l = l.
Proof.
  intros H. unfold PyStr.strip_chars.
  assert (Hl : PyStr.lstrip_chars p l = l).
  { destruct H as [|ch l' Hch _]; [reflexivity|].
    cbn [PyStr.lstrip_chars]. rewrite Hch. reflexivity. }
  rewrite Hl. clear Hl. induction H as [|ch l' Hch _ IH]; [reflexivity|].
  cbn [PyStr.rstrip_chars]. rewrite IH.
  destruct l'; [rewrite Hch|]; reflexivity.
Qed.

Lemma append_assoc3 (x y z : string) :
  String.append x (String.append y z) = String.append (String.append x y) z.
Proof.
  induction x as [|c x IH]; [reflexivity|].
  change (String c (String.append x (String.append y z))
          = String c (String.append (String.append x y) z)).
  rewrite IH. reflexivity.
Qed.

Lemma replace_append c r (x y : string) :
  PyStr.replace c r (String.append x y) =
  String.append (PyStr.replace c r x) (PyStr.replace c r y).
Proof.
  induction x as [|d x IH]; [reflexivity|].
  change (String.append (String d x) y) with (String d (String.append x y)).
  cbn [PyStr.replace]. rewrite IH.
  destruct (Ascii.eqb d c); [apply append_assoc3 | reflexivity].
Qed.

(** A character other than [c] has no byte [c], when [c] is ASCII. *)
Lemma replace_whole c r ch :
  PyStr.code c < 128 -> whole ch = true -> ch <> String c EmptyString ->
  PyStr.point ch <> None ->
  PyStr.replace c r ch = ch.
Proof.
  intros Hc Hw Hne Hp.
  assert (Hrest : forall rest, all_cont rest = true ->
            PyStr.replace c r rest = rest).
  { induction rest as [|d rest IH]; [reflexivity|]. simpl.
    intros H. apply andb_true_iff in H as [Hd H].
    destruct (Ascii.eqb_spec d c) as [->|];
      [unfold PyStr.is_cont in Hd; lia | rewrite (IH H); reflexivity]. }
  destruct ch as [|b rest]; [discriminate|].
  simpl in Hw. apply andb_true_iff in Hw as [_ Hw]. simpl.
  rewrite (Hrest rest Hw).
  destruct (Ascii.eqb_spec b c) as [->|]; [|reflexivity].
  exfalso. destruct rest as [|b1 rest]; [apply Hne; reflexivity|].
  apply Hp. unfold PyStr.point.
  destruct rest as [|b2 [|b3 [|b4 rest]]]; cbv zeta;
    try reflexivity;
    match goal with
    | |- (if ?x then _ else _) = _ => destruct x eqn:E; [lia | reflexivity]
    end.
Qed.

(** ** Strike labels *)

Lemma is_digit_point ch :
  PyStr.is_digit ch = true ->
  exists n d, PyStr.point ch = Some n /\ PyStr.to_decimal n = Some d /\
              PyStr.digit_of ch = Some d.
Proof.
  unfold PyStr.is_digit, PyStr.digit_of.
  destruct (PyStr.point ch) as [n|]; [|discriminate].
  destruct (PyStr.to_decimal n) as [d|] eqn:E; [|discriminate]. eauto.
Qed.

(** A decimal digit is none of the ASCII characters that are no digit. *)
Lemma digit_not_ascii ch c :
  PyStr.is_digit ch = true -> PyStr.code c < 128 ->
  negb ((48 <=? PyStr.code c) && (PyStr.code c <=? 57)) = true ->
  ch <> String c EmptyString.
Proof.
  intros Hd Hc Hn ->. apply is_digit_point in Hd as (n & d & Hp & Hd & _).
  unfold PyStr.point in Hp.
  replace (PyStr.code c <? 128) with true in Hp by lia.
  injection Hp as <-.
  assert (H0 : 0 <= PyStr.code c) by (unfold PyStr.code; lia).
  rewrite PyStr.to_decimal_ascii in Hd by lia.
  apply negb_true_iff in Hn. rewrite Hn in Hd. discriminate.
Qed.

Lemma digit_not_space ch :
  PyStr.is_digit ch = true ->
  PyStr.is_space ch = false /\ PyStr.is_int_space ch = false.
Proof.
  intros Hd. apply is_digit_point in Hd as (n & d & Hp & Hd & _).
  unfold PyStr.is_space, PyStr.is_int_space. rewrite Hp.
  destruct (PyStr.is_space_point n) eqn:E; [|auto].
  rewrite (PyStr.to_decimal_space n E) in Hd. discriminate.
Qed.

Lemma digit_whole ch : PyStr.is_digit ch = true -> whole ch = true.
Proof.
  intros Hd. apply is_digit_point in Hd as (n & d & Hp & _).
  exact (point_whole ch n Hp).
Qed.

(** What [replace(",", "")] leaves of a text of digits and commas. *)
Lemma replace_grouped (l : list string) :
  forallb (fun ch => PyStr.is_digit ch || String.eqb ch ",") l = true ->
  let ds := List.filter PyStr.is_digit l in
  PyStr.replace "," "" (PyStr.join l) = PyStr.join ds /\
  Forall (fun ch => PyStr.is_digit ch = true) ds /\
  omap PyStr.digit_of ds = omap PyStr.digit_of l.
Proof.
  cbv zeta. induction l as [|ch l IH]; [simpl; auto|].
  intros H. simpl in H. apply andb_true_iff in H as [Hch Hl].
  destruct (IH Hl) as (Hr & Hf & Ho). clear IH.
  change (PyStr.join (ch :: l)) with (String.append ch (PyStr.join l)).
  rewrite replace_append, Hr. cbn [List.filter omap list_omap].
  destruct (PyStr.is_digit ch) eqn:Hd.
  - pose proof Hd as Hd'. apply is_digit_point in Hd' as (n & d & Hp & _ & Hdo).
    rewrite replace_whole.
    + rewrite Hdo. cbn [omap list_omap]. rewrite Hdo, Ho. auto.
    + reflexivity.
    + apply digit_whole, Hd.
    + apply digit_not_ascii; [exact Hd | reflexivity | reflexivity].
    + rewrite Hp. discriminate.
  - simpl in Hch. apply String.eqb_eq in Hch. subst ch.
    assert (Hn : PyStr.digit_of "," = None).
    { unfold PyStr.is_digit in Hd. destruct (PyStr.digit_of ","); [discriminate|].
      reflexivity. }
    rewrite Hn. auto.
Qed.

(** [int_digits] on digits alone reads them all. *)
Lemma int_digits_all (l : list string) : forall acc n b,
  Forall (fun ch => PyStr.is_digit ch = true) l -> (l = [] -> b = true) ->
  PyStr.int_digits l acc n b =
  Some (fold_left (fun x d => 10 * x + d) (omap PyStr.digit_of l) acc,
        n + Z.of_nat (length (omap PyStr.digit_of l))).
Proof.
  induction l as [|ch l IH]; intros acc n b H Hb.
  - simpl. rewrite (Hb eq_refl). f_equal. f_equal. lia.
  - inversion H as [|? ? Hch Hl]; subst.
    pose proof (digit_not_ascii ch "_" Hch ltac:(reflexivity) ltac:(reflexivity))
      as Hu.
    apply String.eqb_neq in Hu.
    apply is_digit_point in Hch as (m & d & _ & _ & Hd).
    cbn [PyStr.int_digits omap list_omap]. rewrite Hu, Hd.
    rewrite IH by auto. cbn [omap list_omap fold_left length].
    f_equal. f_equal. lia.
Qed.

Lemma int_all_digits (l : list string) :
  Forall (fun ch => PyStr.is_digit ch = true) l -> l <> [] ->
  PyStr.int (PyStr.join l) =
  if Z.of_nat (length (omap PyStr.digit_of l)) <=? PyStr.max_str_digits
  then Some (decimal (omap PyStr.digit_of l)) else None.
Proof.
  intros H Hne. unfold PyStr.int.
  rewrite chars_join
    by (eapply Forall_impl; [exact H|]; intros ch; apply digit_whole).
  rewrite strip_chars_id
    by (eapply Forall_impl; [exact H|]; intros ch Hd; apply digit_not_space, Hd).
  destruct l as [|ch l]; [contradiction|].
  inversion H as [|? ? Hch Hl]; subst.
  pose proof (digit_not_ascii ch "+" Hch ltac:(reflexivity) ltac:(reflexivity))
    as Hp.
  pose proof (digit_not_ascii ch "-" Hch ltac:(reflexivity) ltac:(reflexivity))
    as Hm.
  apply String.eqb_neq in Hp, Hm. rewrite Hp, Hm.
  unfold PyStr.int_signed. rewrite int_digits_all by (auto; discriminate).
  rewrite Z.add_0_l.
  destruct (_ <=? PyStr.max_str_digits); [|reflexivity].
  unfold decimal. f_equal. lia.
Qed.

(** The normalization of a label of digits and commas: the number its digits
    denote, unless it has no digit or more digits than [int] reads. *)
Lemma normalize_title_grouped label :
  grouped_by "," label = true ->
  normalize_title label =
  match digits_of label with
  | [] => None
  | ds => if Z.of_nat (length ds) <=? PyStr.max_str_digits
          then Some (decimal ds) else None
  end.
Proof.
  unfold grouped_by, digits_of. intros G.
  destruct (replace_grouped _ G) as (Hr & Hf & Ho).
  unfold normalize_title. rewrite <- (join_chars label) at 1.
  rewrite Hr. unfold PyStr.strip.
  rewrite chars_join
    by (eapply Forall_impl; [exact Hf|]; intros ch; apply digit_whole).
  rewrite strip_chars_id
    by (eapply Forall_impl; [exact Hf|]; intros ch Hd; apply digit_not_space, Hd).
  rewrite <- Ho.
  destruct (List.filter PyStr.is_digit (PyStr.chars label)) as [|ch ds] eqn:E;
    [reflexivity|].
  rewrite int_all_digits by (auto; discriminate).
  inversion Hf as [|? ? Hch _]; subst.
  apply is_digit_point in Hch as (n & d & _ & _ & Hd).
  cbn [omap list_omap]. rewrite Hd. reflexivity.
Qed.

Lemma digit_of_ascii c :
  (48 <=? PyStr.code c) && (PyStr.code c <=? 57) = true ->
  PyStr.digit_of (String c EmptyString) = Some (PyStr.code c - 48).
Proof.
  intros H. unfold PyStr.digit_of, PyStr.point.
  replace (PyStr.code c <? 128) with true by lia.
  rewrite PyStr.to_decimal_ascii by lia. rewrite H. reflexivity.
Qed.

Lemma normalize_title_example : normalize_title "78,000" = Some 78000.
Proof.
  assert (H7 : PyStr.digit_of "7" = Some 7) by exact (digit_of_ascii "7" eq_refl).
  assert (H8 : PyStr.digit_of "8" = Some 8) by exact (digit_of_ascii "8" eq_refl).
  assert (H0 : PyStr.digit_of "0" = Some 0) by exact (digit_of_ascii "0" eq_refl).
  assert (Hc : PyStr.digit_of "," = None).
  { change (PyStr.digit_of ",") with (PyStr.to_decimal 44).
    rewrite PyStr.to_decimal_ascii by lia. reflexivity. }
  rewrite normalize_title_grouped.
  - unfold digits_of.
    change (PyStr.chars "78,000") with ["7"; "8"; ","; "0"; "0"; "0"].
    cbn [omap list_omap]. rewrite H7, H8, H0, Hc. reflexivity.
  - unfold grouped_by.
    change (PyStr.chars "78,000") with ["7"; "8"; ","; "0"; "0"; "0"].
    cbn [forallb]. unfold PyStr.is_digit. rewrite H7, H8, H0, Hc. reflexivity.
Qed.

(** The market a loop stops at carries the strike as its label. *)
Lemma find_market_sound markets strike m :
  find_market markets strike = Ok (Some m) ->
  exists pre post, markets = (pre ++ m :: post)%list /\ label_of m = Some strike /\
    Forall (fun m' => is_dict m' = true /\ label_of m' <> Some strike) pre.
Proof.
  induction markets as [|m0 ms IH]; [discriminate|].
  simpl. unfold label_of at 1.
  destruct (py_get m0 "groupItemTitle") as [t|e] eqn:G; [|discriminate].
  assert (Hd : is_dict m0 = true) by (destruct m0; try discriminate G; reflexivity).
  simpl.
  assert (Hl : label_of m0 = normalize_title (py_str (py_or t (JStr "")))).
  { unfold label_of. rewrite G. reflexivity. }
  destruct (normalize_title (py_str (py_or t (JStr "")))) as [v|] eqn:N.
  - destruct (Z.eqb_spec v strike) as [->|Hne].
    + intros [= <-]. exists [], ms. repeat split; auto.
    + intros H. destruct (IH H) as (pre & post & -> & Hm & Hpre).
      exists (m0 :: pre), post. repeat split; auto.
      constructor; auto. split; [exact Hd|]. rewrite Hl. congruence.
  - intros H. destruct (IH H) as (pre & post & -> & Hm & Hpre).
    exists (m0 :: pre), post. repeat split; auto.
    constructor; auto. split; [exact Hd|]. rewrite Hl. discriminate.
Qed.



(** ** Choosing the instrument *)


Lemma Forall_label_weaken k (ms : list json) :
  Forall (fun m' => is_dict m' = true /\ label_of m' <> Some k) ms ->
  Forall (fun m' => label_of m' <> Some k) ms.
Proof. induction 1 as [|m' ms' [_ H] _ IH]; constructor; assumption. Qed.

Lemma Forall_label_dict k (ms : list json) :
  Forall (fun m => is_dict m = true) ms ->
  Forall (fun m' => label_of m' <> Some k) ms ->
  Forall (fun m' => is_dict m' = true /\ label_of m' <> Some k) ms.
Proof.
  intros Hd. induction Hd as [|m ms Hm _ IH]; intros Hl; [constructor|].
  inversion Hl; subst. constructor; auto.
Qed.

(** What [pick_token_id_for_outcome] computes on an event that is a dict. *)
Lemma pick_token_id_run event outcome_str :
  is_dict event = true ->
  pick_token_id_for_outcome event outcome_str =
  match markets_of event with
  | [] => Ok None
  | markets =>
      let parts := PyStr.split (PyStr.strip outcome_str) in
      chosen_market <~ match parse_strike parts with
                       | Some k => find_market markets k
                       | None => Ok None
                       end ;;
      match chosen_market with
      | None => Ok None
      | Some m =>
          raw <~ py_get m "clobTokenIds" ;;
          Ok (match token_pair m with
              | Some (id0, id1) =>
                  Some (py_str (if parse_side_yes parts then id0 else id1))
              | None => None
              end)
      end
  end.
Proof.
  intros Hd. unfold pick_token_id_for_outcome, markets_of.
  destruct event; try discriminate Hd. simpl.
  destruct (py_or (dict_get kv "markets") (JList [])); try reflexivity.
  destruct l as [|m0 ms]; [reflexivity|]. cbv zeta.
  destruct (match parse_strike _ with Some k => _ | None => _ end)
    as [[m|]|e]; try reflexivity.
  simpl. unfold token_pair.
  destruct (py_get m "clobTokenIds") as [raw|e]; [|reflexivity]. simpl.
  destruct (truthy raw); [|reflexivity]. simpl.
  destruct (py_json_loads raw) as [v|e]; [|reflexivity].
  destruct v as [| | | | |[|id0 [|id1 r]]|]; reflexivity.
Qed.

Lemma pick_token_id_some event outcome_str tok :
  pick_token_id_for_outcome event outcome_str = Ok (Some tok) ->
  exists k pre m post id0 id1,
    parse_strike (PyStr.split (PyStr.strip outcome_str)) = Some k /\
    markets_of event = (pre ++ m :: post)%list /\
    Forall (fun m' => label_of m' <> Some k) pre /\
    label_of m = Some k /\
    token_pair m = Some (id0, id1) /\
    tok = py_str (if parse_side_yes (PyStr.split (PyStr.strip outcome_str))
                  then id0 else id1).
Proof.
  intros H.
  assert (Hd : is_dict event = true).
  { destruct event; try discriminate H. reflexivity. }
  rewrite (pick_token_id_run _ _ Hd) in H.
  destruct (markets_of event) as [|m0 ms] eqn:E; [discriminate|].
  cbv zeta in H.
  destruct (parse_strike _) as [k|] eqn:P; [|discriminate].
  destruct (find_market (m0 :: ms) k) as [[m|]|e] eqn:F; try discriminate.
  apply find_market_sound in F as (pre & post & Hms & Hm & Hpre).
  simpl in H. destruct (py_get m "clobTokenIds"); [|discriminate]. simpl in H.
  destruct (token_pair m) as [[id0 id1]|] eqn:T; [|discriminate].
  injection H as <-.
  exists k, pre, m, post, id0, id1.
  repeat split; auto using Forall_label_weaken.
Qed.




(** ** Invariants of monadic code *)

Lemma preserves_ret {A} I (x : A) : preserves I (ret x).
Proof. intros st H. exact H. Qed.

Lemma preserves_raise {A} I e : preserves I (@raise W A e).
Proof. intros st H. exact H. Qed.

Lemma preserves_lift {A} I (r : res A) : preserves I (lift r).
Proof. intros st H. exact H. Qed.

Lemma preserves_get_state I : preserves I get_state.
Proof. intros st H. exact H. Qed.

Lemma preserves_bind {A B} I (m : M W A) (k : A -> M W B) :
  preserves I m -> (forall x, preserves I (k x)) -> preserves I (bind m k).
Proof.
  intros Hm Hk st H. unfold bind. specialize (Hm st H).
  destruct (m st) as [[x|e] st1]; simpl in *; [apply Hk|]; exact Hm.
Qed.

Lemma preserves_try_except {A} I (m : M W A) (h : exn -> M W A) :
  preserves I m -> (forall e, preserves I (h e)) -> preserves I (try_except m h).
Proof.
  intros Hm Hh st H. unfold try_except. specialize (Hm st H).
  destruct (m st) as [[x|e] st1]; simpl in *; [|apply Hh]; exact Hm.
Qed.

Lemma preserves_for_each {A} I (l : list A) (body : A -> M W unit) :
  (forall x, In x l -> preserves I (body x)) -> preserves I (for_each l body).
Proof.
  induction l as [|x l IH]; intros Hb; simpl.
  - apply preserves_ret.
  - apply preserves_bind; [apply Hb; left; reflexivity|].
    intros _. apply IH. intros y Hy. apply Hb. right. exact Hy.
Qed.

Lemma preserves_call {A} P f g (fn : W -> res A * W) :
  preserves (@inv W P f g) (call fn).
Proof.
  intros st H. unfold call. destruct (fn (world st)). exact H.
Qed.

Lemma preserves_print P f g l :
  g l = false -> preserves (@inv W P f g) (@print W l).
Proof.
  intros Hg st H. unfold inv, print. simpl.
  rewrite List.filter_app. simpl. rewrite Hg, app_nil_r. exact H.
Qed.

Lemma preserves_send P f g chat text :
  f (chat, text) = false ->
  preserves (@inv W P f g) (@send_message W Net chat text).
Proof.
  intros Hf st H. unfold inv, send_message.
  destruct (telegram_send chat text (world st)). simpl.
  rewrite List.filter_app. simpl. rewrite Hf, app_nil_r. exact H.
Qed.

Lemma filter_all {A} (l : list A) : List.filter (fun _ => true) l = l.
Proof. induction l as [|x l IH]; simpl; [|rewrite IH]; reflexivity. Qed.

Ltac pres_step :=
  lazymatch goal with
  | |- preserves _ (bind _ _) => apply preserves_bind; [|intros ?]
  | |- preserves _ (ret _) => apply preserves_ret
  | |- preserves _ (raise _) => apply preserves_raise
  | |- preserves _ (lift _) => apply preserves_lift
  | |- preserves _ get_state => apply preserves_get_state
  | |- preserves _ (call _) => apply preserves_call
  | |- preserves _ (try_except _ _) => apply preserves_try_except; [|intros ?]
  | |- preserves _ (if ?b then _ else _) => destruct b
  | |- preserves _ (match ?x with _ => _ end) => destruct x
  end.

Ltac pres := repeat pres_step.

Lemma fetch_event_by_slug_inv P f g slug :
  preserves (@inv W P f g) (fetch_event_by_slug slug).
Proof. unfold fetch_event_by_slug. pres. Qed.

Lemma fetch_token_price_inv P f g token_id side :
  preserves (@inv W P f g) (fetch_token_price token_id side).
Proof. unfold fetch_token_price. pres. Qed.

Lemma strike_exists_in_event_inv P f g market_url strike :
  preserves (@inv W P f g) (strike_exists_in_event market_url strike).
Proof.
  unfold strike_exists_in_event. pres; apply fetch_event_by_slug_inv.
Qed.

(** The endpoints apart, a call of [strike_exists_in_event] leaves the state
    as it found it. *)
Lemma strike_exists_in_event_frame market_url strike st :
  let st' := (strike_exists_in_event market_url strike st).2 in
  alerts st' = alerts st /\ user_add_state st' = user_add_state st /\
  outbox st' = outbox st /\ stdout st' = stdout st.
Proof.
  pose proof (strike_exists_in_event_inv
           (fun t u o s => t = alerts st /\ u = user_add_state st /\
                           o = outbox st /\ s = stdout st)
           (fun _ => true) (fun _ => true) market_url strike st) as H.
  unfold inv in H. rewrite !filter_all in H. apply H. auto.
Qed.

(** ** Resolving an event *)

Lemma strike_exists_in_event_true market_url strike st st' :
  strike_exists_in_event market_url strike st = (Ok true, st') ->
  exists slug event st1 m,
    extract_event_slug market_url = Some slug /\
    fetch_event_by_slug slug st = (Ok event, st1) /\
    In m (markets_of event) /\ label_of m = Some strike.
Proof.
  unfold strike_exists_in_event, bind, lift, ret.
  destruct (extract_event_slug market_url) as [slug|]; cbn; [|discriminate].
  destruct (String.eqb slug ""); [discriminate|].
  destruct (fetch_event_by_slug slug st) as [[event|e] st1] eqn:F;
    [|discriminate].
  destruct (truthy event); cbn; [|discriminate].
  destruct (py_get event "markets") as [mk|e] eqn:G; [|discriminate].
  destruct (py_or mk (JList [])) as [| | | | |ms|] eqn:O; try discriminate.
  destruct (find_market ms strike) as [[m|]|e] eqn:FM; try discriminate.
  intros _. apply find_market_sound in FM as (pre & post & -> & Hm & _).
  exists slug, event, st1, m. repeat split; auto.
  unfold markets_of. rewrite G, O. apply in_or_app. right. left. reflexivity.
Qed.

(** C7 (as amended). A label of decimal digits, of any script, grouped by
    commas normalizes to the number its digits denote ([78,000] to 78000)
    when it has at most 4300 digits, and to nothing when it has more; and
    whenever [strike_exists_in_event] answers [true] or
    [pick_token_id_for_outcome] returns an instrument, some market of the
    event has a label that normalizes to the requested integer, so a label
    that is no integer after the commas are removed matches no strike. *)
Theorem strike_label_normalization :
  (forall label,
     grouped_by "," label = true -> digits_of label <> [] ->
     (Z.of_nat (length (digits_of label)) <= PyStr.max_str_digits ->
      normalize_title label = Some (decimal (digits_of label))) /\
     (PyStr.max_str_digits < Z.of_nat (length (digits_of label)) ->
      normalize_title label = None)) /\
  normalize_title "78,000" = Some 78000 /\
  (forall market_url strike st st',
     strike_exists_in_event market_url strike st = (Ok true, st') ->
     exists slug event st1 m,
       extract_event_slug market_url = Some slug /\
       fetch_event_by_slug slug st = (Ok event, st1) /\
       In m (markets_of event) /\ label_of m = Some strike) /\
  (forall event outcome_str tok,
     pick_token_id_for_outcome event outcome_str = Ok (Some tok) ->
     exists k m,
       parse_strike (PyStr.split (PyStr.strip outcome_str)) = Some k /\
       In m (markets_of event) /\ label_of m = Some k).
Proof.
  split.
  { intros label G Hne. rewrite (normalize_title_grouped label G).
    destruct (digits_of label) as [|d ds]; [contradiction|].
    cbv beta iota zeta. split; intros H.
    - apply Z.leb_le in H. rewrite H. reflexivity.
    - apply Z.leb_gt in H. rewrite H. reflexivity. }
  split; [exact normalize_title_example|].
  split; [exact strike_exists_in_event_true|].
  intros event outcome_str tok H.
  apply pick_token_id_some in H
    as (k & pre & m & post & id0 & id1 & Hk & Hms & _ & Hm & _).
  exists k, m. rewrite Hms. repeat split; auto.
  apply in_or_app. right. left. reflexivity.
Qed.

Lemma fetch_event_by_slug_run slug st :
  fetch_event_by_slug slug st =
  let '(r, w) := gamma_events slug (world st) in
  let st' := {| alerts := alerts st; user_add_state := user_add_state st;
                world := w; outbox := outbox st; stdout := stdout st |} in
  match r with
  | Raise e => (Raise e, st')
  | Ok resp =>
      match raise_for_status resp with
      | Raise e => (Raise e, st')
      | Ok _ =>
          match json_body resp with
          | Raise e => (Raise e, st')
          | Ok data =>
              if truthy (events_of data) then (py_item0 (events_of data), st')
              else (Ok JNull, st')
          end
      end
  end.
Proof.
  unfold fetch_event_by_slug, bind, call, lift, ret.
  destruct (gamma_events slug (world st)) as [[resp|e] w]; [|reflexivity].
  destruct (raise_for_status resp); [|reflexivity].
  destruct (json_body resp) as [data|e]; [|reflexivity].
  destruct (truthy (events_of data)); reflexivity.
Qed.

(** C6 (as amended). [fetch_event_by_slug] makes one request.  When the
    request itself fails, the exception reaches the caller; so does
    [HTTPStatusError] when the status is not 2xx, and the exception of a body
    that is no JSON.  On a 2xx answer whose events are empty it returns
    [None]; otherwise it returns the first event.  Table, dialogue map,
    outbox and log are left as they were. *)
Theorem fetch_event_by_slug_outcomes slug st :
  let out := fetch_event_by_slug slug st in
  match gamma_events slug (world st) with
  | (Raise e, _) => out.1 = Raise e
  | (Ok resp, _) =>
      if (200 <=? status_code resp) && (status_code resp <=? 299) then
        match json_body resp with
        | Raise e => out.1 = Raise e
        | Ok data =>
            (truthy (events_of data) = false -> out.1 = Ok JNull) /\
            (truthy (events_of data) = true ->
             out.1 = py_item0 (events_of data))
        end
      else out.1 = Raise HTTPStatusError
  end /\
  alerts out.2 = alerts st /\ user_add_state out.2 = user_add_state st /\
  outbox out.2 = outbox st /\ stdout out.2 = stdout st.
Proof.
  cbv zeta. rewrite fetch_event_by_slug_run. unfold raise_for_status.
  destruct (gamma_events slug (world st)) as [[resp|e] w]; [|simpl; auto].
  destruct ((200 <=? status_code resp) && (status_code resp <=? 299));
    [|simpl; auto].
  destruct (json_body resp) as [data|e]; [|simpl; auto].
  destruct (truthy (events_of data)); simpl; repeat split; auto; discriminate.
Qed.

(** ** One alert of a cycle *)

Lemma should_trigger_crossed (dir : string) (cents target : float) :
  should_trigger dir cents target = true <-> crossed dir cents target.
Proof.
  unfold should_trigger, crossed.
  destruct (String.eqb_spec dir ">=") as [Hge|Hge];
  destruct (String.eqb_spec dir "<=") as [Hle|Hle];
  destruct (target <=? cents)%float;
  destruct (cents <=? target)%float; simpl;
  intuition (try discriminate; try congruence).
Qed.

Lemma alert_decide_run alert_id uid url out target dir price st :
  let cents := (price * 100)%float in
  let text := TTriggered alert_id url out target cents in
  alert_decide alert_id uid url out target dir price st =
  if should_trigger dir cents target then
    let '(r, w) := telegram_send uid text (world st) in
    (if bindable (alerts st) alert_id then Ok tt else Raise OverflowError,
     {| alerts := (deactivate_row (alerts st) uid alert_id).1;
        user_add_state := user_add_state st; world := w;
        outbox := outbox st ++ [(uid, text)];
        stdout := match r with
                  | Ok _ => stdout st ++ [LPrice alert_id cents target dir]
                  | Raise e => (stdout st ++ [LPrice alert_id cents target dir])
                               ++ [LSendError uid e]
                  end |})
  else
    (Ok tt,
     {| alerts := alerts st; user_add_state := user_add_state st;
        world := world st; outbox := outbox st;
        stdout := stdout st ++ [LPrice alert_id cents target dir] |}).
Proof.
  cbv zeta. unfold alert_decide, bind, print, try_except, send_message, ret.
  destruct (should_trigger dir (price * 100) target); [|reflexivity].
  cbn [world alerts outbox stdout user_add_state].
  destruct (telegram_send _ _ (world st)) as [[[]|e] w];
    cbn [world alerts outbox stdout user_add_state];
    rewrite deactivate_alert_run;
    cbn [world alerts outbox stdout user_add_state];
    destruct (bindable (alerts st) alert_id); reflexivity.
Qed.

Lemma alert_price_inv P f g url out :
  quiet g -> preserves (@inv W P f g) (alert_price url out).
Proof.
  intros Hq. unfold alert_price.
  pres; try apply fetch_event_by_slug_inv; try apply fetch_token_price_inv;
    apply preserves_print;
    first [ exact (Hq (LNoSlug _)) | exact (Hq (LNoEvent _))
          | exact (Hq (LNoToken _)) | exact (Hq (LNoPrice _)) ].
Qed.

(** Finding the price of an alert changes neither the table, nor the dialogue
    map, nor the outbox. *)
Lemma alert_price_frame url out st :
  let st' := (alert_price url out st).2 in
  alerts st' = alerts st /\ user_add_state st' = user_add_state st /\
  outbox st' = outbox st.
Proof.
  pose proof (alert_price_inv
           (fun t u o s => t = alerts st /\ u = user_add_state st /\
                           o = outbox st)
           (fun _ => true) (fun _ => false) url out) as H.
  specialize (H ltac:(intros []; exact I || reflexivity) st).
  unfold inv in H. rewrite !filter_all in H. apply H. auto.
Qed.

Lemma alert_step_run alert_id uid url out target dir st :
  alert_step (alert_id, uid, url, out, target, dir) st =
  match alert_price url out st with
  | (Raise e, st1) => print (LAlertError alert_id e) st1
  | (Ok None, st1) => (Ok tt, st1)
  | (Ok (Some price), st1) =>
      match alert_decide alert_id uid url out target dir price st1 with
      | (Raise e, st2) => print (LAlertError alert_id e) st2
      | r => r
      end
  end.
Proof.
  unfold alert_step, try_except, alert_body, bind.
  destruct (alert_price url out st) as [[[price|]|e] st1]; reflexivity.
Qed.

(** The table and the outbox an iteration leaves once the price is known,
    whether or not the deactivation was refused. *)
Lemma alert_step_priced alert_id uid url out target dir price st st1 :
  alert_price url out st = (Ok (Some price), st1) ->
  let st' := exec (alert_step (alert_id, uid, url, out, target, dir)) st in
  let cents := (price * 100)%float in
  (alert_step (alert_id, uid, url, out, target, dir) st).1 = Ok tt /\
  user_add_state st' = user_add_state st1 /\
  if should_trigger dir cents target then
    alerts st' = (deactivate_row (alerts st1) uid alert_id).1 /\
    outbox st' =
      (outbox st1 ++ [(uid, TTriggered alert_id url out target cents)])%list
  else alerts st' = alerts st1 /\ outbox st' = outbox st1.
Proof.
  intros Hp. cbv zeta. unfold exec. rewrite alert_step_run, Hp.
  rewrite alert_decide_run. cbv zeta.
  destruct (should_trigger dir (price * 100) target); [|simpl; auto].
  destruct (telegram_send _ _ (world st1)) as [r w].
  destruct (bindable (alerts st1) alert_id); simpl; auto.
Qed.

(** C1. For an alert whose price the worker has fetched, with the current
    cents the price times 100: the condition computed is [>=] with the cents
    at least the target, or [<=] with the cents at most the target; when it
    holds the iteration hands one notification for the owner to Telegram and
    applies the deactivation to the table; when it does not hold the
    iteration sends nothing and leaves the table as it was. *)
Theorem alert_trigger_condition alert_id uid url out target dir price st st1 :
  alert_price url out st = (Ok (Some price), st1) ->
  let cents := (price * 100)%float in
  let st' := exec (alert_step (alert_id, uid, url, out, target, dir)) st in
  (should_trigger dir cents target = true <-> crossed dir cents target) /\
  (crossed dir cents target ->
   outbox st' =
     (outbox st ++ [(uid, TTriggered alert_id url out target cents)])%list /\
   alerts st' = (deactivate_row (alerts st) uid alert_id).1) /\
  (~ crossed dir cents target ->
   outbox st' = outbox st /\ alerts st' = alerts st).
Proof.
  intros Hp. cbv zeta.
  destruct (alert_price_frame url out st) as (Ha & _ & Ho).
  rewrite Hp in Ha, Ho. simpl in Ha, Ho.
  pose proof (alert_step_priced alert_id uid url out target dir price st st1 Hp)
    as (_ & _ & H).
  cbv zeta in H. rewrite Ha, Ho in H.
  split; [apply should_trigger_crossed|].
  destruct (should_trigger dir (price * 100) target) eqn:T.
  - split; [intros _; tauto|].
    intros Hn. apply should_trigger_crossed in T. contradiction.
  - split; [|intros _; tauto].
    intros Hc. apply should_trigger_crossed in Hc. congruence.
Qed.

(** ** The loop of a cycle *)

Lemma alert_step_ok al st :
  (alert_step al st).1 = Ok tt.
Proof.
  destruct al as [[[[[alert_id uid] url] out] target] dir].
  rewrite alert_step_run.
  destruct (alert_price url out st) as [[[price|]|e] st1]; try reflexivity.
  destruct (alert_decide _ _ _ _ _ _ _ st1) as [[[]|e] st2]; reflexivity.
Qed.

Lemma for_each_cons {A} (x : A) (l : list A) (body : A -> M W unit) st :
  (body x st).1 = Ok tt ->
  for_each (x :: l) body st = for_each l body (exec (body x) st).
Proof.
  simpl. unfold bind, exec. destruct (body x st) as [[[]|e] st1]; simpl;
    [reflexivity | discriminate].
Qed.


Lemma for_each_app {A} (l1 l2 : list A) (body : A -> M W unit) st :
  (forall x s, (body x s).1 = Ok tt) ->
  for_each (l1 ++ l2) body st = for_each l2 body (exec (for_each l1 body) st).
Proof.
  intros Hb. revert st. induction l1 as [|x l1 IH]; intros st; [reflexivity|].
  rewrite <- app_comm_cons. unfold exec in *.
  rewrite !for_each_cons by apply Hb. apply IH.
Qed.

Lemma alerts_worker_cycle_run st :
  alerts_worker_cycle st =
  for_each (select_all_active (alerts st)) alert_step
    (exec (print (LActive (length (select_all_active (alerts st))))) st).
Proof. reflexivity. Qed.



(** ** The table under the program's updates *)

Lemma deactivate_row_lookup t uid alert_id j :
  (deactivate_row t uid alert_id).1 !! j =
  match t !! j with
  | Some a => Some (if (j =? alert_id) && (user_id a =? uid) && active a
                    then set_inactive a else a)
  | None => None
  end.
Proof.
  unfold deactivate_row. destruct (Z.eqb_spec j alert_id) as [->|Hne].
  - destruct (t !! alert_id) as [a|] eqn:E; simpl; [|rewrite E; reflexivity].
    destruct ((user_id a =? uid) && active a); simpl.
    + apply lookup_insert_eq.
    + rewrite E. reflexivity.
  - simpl. destruct (t !! alert_id) as [a|] eqn:E; simpl.
    + destruct ((user_id a =? uid) && active a); simpl;
        [rewrite lookup_insert_ne by congruence|]; destruct (t !! j); reflexivity.
    + destruct (t !! j); reflexivity.
Qed.

Lemma deactivate_row_inactive t uid alert_id j :
  (exists a, t !! j = Some a /\ active a = false) ->
  exists a, (deactivate_row t uid alert_id).1 !! j = Some a /\ active a = false.
Proof.
  intros (a & Ha & Hact). rewrite deactivate_row_lookup, Ha.
  eexists. split; [reflexivity|].
  destruct ((j =? alert_id) && (user_id a =? uid) && active a); auto.
Qed.

Lemma deactivate_row_owner t uid alert_id j v :
  (exists a, t !! j = Some a /\ user_id a = v) ->
  exists a, (deactivate_row t uid alert_id).1 !! j = Some a /\ user_id a = v.
Proof.
  intros (a & Ha & Hu). rewrite deactivate_row_lookup, Ha.
  eexists. split; [reflexivity|].
  destruct ((j =? alert_id) && (user_id a =? uid) && active a); auto.
Qed.

(** Deactivating the owner's alert leaves it in the table, inactive. *)
Lemma deactivate_row_own t uid alert_id :
  (exists a, t !! alert_id = Some a /\ user_id a = uid) ->
  exists a, (deactivate_row t uid alert_id).1 !! alert_id = Some a /\
            active a = false.
Proof.
  intros (a & Ha & Hu).
  rewrite deactivate_row_lookup, Ha, Z.eqb_refl, Hu, Z.eqb_refl. simpl.
  eexists. split; [reflexivity|].
  destruct (active a) eqn:E; [reflexivity | exact E].
Qed.

Lemma max_id_ge t j a : t !! j = Some a -> j <= max_id t.
Proof.
  intros H. apply elem_of_map_to_list in H. unfold max_id.
  induction (map_to_list t) as [|kv l IH]; [inversion H|].
  simpl. apply elem_of_cons in H as [<- | H]; simpl; [lia|].
  specialize (IH H). lia.
Qed.

(** A new alert takes a key that no row has. *)
Lemma insert_alert_fresh t : t !! (max_id t + 1) = None.
Proof.
  destruct (t !! (max_id t + 1)) as [a|] eqn:E; [|reflexivity].
  apply max_id_ge in E. lia.
Qed.

Lemma insert_alert_old t uid url out target j a :
  t !! j = Some a -> insert_alert t uid url out target !! j = Some a.
Proof.
  intros H. unfold insert_alert. rewrite lookup_insert_ne; [exact H|].
  apply max_id_ge in H. lia.
Qed.

(** A row of the snapshot is an active row of the table, with its owner. *)
Lemma select_all_active_in t alert_id uid url out target dir :
  In (alert_id, uid, url, out, target, dir) (select_all_active t) ->
  exists a, t !! alert_id = Some a /\ user_id a = uid /\ active a = true /\
            market_url a = url /\ outcome a = out /\ target_price a = target /\
            direction a = dir.
Proof.
  unfold select_all_active. intros H. apply in_map_iff in H.
  destruct H as ([j a] & Heq & Hin). simpl in Heq.
  injection Heq as -> <- <- <- <- <-.
  apply filter_In in Hin as [Hin Hact]. simpl in Hact.
  exists a. repeat split; auto.
  apply elem_of_map_to_list. apply list_elem_of_In in Hin.
  unfold rows_by_id in Hin. rewrite merge_sort_Permutation in Hin. exact Hin.
Qed.

Lemma deactivate_alert_inv P f g uid alert_id :
  (forall t u o s, P t u o s -> P (deactivate_row t uid alert_id).1 u o s) ->
  preserves (@inv W P f g) (deactivate_alert uid alert_id).
Proof.
  intros HP st H. rewrite deactivate_alert_run. apply HP. exact H.
Qed.

Lemma add_alert_inv P f g uid url out target :
  (forall t u o s, P t u o s -> P (insert_alert t uid url out target) u o s) ->
  preserves (@inv W P f g) (add_alert uid url out target).
Proof.
  intros HP st H. unfold add_alert.
  destruct (PrimFloat.is_nan target); [exact H|]. apply HP. exact H.
Qed.

Lemma set_user_add_state_inv P f g m :
  (forall t u o s, P t u o s -> P t m o s) ->
  preserves (@inv W P f g) (@set_user_add_state W m).
Proof. intros HP st H. eapply HP. exact H. Qed.

Lemma update_add_state_inv P f g uid s0 :
  (forall t u u' o s, P t u o s -> P t u' o s) ->
  preserves (@inv W P f g) (@update_add_state W uid s0).
Proof. intros HP st H. eapply HP. exact H. Qed.

Lemma alert_decide_inv P f g alert_id uid url out target dir price :
  quiet g ->
  g (LPrice alert_id (price * 100) target dir) = false ->
  f (uid, TTriggered alert_id url out target (price * 100)%float) = false ->
  (forall t u o s, P t u o s -> P (deactivate_row t uid alert_id).1 u o s) ->
  preserves (@inv W P f g) (alert_decide alert_id uid url out target dir price).
Proof.
  intros Hq Hg Hf HP. unfold alert_decide.
  pres; try (apply preserves_print; first [exact Hg | exact (Hq (LSendError _ _))]).
  - apply preserves_send. exact Hf.
  - apply deactivate_alert_inv. exact HP.
Qed.

Lemma alert_step_inv P f g alert_id uid url out target dir :
  quiet g ->
  (forall c, g (LPrice alert_id c target dir) = false) ->
  (forall c, f (uid, TTriggered alert_id url out target c) = false) ->
  (forall t u o s, P t u o s -> P (deactivate_row t uid alert_id).1 u o s) ->
  preserves (@inv W P f g) (alert_step (alert_id, uid, url, out, target, dir)).
Proof.
  intros Hq Hg Hf HP. unfold alert_step, alert_body.
  pres; try (apply preserves_print; exact (Hq (LAlertError _ _))).
  - apply alert_price_inv. exact Hq.
  - apply alert_decide_inv; auto.
Qed.

(** ** Cycles *)

Lemma quiet_none : quiet (fun _ => false).
Proof. intros []; exact I || reflexivity. Qed.

Lemma quiet_evaluates i : quiet (evaluates i).
Proof. intros []; exact I || reflexivity. Qed.

Lemma plain_notifies i : plain (notifies i).
Proof. intros chat []; exact I || reflexivity. Qed.

(** A property of the table that deactivations keep holds after any part of
    the loop. *)
Lemma worker_loop_table (Q : gmap Z alert -> Prop) l st :
  (forall t uid i, Q t -> Q (deactivate_row t uid i).1) ->
  Q (alerts st) -> Q (alerts (exec (for_each l alert_step) st)).
Proof.
  intros HQ H.
  apply (preserves_for_each
           (@inv W (fun t _ _ _ => Q t) (fun _ => false) (fun _ => false))
           l alert_step); [|exact H].
  intros [[[[[alert_id uid] url] out] target] dir] _.
  apply alert_step_inv; auto using quiet_none.
Qed.

Lemma run_cons u us st :
  run (u :: us) st = run us (exec (dispatch u) st).
Proof. reflexivity. Qed.

Section Terminal.

Variable alert_id : Z.
Variable O : list (Z * text_out).
Variable S' : list log_line.

Local Abbreviation retired := (@retired W alert_id O S').

Lemma retired_deactivate uid i :
  preserves retired (deactivate_alert uid i).
Proof.
  apply deactivate_alert_inv. intros t u o s (H & Ho & Hs).
  split; [apply deactivate_row_inactive; exact H | auto].
Qed.

Lemma retired_send chat text :
  match text with TTriggered _ _ _ _ _ => False | _ => True end ->
  preserves retired (send_message chat text).
Proof.
  intros H. apply preserves_send.
  pose proof (plain_notifies alert_id chat text) as Hp.
  destruct text; try exact Hp; contradiction.
Qed.

Lemma retired_update_add_state uid s0 :
  preserves retired (@update_add_state W uid s0).
Proof. apply update_add_state_inv. auto. Qed.

Lemma retired_cmd_start uid : preserves retired (cmd_start uid).
Proof. apply retired_send. exact I. Qed.

Lemma retired_cmd_list uid : preserves retired (cmd_list uid).
Proof.
  unfold cmd_list, get_user_alerts. pres; apply retired_send; exact I.
Qed.

Lemma retired_cmd_add uid : preserves retired (cmd_add uid).
Proof.
  unfold cmd_add. pres; [apply retired_update_add_state|].
  apply retired_send. exact I.
Qed.

Lemma retired_cmd_delete uid text : preserves retired (cmd_delete uid text).
Proof.
  unfold cmd_delete.
  pres; try (apply retired_send; exact I). apply retired_deactivate.
Qed.

Lemma retired_handle uid text :
  preserves retired (handle_add_flow_or_default uid text).
Proof.
  unfold handle_add_flow_or_default.
  pres; try (apply retired_send; exact I);
    try apply retired_update_add_state;
    try apply strike_exists_in_event_inv.
  - apply add_alert_inv. intros t u o s ((r0 & Ha & Hact) & Ho & Hs).
    split; [|auto]. exists r0.
    split; [apply insert_alert_old; exact Ha | exact Hact].
  - apply set_user_add_state_inv. auto.
Qed.

Lemma retired_snapshot st al :
  retired st -> In al (select_all_active (alerts st)) -> row_id al <> alert_id.
Proof.
  intros ((a & Ha & Hact) & _) Hin.
  destruct al as [[[[[i uid] url] out] target] dir]. simpl.
  apply select_all_active_in in Hin as (a0 & Ha0 & _ & Hact0 & _).
  intros ->. congruence.
Qed.

Lemma retired_cycle : preserves retired alerts_worker_cycle.
Proof.
  intros st H. rewrite alerts_worker_cycle_run.
  apply preserves_for_each.
  - intros al Hin. pose proof (retired_snapshot st al H Hin) as Hne.
    destruct al as [[[[[i uid] url] out] target] dir]. simpl in Hne.
    apply Z.eqb_neq in Hne.
    apply alert_step_inv; auto using quiet_evaluates.
    intros t u o s (Hi & Ho & Hs).
    split; [apply deactivate_row_inactive; exact Hi | auto].
  - apply (preserves_print _ _ _ (LActive _)); [reflexivity | exact H].
Qed.

Lemma retired_run us : forall st, retired st -> retired (run us st).
Proof.
  induction us as [|u us IH]; intros st H; [exact H|].
  rewrite run_cons. apply IH.
  destruct u; simpl.
  - apply retired_cmd_start, H.
  - apply retired_cmd_list, H.
  - apply retired_cmd_add, H.
  - apply retired_cmd_delete, H.
  - apply retired_handle, H.
  - apply retired_cycle, H.
Qed.

End Terminal.

(** C3. When the worker reaches an alert of its snapshot, fetches its price
    and the condition holds, the alert is inactive at the end of the cycle,
    whatever Telegram answered to the notification.  And an alert that is
    inactive stays so through anything the program does afterwards: it is in
    no later snapshot, no comparison of its price is printed and no
    notification about it is sent. *)
Theorem triggered_alert_retires :
  (forall st pre post alert_id uid url out target dir price st1,
     select_all_active (alerts st) =
       (pre ++ (alert_id, uid, url, out, target, dir) :: post)%list ->
     alert_price url out
       (exec (for_each pre alert_step)
          (exec (print (LActive (length (select_all_active (alerts st))))) st))
       = (Ok (Some price), st1) ->
     crossed dir (price * 100) target ->
     exists a, alerts (exec alerts_worker_cycle st) !! alert_id = Some a /\
               active a = false) /\
  (forall us st alert_id,
     (exists a, alerts st !! alert_id = Some a /\ active a = false) ->
     let st' := run us st in
     (exists a, alerts st' !! alert_id = Some a /\ active a = false) /\
     (forall al, In al (select_all_active (alerts st')) -> row_id al <> alert_id) /\
     List.filter (notifies alert_id) (outbox st') =
       List.filter (notifies alert_id) (outbox st) /\
     List.filter (evaluates alert_id) (stdout st') =
       List.filter (evaluates alert_id) (stdout st)).
Proof.
  split.
  - intros st pre post alert_id uid url out target dir price st1 Hsnap Hp Hc.
    unfold exec at 1. rewrite alerts_worker_cycle_run, Hsnap.
    rewrite for_each_app by apply alert_step_ok.
    rewrite for_each_cons by apply alert_step_ok.
    rewrite <- Hsnap.
    set (st0 := exec (for_each pre alert_step) _) in *.
    apply (worker_loop_table
             (fun t => exists a, t !! alert_id = Some a /\ active a = false)).
    { intros t u i. apply deactivate_row_inactive. }
    assert (Hown : exists a, alerts st0 !! alert_id = Some a /\ user_id a = uid).
    { apply (worker_loop_table
               (fun t => exists a, t !! alert_id = Some a /\ user_id a = uid)).
      - intros t u i. apply deactivate_row_owner.
      - assert (Hin : In (alert_id, uid, url, out, target, dir)
                         (select_all_active (alerts st))).
        { rewrite Hsnap. apply in_or_app. right. left. reflexivity. }
        apply select_all_active_in in Hin as (a & Ha & Hu & _). eauto. }
    destruct (alert_price_frame url out st0) as (Ha & _ & _).
    rewrite Hp in Ha. simpl in Ha.
    pose proof (alert_step_priced alert_id uid url out target dir price st0 st1
                  Hp) as (_ & _ & H).
    cbv zeta in H. apply should_trigger_crossed in Hc. rewrite Hc, Ha in H.
    destruct H as [-> _]. apply deactivate_row_own. exact Hown.
  - intros us st alert_id Hi. cbv zeta.
    pose proof (retired_run alert_id _ _ us st
                  (conj Hi (conj eq_refl eq_refl))) as H.
    pose proof H as ((a & Ha & Hact) & Ho & Hs).
    repeat split; auto.
    + eauto.
    + intros al. apply retired_snapshot with (1 := H).
Qed.

(** ** The price step of the dialogue *)

Lemma replace_comma_idem s :
  PyStr.replace "," "." (PyStr.replace "," "." s) = PyStr.replace "," "." s.
Proof.
  assert (Happ : forall x, String.append "." x = String "." x) by reflexivity.
  induction s as [|c s IH]; [reflexivity|]. cbn [PyStr.replace].
  destruct (Ascii.eqb c ",") eqn:E; rewrite ?Happ; cbn [PyStr.replace].
  - change (Ascii.eqb "." ",") with false. cbn iota. rewrite IH. reflexivity.
  - rewrite E, IH. reflexivity.
Qed.

Lemma send_message_frame chat text st :
  alerts (send_message chat text st).2 = alerts st /\
  user_add_state (send_message chat text st).2 = user_add_state st.
Proof.
  unfold send_message. destruct (telegram_send chat text (world st)).
  split; reflexivity.
Qed.

(** What the handler does for a user at step 3. *)
Lemma handle_price_run uid text st s :
  user_add_state st !! uid = Some s -> step s = 3 ->
  handle_add_flow_or_default uid text st =
  match text with
  | None => (Raise AttributeError, st)
  | Some txt =>
    match parse_price txt with
    | None => send_message uid TBadNumber st
    | Some price =>
      match st_market_url s, st_outcome s with
      | Some url, Some out =>
        match parse_strike (PyStr.split (PyStr.strip out)) with
        | None => send_message uid TNoStrike st
        | Some k =>
          match strike_exists_in_event url k st with
          | (Raise e, st1) => (Raise e, st1)
          | (Ok false, st1) => send_message uid TStrikeMissing st1
          | (Ok true, st1) =>
              if PrimFloat.is_nan price then (Raise IntegrityError, st1)
              else send_message uid (TAlertAdded url out price)
                     {| alerts := insert_alert (alerts st1) uid url out price;
                        user_add_state := delete uid (user_add_state st1);
                        world := world st1; outbox := outbox st1;
                        stdout := stdout st1 |}
          end
        end
      | _, _ => (Raise KeyError, st)
      end
    end
  end.
Proof.
  intros Hs H3. unfold handle_add_flow_or_default, bind, get_state.
  rewrite Hs, H3. cbn [Z.eqb Pos.eqb].
  destruct text as [txt|]; [|reflexivity]. cbn [text_of lift].
  destruct (parse_price txt) as [price|]; [|reflexivity].
  destruct (st_market_url s) as [url|]; [|reflexivity].
  destruct (st_outcome s) as [out|]; [|reflexivity]. cbn [field_of].
  destruct (parse_strike _) as [k|]; [|reflexivity].
  destruct (strike_exists_in_event url k st) as [[[|]|e] st1];
    try reflexivity.
  cbn [negb]. unfold add_alert.
  destruct (PrimFloat.is_nan price); reflexivity.
Qed.

Lemma parse_price_comma txt :
  parse_price (PyStr.replace "," "." txt) = parse_price txt.
Proof. unfold parse_price. rewrite replace_comma_idem. reflexivity. Qed.

(** At step 3 the handler either leaves the dialogue map and the table as they
    were, or everything succeeded and the alert is stored. *)
Lemma handle_price_cases uid text st s :
  user_add_state st !! uid = Some s -> step s = 3 ->
  let st' := exec (handle_add_flow_or_default uid text) st in
  (user_add_state st' = user_add_state st /\ alerts st' = alerts st) \/
  (exists txt price url out k st1,
     text = Some txt /\ parse_price txt = Some price /\
     PrimFloat.is_nan price = false /\
     st_market_url s = Some url /\ st_outcome s = Some out /\
     parse_strike (PyStr.split (PyStr.strip out)) = Some k /\
     strike_exists_in_event url k st = (Ok true, st1) /\
     alerts st' = insert_alert (alerts st) uid url out price /\
     user_add_state st' = delete uid (user_add_state st)).
Proof.
  intros Hs H3. cbv zeta. unfold exec.
  rewrite (handle_price_run uid text st s Hs H3).
  destruct text as [txt|]; [|auto].
  destruct (parse_price txt) as [price|] eqn:Hp;
    [|left; apply and_comm, send_message_frame].
  destruct (st_market_url s) as [url|] eqn:Hurl; [|auto].
  destruct (st_outcome s) as [out|] eqn:Ho; [|auto].
  destruct (parse_strike _) as [k|] eqn:Hk;
    [|left; apply and_comm, send_message_frame].
  pose proof (strike_exists_in_event_frame url k st) as Hf. cbv zeta in Hf.
  destruct (strike_exists_in_event url k st) as [[[|]|e] st1] eqn:Hr;
    simpl in Hf; destruct Hf as (Hfa & Hfu & _).
  - destruct (PrimFloat.is_nan price) eqn:Hnan; [left; simpl; auto|].
    right. exists txt, price, url, out, k, st1.
    match goal with
    | |- context [send_message ?c ?x ?s0] =>
        destruct (send_message_frame c x s0) as [-> ->]
    end.
    simpl. rewrite Hfa, Hfu. repeat split; auto.
  - left. destruct (send_message_frame uid TStrikeMissing st1) as [-> ->].
    auto.
  - left. simpl. auto.
Qed.

(** A number comes back from the table equal to what was stored. *)
Lemma sqlite_real_eqb (x : float) :
  PrimFloat.is_nan x = false -> (sqlite_real x =? x)%float = true.
Proof.
  intros Hn. unfold sqlite_real.
  destruct (x =? 0)%float eqn:E.
  - rewrite FloatAxioms.eqb_spec in *.
    change (Prim2SF 0) with (S754_zero false) in *.
    destruct (Prim2SF x) as [sg|sg| |sg m e]; cbn in *;
      try reflexivity; try discriminate E; destruct sg; discriminate E.
  - unfold PrimFloat.is_nan in Hn. apply negb_false_iff in Hn. exact Hn.
Qed.

Lemma sqlite_real_nan (x : float) :
  PrimFloat.is_nan x = false -> PrimFloat.is_nan (sqlite_real x) = false.
Proof.
  intros Hn. unfold sqlite_real. destruct (x =? 0)%float; [reflexivity | exact Hn].
Qed.

(** C8 (as amended). For a user at the price step: a comma in the input
    counts as a dot; when the input is no number, when the stored outcome
    starts with no integer, or when the check of the strike answers anything
    but yes, the dialogue map and the table stay as they were (so the user is
    still at the price step with the same reference and outcome, and no alert
    is stored).  When the input is read, the outcome starts with an integer
    and the check answers yes: if the input is read as NaN, the table refuses
    it, [IntegrityError] leaves the handler and the dialogue map and the table
    stay as they were; otherwise the table gains one alert under a new key,
    for this user, reference and outcome, with the number as SQLite keeps it
    as target (equal to the number entered), [>=] as direction and active,
    and the user's entry leaves the dialogue map. *)
Theorem await_price_step uid text st s :
  user_add_state st !! uid = Some s -> step s = 3 ->
  let st' := exec (handle_add_flow_or_default uid text) st in
  let unchanged :=
    user_add_state st' = user_add_state st /\ alerts st' = alerts st in
  (forall txt, parse_price (PyStr.replace "," "." txt) = parse_price txt) /\
  ((forall txt, text = Some txt -> parse_price txt = None) -> unchanged) /\
  (forall out, st_outcome s = Some out ->
     parse_strike (PyStr.split (PyStr.strip out)) = None -> unchanged) /\
  (forall url out k r st1,
     st_market_url s = Some url -> st_outcome s = Some out ->
     parse_strike (PyStr.split (PyStr.strip out)) = Some k ->
     strike_exists_in_event url k st = (r, st1) -> r <> Ok true ->
     unchanged) /\
  (forall txt price url out k st1,
     text = Some txt -> parse_price txt = Some price ->
     st_market_url s = Some url -> st_outcome s = Some out ->
     parse_strike (PyStr.split (PyStr.strip out)) = Some k ->
     strike_exists_in_event url k st = (Ok true, st1) ->
     if PrimFloat.is_nan price then
       (handle_add_flow_or_default uid text st).1 = Raise IntegrityError /\
       unchanged
     else
       alerts st !! (max_id (alerts st) + 1) = None /\
       alerts st' =
         <[max_id (alerts st) + 1 :=
             {| user_id := uid; market_url := url; outcome := out;
                target_price := sqlite_real price; direction := ">=";
                active := true |}]>
           (alerts st) /\
       (sqlite_real price =? price)%float = true /\
       user_add_state st' = delete uid (user_add_state st)).
Proof.
  intros Hs H3. cbv zeta.
  split; [apply parse_price_comma|].
  assert (Hfail : (exists txt price url out k st1,
            text = Some txt /\ parse_price txt = Some price /\
            st_outcome s = Some out /\
            parse_strike (PyStr.split (PyStr.strip out)) = Some k /\
            st_market_url s = Some url /\
            strike_exists_in_event url k st = (Ok true, st1)) \/
          (user_add_state (exec (handle_add_flow_or_default uid text) st)
             = user_add_state st /\
           alerts (exec (handle_add_flow_or_default uid text) st) = alerts st)).
  { destruct (handle_price_cases uid text st s Hs H3)
      as [Hun | (txt & price & url & out & k & st1 & Ht & Hp & _ & Hurl & Ho
                 & Hk & Hr & _)]; [right; exact Hun|].
    left. exists txt, price, url, out, k, st1. auto 8. }
  split; [|split; [|split]].
  - intros Hbad.
    destruct Hfail as [(txt & price & _ & _ & _ & _ & Ht & Hp & _) | H];
      [|exact H].
    rewrite (Hbad txt Ht) in Hp. discriminate.
  - intros out Ho Hk.
    destruct Hfail as [(_ & _ & _ & out' & k' & _ & _ & _ & Ho' & Hk' & _) | H];
      [congruence | exact H].
  - intros url out k r st1 Hurl Ho Hk Hr Hne.
    destruct Hfail
      as [(_ & _ & url' & out' & k' & st1' & _ & _ & Ho' & Hk' & Hurl' & Hr') | H];
      [|exact H].
    exfalso. apply Hne.
    assert (out' = out) by congruence. assert (url' = url) by congruence.
    subst. assert (k' = k) by congruence. subst. congruence.
  - intros txt price url out k st1 -> Hp Hurl Ho Hk Hr.
    pose proof (strike_exists_in_event_frame url k st) as Hf.
    cbv zeta in Hf. rewrite Hr in Hf. simpl in Hf.
    destruct Hf as (Hfa & Hfu & _).
    unfold exec. rewrite (handle_price_run uid (Some txt) st s Hs H3).
    rewrite Hp, Hurl, Ho, Hk, Hr.
    destruct (PrimFloat.is_nan price) eqn:Hnan.
    + simpl. auto.
    + split; [apply insert_alert_fresh|].
      match goal with
      | |- context [send_message ?c ?x ?s0] =>
          destruct (send_message_frame c x s0) as [-> ->]
      end.
      simpl. rewrite Hfa, Hfu.
      split; [reflexivity|]. split; [apply sqlite_real_eqb, Hnan | reflexivity].
Qed.

(** ** Reading the table *)

#[local] Instance id_le_trans : Transitive id_le.
Proof. intros x y z. unfold id_le. lia. Qed.

#[local] Instance id_le_total : Total id_le.
Proof. intros x y. unfold id_le. lia. Qed.

Lemma rows_by_id_in t j a : In (j, a) (rows_by_id t) <-> t !! j = Some a.
Proof.
  unfold rows_by_id. rewrite <- list_elem_of_In, merge_sort_Permutation.
  apply elem_of_map_to_list.
Qed.

Lemma rows_by_id_keys t : NoDup (rows_by_id t).*1.
Proof.
  unfold rows_by_id. rewrite merge_sort_Permutation.
  apply NoDup_fst_map_to_list.
Qed.

Lemma strictly_sorted (l : list (Z * alert)) :
  StronglySorted id_le l -> NoDup l.*1 ->
  StronglySorted (fun x y => x.1 < y.1) l.
Proof.
  induction 1 as [|x l Hs IH Hx]; intros Hn; [constructor|].
  simpl in Hn. apply NoDup_cons in Hn as [Hnotin Hn].
  constructor; [apply IH, Hn|].
  clear IH Hs Hn. induction Hx as [|y l Hy Hx IH]; [constructor|].
  simpl in Hnotin. apply not_elem_of_cons in Hnotin as [Hne Hnotin].
  constructor; [unfold id_le in Hy; lia | apply IH, Hnotin].
Qed.

Lemma rows_by_id_sorted t :
  StronglySorted (fun x y => x.1 < y.1) (rows_by_id t).
Proof.
  apply strictly_sorted; [|apply rows_by_id_keys].
  apply StronglySorted_merge_sort; apply _.
Qed.

Lemma Forall_list_filter {A} (P : A -> Prop) (p : A -> bool) (l : list A) :
  Forall P l -> Forall P (List.filter p l).
Proof.
  induction 1 as [|x l Hx _ IH]; simpl; [constructor|].
  destruct (p x); [constructor|]; assumption.
Qed.

Lemma StronglySorted_list_filter {A} (R : A -> A -> Prop) (p : A -> bool) l :
  StronglySorted R l -> StronglySorted R (List.filter p l).
Proof.
  induction 1 as [|x l _ IH Hx]; simpl; [constructor|].
  destruct (p x); [|exact IH].
  constructor; [exact IH | apply Forall_list_filter, Hx].
Qed.

Lemma StronglySorted_keys (l : list (Z * alert)) :
  StronglySorted (fun x y => x.1 < y.1) l -> StronglySorted Z.lt l.*1.
Proof.
  induction 1 as [|x l _ IH Hx]; simpl; [constructor|].
  constructor; [exact IH|].
  clear IH. induction Hx; simpl; constructor; assumption.
Qed.

Lemma select_user_active_in t uid i url out target dir :
  In (i, url, out, target, dir) (select_user_active t uid) <->
  exists a, t !! i = Some a /\ user_id a = uid /\ active a = true /\
            market_url a = url /\ outcome a = out /\
            target_price a = target /\ direction a = dir.
Proof.
  unfold select_user_active. rewrite in_map_iff. split.
  - intros ([j a] & Heq & Hin). simpl in Heq.
    injection Heq as -> <- <- <- <-.
    apply filter_In in Hin as [Hin Hp]. simpl in Hp.
    apply andb_true_iff in Hp as [Hu Hact]. apply Z.eqb_eq in Hu.
    exists a. repeat split; auto. apply rows_by_id_in, Hin.
  - intros (a & Ha & Hu & Hact & <- & <- & <- & <-).
    exists (i, a). split; [reflexivity|].
    apply filter_In. split; [apply rows_by_id_in, Ha|].
    simpl. rewrite Hact, Hu, Z.eqb_refl. reflexivity.
Qed.

Lemma select_user_active_ids t uid :
  map user_row_id (select_user_active t uid) =
  (List.filter (fun kv => (user_id kv.2 =? uid) && active kv.2)
               (rows_by_id t)).*1.
Proof.
  unfold select_user_active. rewrite map_map.
  induction (List.filter _ _) as [|[j a] l IH]; [reflexivity|].
  simpl. f_equal; exact IH.
Qed.

Lemma select_all_active_iff t i uid url out target dir :
  In (i, uid, url, out, target, dir) (select_all_active t) <->
  exists a, t !! i = Some a /\ user_id a = uid /\ active a = true /\
            market_url a = url /\ outcome a = out /\
            target_price a = target /\ direction a = dir.
Proof.
  split; [apply select_all_active_in|].
  intros (a & Ha & <- & Hact & <- & <- & <- & <-).
  unfold select_all_active. apply in_map_iff.
  exists (i, a). split; [reflexivity|].
  apply filter_In. split; [apply rows_by_id_in, Ha | exact Hact].
Qed.

Lemma select_all_active_ids t :
  map row_id (select_all_active t) =
  (List.filter (fun kv => active kv.2) (rows_by_id t)).*1.
Proof.
  unfold select_all_active. rewrite map_map.
  induction (List.filter _ _) as [|[j a] l IH]; [reflexivity|].
  simpl. f_equal; exact IH.
Qed.

(** X2. [get_user_alerts] changes nothing and returns exactly the active
    alerts of the user, each with the columns of its row, by increasing
    key. *)
Theorem get_user_alerts_exact uid st rows st' :
  get_user_alerts uid st = (Ok rows, st') ->
  st' = st /\
  (forall i url out target dir,
     In (i, url, out, target, dir) rows <->
     exists a, alerts st !! i = Some a /\ user_id a = uid /\
               active a = true /\ market_url a = url /\ outcome a = out /\
               target_price a = target /\ direction a = dir) /\
  StronglySorted Z.lt (map user_row_id rows).
Proof.
  unfold get_user_alerts, bind, get_state, ret. intros [= <- <-].
  split; [reflexivity|]. split.
  - intros. apply select_user_active_in.
  - rewrite select_user_active_ids.
    apply StronglySorted_keys, StronglySorted_list_filter, rows_by_id_sorted.
Qed.

Lemma sorted_ids_NoDup (l : list Z) : StronglySorted Z.lt l -> NoDup l.
Proof.
  induction 1 as [|j l Hs IH Hall]; constructor; [|exact IH].
  intros Hin. rewrite Forall_forall in Hall.
  specialize (Hall j Hin). lia.
Qed.

(** X3. [get_all_active_alerts] changes nothing and returns exactly the
    active alerts of all users, each once, with its owner and the columns of
    its row. *)
Theorem get_all_active_alerts_exact st rows st' :
  get_all_active_alerts st = (Ok rows, st') ->
  st' = st /\
  (forall i uid url out target dir,
     In (i, uid, url, out, target, dir) rows <->
     exists a, alerts st !! i = Some a /\ user_id a = uid /\
               active a = true /\ market_url a = url /\ outcome a = out /\
               target_price a = target /\ direction a = dir) /\
  NoDup (map row_id rows).
Proof.
  unfold get_all_active_alerts, bind, get_state, ret. intros [= <- <-].
  split; [reflexivity|]. split.
  - intros. apply select_all_active_iff.
  - rewrite select_all_active_ids. apply sorted_ids_NoDup.
    apply StronglySorted_keys, StronglySorted_list_filter, rows_by_id_sorted.
Qed.

(** ** Writing the table *)

Lemma add_alert_run uid url out target st :
  add_alert uid url out target st =
  if PrimFloat.is_nan target then (Raise IntegrityError, st)
  else (Ok tt,
        {| alerts := insert_alert (alerts st) uid url out target;
           user_add_state := user_add_state st; world := world st;
           outbox := outbox st; stdout := stdout st |}).
Proof. unfold add_alert. destruct (PrimFloat.is_nan target); reflexivity. Qed.

Lemma insert_alert_lookup t uid url out target j :
  insert_alert t uid url out target !! j =
  if decide (j = max_id t + 1)
  then Some {| user_id := uid; market_url := url; outcome := out;
               target_price := sqlite_real target; direction := ">=";
               active := true |}
  else t !! j.
Proof.
  unfold insert_alert. destruct (decide (j = max_id t + 1)) as [->|Hne].
  - apply lookup_insert_eq.
  - apply lookup_insert_ne. congruence.
Qed.

(** X1. [add_alert] refuses a NaN target and changes nothing then.  Otherwise
    it stores one row under a key above every key in use and leaves the other
    rows as they were; the user's list gains exactly that alert, with the
    target as SQLite keeps it (equal to the number given; minus zero comes
    back as zero) and the direction [>=], and the lists of the other users
    are as before. *)
Theorem add_alert_stores uid url out target st :
  let st' := exec (add_alert uid url out target) st in
  let k := max_id (alerts st) + 1 in
  (PrimFloat.is_nan target = true ->
   add_alert uid url out target st = (Raise IntegrityError, st)) /\
  (PrimFloat.is_nan target = false ->
   (add_alert uid url out target st).1 = Ok tt /\
   (forall j a, alerts st !! j = Some a ->
      j < k /\ alerts st' !! j = Some a) /\
   (forall i url' out' target' dir',
      In (i, url', out', target', dir') (select_user_active (alerts st') uid) <->
      (i, url', out', target', dir') = (k, url, out, sqlite_real target, ">=") \/
      In (i, url', out', target', dir') (select_user_active (alerts st) uid)) /\
   (sqlite_real target =? target)%float = true /\
   (forall v i url' out' target' dir', v <> uid ->
      In (i, url', out', target', dir') (select_user_active (alerts st') v) <->
      In (i, url', out', target', dir') (select_user_active (alerts st) v)) /\
   user_add_state st' = user_add_state st /\ outbox st' = outbox st).
Proof.
  cbv zeta. unfold exec. rewrite add_alert_run.
  split; [intros ->; reflexivity|]. intros Hnan. rewrite Hnan. simpl.
  split; [reflexivity|]. split.
  { intros j a Ha. pose proof (max_id_ge _ _ _ Ha).
    split; [lia | apply insert_alert_old, Ha]. }
  split; [|split; [apply sqlite_real_eqb, Hnan|split; [|auto]]].
  - intros i url' out' target' dir'. rewrite !select_user_active_in.
    setoid_rewrite insert_alert_lookup. split.
    + intros (a & Ha & Hu & Hact & <- & <- & <- & <-).
      destruct (decide (i = max_id (alerts st) + 1)) as [->|Hne].
      * injection Ha as <-. left. reflexivity.
      * right. exists a. auto 8.
    + intros [[= -> -> -> -> ->] | (a & Ha & Hrest)].
      * rewrite decide_True by reflexivity. eexists. split; [reflexivity|].
        simpl. auto 8.
      * exists a. split; [|exact Hrest].
        rewrite decide_False; [exact Ha|].
        apply max_id_ge in Ha. lia.
  - intros v i url' out' target' dir' Hv. rewrite !select_user_active_in.
    setoid_rewrite insert_alert_lookup. split.
    + intros (a & Ha & Hu & Hrest).
      destruct (decide (i = max_id (alerts st) + 1)) as [->|Hne].
      * injection Ha as <-. simpl in Hu. congruence.
      * exists a. auto.
    + intros (a & Ha & Hrest). exists a. split; [|exact Hrest].
      rewrite decide_False; [exact Ha|]. apply max_id_ge in Ha. lia.
Qed.

Lemma set_inactive_lookup t alert_id a j :
  <[alert_id := set_inactive a]> t !! j =
  if decide (j = alert_id) then Some (set_inactive a) else t !! j.
Proof.
  destruct (decide (j = alert_id)) as [->|Hne].
  - apply lookup_insert_eq.
  - apply lookup_insert_ne. congruence.
Qed.

(** X4. After a deactivation that answers [true], the alert is gone from its
    owner's list and from the worker's snapshot, every other alert is listed
    as before, and the lists of the other users are unchanged. *)
Theorem deactivate_alert_unlists uid alert_id st st' :
  deactivate_alert uid alert_id st = (Ok true, st') ->
  (forall i url out target dir,
     In (i, url, out, target, dir) (select_user_active (alerts st') uid) <->
     i <> alert_id /\
     In (i, url, out, target, dir) (select_user_active (alerts st) uid)) /\
  (forall v i url out target dir, v <> uid ->
     In (i, url, out, target, dir) (select_user_active (alerts st') v) <->
     In (i, url, out, target, dir) (select_user_active (alerts st) v)) /\
  (forall i v url out target dir,
     In (i, v, url, out, target, dir) (select_all_active (alerts st')) <->
     i <> alert_id /\
     In (i, v, url, out, target, dir) (select_all_active (alerts st))).
Proof.
  rewrite deactivate_alert_run.
  destruct (bindable (alerts st) alert_id); [|discriminate].
  destruct (deactivate_row (alerts st) uid alert_id) as [t' b] eqn:E.
  simpl. intros [= -> <-]. apply deactivate_row_hit in E.
  destruct E as (a0 & Ha0 & Hu0 & Hact0 & ->). simpl.
  split; [|split].
  - intros i url out target dir. rewrite !select_user_active_in.
    setoid_rewrite set_inactive_lookup. split.
    + intros (a & Ha & Hrest).
      destruct (decide (i = alert_id)) as [->|Hne].
      * injection Ha as <-. simpl in Hrest. destruct Hrest as (_ & H & _).
        discriminate.
      * split; [exact Hne|]. exists a. auto.
    + intros (Hne & a & Ha & Hrest). exists a.
      rewrite decide_False by exact Hne. auto.
  - intros v i url out target dir Hv. rewrite !select_user_active_in.
    setoid_rewrite set_inactive_lookup. split.
    + intros (a & Ha & Hrest).
      destruct (decide (i = alert_id)) as [->|Hne].
      * injection Ha as <-. simpl in Hrest. destruct Hrest as (_ & H & _).
        discriminate.
      * exists a. auto.
    + intros (a & Ha & Hu & Hrest). exists a.
      rewrite decide_False; [auto|]. intros ->. congruence.
  - intros i v url out target dir. rewrite !select_all_active_iff.
    setoid_rewrite set_inactive_lookup. split.
    + intros (a & Ha & Hrest).
      destruct (decide (i = alert_id)) as [->|Hne].
      * injection Ha as <-. simpl in Hrest. destruct Hrest as (_ & H & _).
        discriminate.
      * split; [exact Hne|]. exists a. auto.
    + intros (Hne & a & Ha & Hrest). exists a.
      rewrite decide_False by exact Hne. auto.
Qed.

(** ** The price service and the check of a strike *)

Lemma fetch_token_price_run token_id side st :
  fetch_token_price token_id side st =
  let '(r, w) := clob_price token_id (PyStr.upper side) (world st) in
  let st' := {| alerts := alerts st; user_add_state := user_add_state st;
                world := w; outbox := outbox st; stdout := stdout st |} in
  match r with
  | Raise e => (Raise e, st')
  | Ok resp =>
      if status_code resp =? 200 then
        match json_body resp with
        | Raise e => (Raise e, st')
        | Ok data =>
            match py_get data "price" with
            | Raise e => (Raise e, st')
            | Ok JNull => (Ok None, st')
            | Ok p => (float_of_price p, st')
            end
        end
      else (Ok None, st')
  end.
Proof.
  unfold fetch_token_price, bind, call, lift, ret.
  destruct (clob_price _ _ (world st)) as [[resp|e] w]; [|reflexivity].
  destruct (status_code resp =? 200); [|reflexivity]. cbn.
  destruct (json_body resp) as [data|e]; [|reflexivity].
  destruct (py_get data "price") as [[]|e]; reflexivity.
Qed.

(** X5. [fetch_token_price] makes one request and touches nothing else.  A
    status other than 200 gives [None].  On a 200, a body that is no JSON
    raises what the decoder raises and a body that is no object raises
    [AttributeError]; on a body that is an object, an absent or null [price]
    gives [None], a text gives what [float] makes of it ([None] when [float]
    refuses it), a JSON real gives that number, a JSON integer gives its
    [float] (or [OverflowError] when it has none), [true] and [false] give 1
    and 0, and a list or an object raises [TypeError]. *)
Theorem fetch_token_price_outcomes token_id side st resp w :
  clob_price token_id (PyStr.upper side) (world st) = (Ok resp, w) ->
  let out := fetch_token_price token_id side st in
  (status_code resp <> 200 -> out.1 = Ok None) /\
  (status_code resp = 200 ->
   (forall e, json_body resp = Raise e -> out.1 = Raise e) /\
   (forall data, json_body resp = Ok data -> is_dict data = false ->
      out.1 = Raise AttributeError) /\
   forall kv, json_body resp = Ok (JDict kv) ->
     (assoc "price" kv = None \/ assoc "price" kv = Some JNull ->
      out.1 = Ok None) /\
     (forall s, assoc "price" kv = Some (JStr s) ->
        out.1 = Ok (float_of_string s)) /\
     (forall f, assoc "price" kv = Some (JFloat f) -> out.1 = Ok (Some f)) /\
     (forall n, assoc "price" kv = Some (JInt n) ->
        out.1 = match float_of_int n with
                | Ok f => Ok (Some f)
                | Raise e => Raise e
                end) /\
     (forall b, assoc "price" kv = Some (JBool b) ->
        out.1 = Ok (Some (if b then 1%float else 0%float))) /\
     (forall l, assoc "price" kv = Some (JList l) -> out.1 = Raise TypeError) /\
     (forall d, assoc "price" kv = Some (JDict d) -> out.1 = Raise TypeError)) /\
  alerts out.2 = alerts st /\ user_add_state out.2 = user_add_state st /\
  outbox out.2 = outbox st /\ stdout out.2 = stdout st /\ world out.2 = w.
Proof.
  intros Hc. cbv zeta. rewrite fetch_token_price_run, Hc. cbv zeta.
  split; [|split].
  - intros Hne. apply Z.eqb_neq in Hne. rewrite Hne. reflexivity.
  - intros ->. simpl. split; [|split].
    + intros e ->. reflexivity.
    + intros data -> Hd. destruct data; try discriminate Hd; reflexivity.
    + intros kv ->. simpl. unfold dict_get. repeat split.
      * intros [-> | ->]; reflexivity.
      * intros s ->. reflexivity.
      * intros f ->. reflexivity.
      * intros n ->. simpl. destruct (float_of_int n); reflexivity.
      * intros b ->. reflexivity.
      * intros l ->. reflexivity.
      * intros d ->. reflexivity.
  - destruct (status_code resp =? 200); [|simpl; auto 6].
    destruct (json_body resp) as [data|e]; [|simpl; auto 6].
    destruct (py_get data "price") as [[]|e]; simpl; auto 6.
Qed.

Lemma find_market_find markets strike :
  Forall (fun m => is_dict m = true) markets ->
  find_market markets strike = Ok (List.find (has_label strike) markets).
Proof.
  induction 1 as [|m ms Hd _ IH]; [reflexivity|].
  simpl. unfold has_label, label_of.
  destruct m; try discriminate Hd. simpl.
  destruct (normalize_title _) as [v|]; [|exact IH].
  destruct (v =? strike); [reflexivity | exact IH].
Qed.

Lemma find_existsb {A} (p : A -> bool) (l : list A) :
  match List.find p l with Some _ => true | None => false end = existsb p l.
Proof.
  induction l as [|x l IH]; [reflexivity|]. simpl.
  destruct (p x); [reflexivity | exact IH].
Qed.

(** X6. [strike_exists_in_event] answers [false] without any request when no
    event slug can be read from the reference.  When the slug is read and the
    event fetched is a dict whose markets are dicts, it answers whether some
    market has a label that normalizes to the strike. *)
Theorem strike_exists_in_event_decides market_url strike st :
  (falsy_str (extract_event_slug market_url) = true ->
   strike_exists_in_event market_url strike st = (Ok false, st)) /\
  (forall slug event st1,
     extract_event_slug market_url = Some slug -> slug <> "" ->
     fetch_event_by_slug slug st = (Ok event, st1) ->
     is_dict event = true ->
     Forall (fun m => is_dict m = true) (markets_of event) ->
     strike_exists_in_event market_url strike st =
       (Ok (existsb (has_label strike) (markets_of event)), st1)).
Proof.
  unfold strike_exists_in_event. split.
  - intros ->. reflexivity.
  - intros slug event st1 -> Hne Hf Hd Hms. unfold falsy_str.
    apply String.eqb_neq in Hne. rewrite Hne. unfold bind, lift, ret.
    simpl default. rewrite Hf. unfold markets_of in *.
    destruct event as [| | | | | |kv]; try discriminate Hd.
    destruct kv as [|p kv]; [reflexivity|].
    cbn [truthy negb]. cbn [py_get] in *.
    destruct (py_or (dict_get (p :: kv) "markets") (JList []));
      try reflexivity.
    rewrite (find_market_find _ _ Hms), <- find_existsb. reflexivity.
Qed.

(** ** An alert the worker passes over *)

Lemma print_run l st :
  print l st =
  (Ok tt, {| alerts := alerts st; user_add_state := user_add_state st;
             world := world st; outbox := outbox st;
             stdout := (stdout st ++ [l])%list |}).
Proof. reflexivity. Qed.

Lemma fetch_event_by_slug_frame slug st :
  let st' := (fetch_event_by_slug slug st).2 in
  alerts st' = alerts st /\ user_add_state st' = user_add_state st /\
  outbox st' = outbox st /\ stdout st' = stdout st.
Proof.
  pose proof (fetch_event_by_slug_inv
           (fun t u o s => t = alerts st /\ u = user_add_state st /\
                           o = outbox st /\ s = stdout st)
           (fun _ => true) (fun _ => true) slug st) as H.
  unfold inv in H. rewrite !filter_all in H. apply H. auto.
Qed.

Lemma fetch_token_price_frame token_id side st :
  let st' := (fetch_token_price token_id side st).2 in
  alerts st' = alerts st /\ user_add_state st' = user_add_state st /\
  outbox st' = outbox st /\ stdout st' = stdout st.
Proof.
  pose proof (fetch_token_price_inv
           (fun t u o s => t = alerts st /\ u = user_add_state st /\
                           o = outbox st /\ s = stdout st)
           (fun _ => true) (fun _ => true) token_id side st) as H.
  unfold inv in H. rewrite !filter_all in H. apply H. auto.
Qed.

(** X15. When the worker finds no price for an alert, the iteration ends
    without an exception, sends nothing, leaves the table and the dialogue
    map as they were and prints exactly one line, which says what was
    missing: the slug, with the reference, when none can be read from it (and
    then no request is made); the event, with the slug, when the metadata
    service has none; the instrument, with the outcome, when none is chosen;
    the price, with the instrument, when the price service has none. *)
Theorem alert_passed_over alert_id uid url out target dir st :
  let al := (alert_id, uid, url, out, target, dir) in
  let logged (st1 : state W) (line : log_line) :=
    alert_step al st =
      (Ok tt,
       {| alerts := alerts st; user_add_state := user_add_state st;
          world := world st1; outbox := outbox st;
          stdout := (stdout st ++ [line])%list |}) in
  (falsy_str (extract_event_slug url) = true -> logged st (LNoSlug url)) /\
  (forall slug event st1,
     extract_event_slug url = Some slug -> slug <> "" ->
     fetch_event_by_slug slug st = (Ok event, st1) ->
     (truthy event = false -> logged st1 (LNoEvent slug)) /\
     (truthy event = true ->
      forall tok, pick_token_id_for_outcome event out = Ok tok ->
        (falsy_str tok = true -> logged st1 (LNoToken out)) /\
        (forall token_id st2,
           tok = Some token_id -> token_id <> "" ->
           fetch_token_price token_id "BUY" st1 = (Ok None, st2) ->
           logged st2 (LNoPrice token_id)))).
Proof.
  cbv zeta. split.
  - intros Hf. rewrite alert_step_run. unfold alert_price. rewrite Hf.
    reflexivity.
  - intros slug event st1 Hs Hne Hfe.
    pose proof (fetch_event_by_slug_frame slug st) as (Ha1 & Hu1 & Ho1 & Hs1).
    rewrite Hfe in Ha1, Hu1, Ho1, Hs1. simpl in Ha1, Hu1, Ho1, Hs1.
    apply String.eqb_neq in Hne.
    assert (Hp : alert_price url out st =
              (event <- fetch_event_by_slug slug ;;
               if negb (truthy event)
               then _ <- print (LNoEvent slug) ;; ret None
               else
                 token_id <- lift (pick_token_id_for_outcome event out) ;;
                 if falsy_str token_id
                 then _ <- print (LNoToken out) ;; ret None
                 else
                   price_usd <- fetch_token_price (default "" token_id) "BUY" ;;
                   match price_usd with
                   | None => _ <- print (LNoPrice (default "" token_id)) ;;
                             ret None
                   | Some p => ret (Some p)
                   end) st).
    { unfold alert_price. rewrite Hs. unfold falsy_str. rewrite Hne.
      reflexivity. }
    split.
    + intros Ht. rewrite alert_step_run, Hp. unfold bind at 1.
      rewrite Hfe. cbv beta iota. rewrite Ht. cbn [negb].
      unfold bind, print, ret.
      rewrite Ha1, Hu1, Ho1, Hs1. reflexivity.
    + intros Ht tok Hk. split.
      * intros Hf. rewrite alert_step_run, Hp. unfold bind at 1.
        rewrite Hfe. cbv beta iota. rewrite Ht. cbn [negb].
        unfold bind at 1, lift. rewrite Hk. cbv beta iota. rewrite Hf.
        unfold bind, print, ret.
        rewrite Ha1, Hu1, Ho1, Hs1. reflexivity.
      * intros token_id st2 -> Hn Hfp.
        pose proof (fetch_token_price_frame token_id "BUY" st1)
          as (Ha2 & Hu2 & Ho2 & Hs2).
        rewrite Hfp in Ha2, Hu2, Ho2, Hs2. simpl in Ha2, Hu2, Ho2, Hs2.
        apply String.eqb_neq in Hn.
        rewrite alert_step_run, Hp. unfold bind at 1.
        rewrite Hfe. cbv beta iota. rewrite Ht. cbn [negb].
        unfold bind at 1, lift. rewrite Hk. cbv beta iota.
        unfold falsy_str. rewrite Hn.
        change (default "" (Some token_id)) with token_id.
        unfold bind at 1. rewrite Hfp. cbv beta iota.
        unfold bind, print, ret.
        rewrite Ha2, Hu2, Ho2, Hs2, Ha1, Hu1, Ho1, Hs1. reflexivity.
Qed.

(** ** The handlers *)

Lemma send_message_effect chat text st :
  let st' := (send_message chat text st).2 in
  alerts st' = alerts st /\ user_add_state st' = user_add_state st /\
  outbox st' = (outbox st ++ [(chat, text)])%list /\ stdout st' = stdout st.
Proof.
  unfold send_message. destruct (telegram_send chat text (world st)).
  repeat split; reflexivity.
Qed.

Lemma confined_refl uid st : confined uid st st.
Proof.
  repeat split; auto. exists []. symmetry; apply app_nil_r.
Qed.

Lemma confined_trans uid st1 st2 st3 :
  confined uid st1 st2 -> confined uid st2 st3 -> confined uid st1 st3.
Proof.
  intros (Hu1 & Ha1 & (e1 & Ho1) & Hs1) (Hu2 & Ha2 & (e2 & Ho2) & Hs2).
  repeat split.
  - intros v Hv. rewrite Hu2, Hu1; auto.
  - intros j a Ha Hne. apply Ha2; auto.
  - exists (e1 ++ e2)%list. rewrite Ho2, Ho1, app_assoc. reflexivity.
  - congruence.
Qed.

Lemma keeps_at_ret {A} uid (x : A) st : keeps_at uid (ret x) st.
Proof. apply confined_refl. Qed.

Lemma keeps_at_lift {A} uid (r : res A) st : keeps_at uid (lift r) st.
Proof. apply confined_refl. Qed.

Lemma keeps_at_bind {A B} uid (m : M W A) (k : A -> M W B) st :
  keeps_at uid m st ->
  (forall x st1, m st = (Ok x, st1) -> keeps_at uid (k x) st1) ->
  keeps_at uid (bind m k) st.
Proof.
  unfold keeps_at, bind. intros Hm Hk.
  destruct (m st) as [[x|e] st1]; simpl in *; [|exact Hm].
  eapply confined_trans; [exact Hm | apply Hk; reflexivity].
Qed.

Lemma keeps_at_send uid text st : keeps_at uid (send_message uid text) st.
Proof.
  unfold keeps_at.
  destruct (send_message_effect uid text st) as (Ha & Hu & Ho & Hs).
  repeat split; try congruence.
  exists [(uid, text)]. exact Ho.
Qed.

Lemma keeps_at_update uid s0 st : keeps_at uid (update_add_state uid s0) st.
Proof.
  repeat split; simpl; auto.
  - intros v Hv. apply lookup_insert_ne. congruence.
  - exists []. symmetry; apply app_nil_r.
Qed.

Lemma keeps_at_pop uid st :
  keeps_at uid (set_user_add_state (delete uid (user_add_state st))) st.
Proof.
  repeat split; simpl; auto.
  - intros v Hv. apply lookup_delete_ne. congruence.
  - exists []. symmetry; apply app_nil_r.
Qed.

Lemma keeps_at_deactivate uid alert_id st :
  keeps_at uid (deactivate_alert uid alert_id) st.
Proof.
  unfold keeps_at. rewrite deactivate_alert_run. repeat split; simpl; auto.
  - intros j a Ha Hne. rewrite deactivate_row_lookup, Ha.
    apply Z.eqb_neq in Hne. rewrite Hne, andb_false_r. reflexivity.
  - exists []. symmetry; apply app_nil_r.
Qed.

Lemma keeps_at_add_alert uid url out target st :
  keeps_at uid (add_alert uid url out target) st.
Proof.
  unfold keeps_at. rewrite add_alert_run.
  destruct (PrimFloat.is_nan target); [apply confined_refl|].
  repeat split; simpl; auto.
  - intros j a Ha _. apply insert_alert_old, Ha.
  - exists []. symmetry; apply app_nil_r.
Qed.

Lemma keeps_at_strike_exists uid url k st :
  keeps_at uid (strike_exists_in_event url k) st.
Proof.
  unfold keeps_at.
  destruct (strike_exists_in_event_frame url k st) as (Ha & Hu & Ho & Hs).
  repeat split; try congruence.
  exists []. rewrite app_nil_r. exact Ho.
Qed.

Ltac keep_step :=
  lazymatch goal with
  | |- keeps_at _ (bind get_state _) _ =>
      apply keeps_at_bind; [apply confined_refl | intros ? ? [= <- <-]]
  | |- keeps_at _ (bind _ _) _ => apply keeps_at_bind; [|intros ? ? _]
  | |- keeps_at _ (ret _) _ => apply keeps_at_ret
  | |- keeps_at _ (lift _) _ => apply keeps_at_lift
  | |- keeps_at _ (send_message _ _) _ => apply keeps_at_send
  | |- keeps_at _ (update_add_state _ _) _ => apply keeps_at_update
  | |- keeps_at _ (deactivate_alert _ _) _ => apply keeps_at_deactivate
  | |- keeps_at _ (add_alert _ _ _ _) _ => apply keeps_at_add_alert
  | |- keeps_at _ (strike_exists_in_event _ _) _ =>
      apply keeps_at_strike_exists
  | |- keeps_at _ (set_user_add_state (delete _ (user_add_state ?s))) ?s =>
      apply keeps_at_pop
  | |- keeps_at _ (if ?b then _ else _) _ => destruct b
  | |- keeps_at _ (match ?x with _ => _ end) _ => destruct x
  end.

(** X9. A command or a message of a user changes no other user's dialogue
    entry and no other user's alert, takes nothing back from what was handed
    to Telegram, and prints nothing. *)
Theorem handler_confined_to_sender u uid st :
  sender u = Some uid ->
  let st' := exec (dispatch u) st in
  (forall v, v <> uid -> user_add_state st' !! v = user_add_state st !! v) /\
  (forall j a, alerts st !! j = Some a -> user_id a <> uid ->
     alerts st' !! j = Some a) /\
  (exists ext, outbox st' = (outbox st ++ ext)%list) /\
  stdout st' = stdout st.
Proof.
  intros Hs. cbv zeta. change (keeps_at uid (dispatch u) st).
  destruct u; simpl in Hs; try discriminate; injection Hs as ->; simpl.
  - apply keeps_at_send.
  - unfold cmd_list, get_user_alerts. repeat keep_step.
  - unfold cmd_add. repeat keep_step.
  - unfold cmd_delete. repeat keep_step.
  - unfold handle_add_flow_or_default. repeat keep_step.
Qed.

Lemma handle_step12_run uid text st s :
  user_add_state st !! uid = Some s -> step s = 1 \/ step s = 2 ->
  handle_add_flow_or_default uid text st =
  match text with
  | None => (Raise AttributeError, st)
  | Some txt =>
      send_message uid (if step s =? 1 then TAddStep2 else TAddStep3)
        {| alerts := alerts st;
           user_add_state :=
             <[uid := if step s =? 1
                      then {| step := 2; st_market_url := Some (PyStr.strip txt);
                              st_outcome := st_outcome s |}
                      else {| step := 3; st_market_url := st_market_url s;
                              st_outcome := Some (PyStr.strip txt) |}]>
               (user_add_state st);
           world := world st; outbox := outbox st; stdout := stdout st |}
  end.
Proof.
  intros Hs H12. unfold handle_add_flow_or_default, bind, get_state.
  rewrite Hs. destruct H12 as [-> | ->]; cbn [Z.eqb Pos.eqb];
    destruct text; reflexivity.
Qed.

(** X8. The message handler ignores a user who has no dialogue entry, and an
    entry whose step is none of 1, 2, 3: the state is untouched and nothing
    is sent.  A message without text, for a user at one of the three steps,
    raises [AttributeError] and leaves the state untouched. *)
Theorem handle_add_flow_edges uid text st :
  (user_add_state st !! uid = None ->
   handle_add_flow_or_default uid text st = (Ok tt, st)) /\
  (forall s, user_add_state st !! uid = Some s ->
     step s <> 1 -> step s <> 2 -> step s <> 3 ->
     handle_add_flow_or_default uid text st = (Ok tt, st)) /\
  (forall s, user_add_state st !! uid = Some s ->
     step s = 1 \/ step s = 2 \/ step s = 3 ->
     handle_add_flow_or_default uid None st = (Raise AttributeError, st)).
Proof.
  split; [|split].
  - intros Hn. unfold handle_add_flow_or_default, bind, get_state.
    rewrite Hn. reflexivity.
  - intros s Hs H1 H2 H3. unfold handle_add_flow_or_default, bind, get_state.
    rewrite Hs. apply Z.eqb_neq in H1, H2, H3. rewrite H1, H2, H3.
    reflexivity.
  - intros s Hs [H | [H | H]].
    + rewrite (handle_step12_run uid None st s Hs); auto.
    + rewrite (handle_step12_run uid None st s Hs); auto.
    + rewrite (handle_price_run uid None st s Hs H). reflexivity.
Qed.

Lemma cmd_delete_run uid text st :
  cmd_delete uid text st =
  match PyStr.split_max1 (PyStr.strip text) with
  | _ :: w1 :: _ =>
      match PyStr.int w1 with
      | None => send_message uid TDeleteNotNumber st
      | Some alert_id =>
          if bindable (alerts st) alert_id then
            send_message uid
              (if (deactivate_row (alerts st) uid alert_id).2
               then TDeleted alert_id else TDeleteNotFound)
              {| alerts := (deactivate_row (alerts st) uid alert_id).1;
                 user_add_state := user_add_state st; world := world st;
                 outbox := outbox st; stdout := stdout st |}
          else (Raise OverflowError, st)
      end
  | _ => send_message uid TDeleteUsage st
  end.
Proof.
  unfold cmd_delete.
  destruct (PyStr.split_max1 (PyStr.strip text)) as [|w0 [|w1 rest]];
    try reflexivity.
  destruct (PyStr.int w1) as [alert_id|]; [|reflexivity].
  unfold bind. rewrite deactivate_alert_run.
  destruct (bindable (alerts st) alert_id) eqn:B.
  - destruct (deactivate_row (alerts st) uid alert_id) as [t' []]; reflexivity.
  - apply unbindable_absent in B as [_ B].
    rewrite (deactivate_row_absent _ _ _ B). simpl. rewrite state_eta.
    reflexivity.
Qed.

(** X10. [/delete] with no argument, or with an argument that is no integer,
    changes nothing and says so to the user.  With an integer argument that
    fits 64 bits it applies the owner-scoped deactivation to that key and
    tells the user whether an active alert of theirs was found.  With an
    integer that does not fit, and so is the key of no alert,
    [OverflowError] leaves the handler: nothing is changed and nothing is
    sent.  The dialogue map is never changed. *)
Theorem cmd_delete_cases uid text st :
  let args := PyStr.split_max1 (PyStr.strip text) in
  let st' := exec (cmd_delete uid text) st in
  ((length args < 2)%nat ->
   alerts st' = alerts st /\
   outbox st' = (outbox st ++ [(uid, TDeleteUsage)])%list) /\
  (forall w0 w1 rest, args = w0 :: w1 :: rest -> PyStr.int w1 = None ->
   alerts st' = alerts st /\
   outbox st' = (outbox st ++ [(uid, TDeleteNotNumber)])%list) /\
  (forall w0 w1 rest alert_id, args = w0 :: w1 :: rest ->
   PyStr.int w1 = Some alert_id ->
   (sqlite_int alert_id = true ->
    alerts st' = (deactivate_row (alerts st) uid alert_id).1 /\
    outbox st' =
      (outbox st ++
       [(uid, if (deactivate_row (alerts st) uid alert_id).2
              then TDeleted alert_id else TDeleteNotFound)])%list) /\
   (sqlite_int alert_id = false -> alerts st !! alert_id = None ->
    cmd_delete uid text st = (Raise OverflowError, st))) /\
  user_add_state st' = user_add_state st.
Proof.
  cbv zeta. unfold exec. rewrite cmd_delete_run.
  split; [|split; [|split]].
  - intros Hlen.
    destruct (PyStr.split_max1 (PyStr.strip text)) as [|w0 [|w1 rest]];
      try (simpl in Hlen; lia);
      destruct (send_message_effect uid TDeleteUsage st) as (Ha & _ & Ho & _);
      auto.
  - intros w0 w1 rest -> ->.
    destruct (send_message_effect uid TDeleteNotNumber st) as (Ha & _ & Ho & _).
    auto.
  - intros w0 w1 rest alert_id -> ->. split.
    + intros Hi. rewrite (bindable_int _ _ Hi).
      match goal with
      | |- context [send_message ?c ?x ?s0] =>
          destruct (send_message_effect c x s0) as (Ha & _ & Ho & _)
      end.
      auto.
    + intros Hi Hk. unfold bindable. rewrite Hi, Hk. reflexivity.
  - destruct (PyStr.split_max1 (PyStr.strip text)) as [|w0 [|w1 rest]];
      try apply send_message_effect.
    destruct (PyStr.int w1) as [alert_id|];
      [destruct (bindable (alerts st) alert_id); [|reflexivity]|];
      match goal with
      | |- context [send_message ?c ?x ?s0] =>
          destruct (send_message_effect c x s0) as (_ & Hu & _)
      end; exact Hu.
Qed.

Lemma cmd_add_run uid st :
  cmd_add uid st =
  send_message uid TAddStep1
    {| alerts := alerts st;
       user_add_state :=
         <[uid := {| step := 1; st_market_url := None; st_outcome := None |}]>
           (user_add_state st);
       world := world st; outbox := outbox st; stdout := stdout st |}.
Proof. reflexivity. Qed.

(** X11. From any state, [/add] followed by two texts puts the user at the
    price step with the two texts stripped, whatever entry the user had and
    whatever Telegram does with the three prompts; the table is untouched.
    If the next text is a price, the stored outcome starts with an integer
    and the check of that strike answers yes, the alert stored is for the
    stripped reference and outcome, with the price as SQLite keeps it as
    target, and the user's entry is gone. *)
Theorem add_dialogue_end_to_end uid ref_text outcome_text st :
  let market_url := PyStr.strip ref_text in
  let outcome := PyStr.strip outcome_text in
  let st3 := run [CmdAdd uid; Message uid (Some ref_text);
                  Message uid (Some outcome_text)] st in
  (user_add_state st3 =
     <[uid := {| step := 3; st_market_url := Some market_url;
                 st_outcome := Some outcome |}]> (user_add_state st) /\
   alerts st3 = alerts st /\
   outbox st3 = (outbox st ++ [(uid, TAddStep1); (uid, TAddStep2);
                               (uid, TAddStep3)])%list) /\
  (forall price_text price strike st3',
     parse_price price_text = Some price ->
     PrimFloat.is_nan price = false ->
     parse_strike (PyStr.split (PyStr.strip outcome)) = Some strike ->
     strike_exists_in_event market_url strike st3 = (Ok true, st3') ->
     let st4 := exec (dispatch (Message uid (Some price_text))) st3 in
     alerts st4 =
       <[max_id (alerts st) + 1 :=
           {| user_id := uid; market_url := market_url; outcome := outcome;
              target_price := sqlite_real price; direction := ">=";
              active := true |}]> (alerts st) /\
     user_add_state st4 = delete uid (user_add_state st) /\
     outbox st4 = (outbox st3 ++
                   [(uid, TAlertAdded market_url outcome price)])%list).
Proof.
  cbv zeta.
  set (e3 := {| step := 3; st_market_url := Some (PyStr.strip ref_text);
                st_outcome := Some (PyStr.strip outcome_text) |}).
  assert (H3 : let st3 := run [CmdAdd uid; Message uid (Some ref_text);
                               Message uid (Some outcome_text)] st in
               user_add_state st3 = <[uid := e3]> (user_add_state st) /\
               alerts st3 = alerts st /\
               outbox st3 = (outbox st ++ [(uid, TAddStep1); (uid, TAddStep2);
                                           (uid, TAddStep3)])%list).
  { cbv zeta.
    change (run [CmdAdd uid; Message uid (Some ref_text);
                 Message uid (Some outcome_text)] st)
      with (exec (dispatch (Message uid (Some outcome_text)))
              (exec (dispatch (Message uid (Some ref_text)))
                 (exec (dispatch (CmdAdd uid)) st))).
    (* /add *)
    set (st1 := exec (dispatch (CmdAdd uid)) st).
    assert (H1 : user_add_state st1 =
                   <[uid := {| step := 1; st_market_url := None;
                               st_outcome := None |}]> (user_add_state st) /\
                 alerts st1 = alerts st /\
                 outbox st1 = (outbox st ++ [(uid, TAddStep1)])%list).
    { subst st1. unfold exec, dispatch. rewrite cmd_add_run.
      match goal with
      | |- context [send_message ?c ?x ?s0] =>
          destruct (send_message_effect c x s0) as (Ha & Hu & Ho & _)
      end.
      rewrite Ha, Hu, Ho. auto. }
    destruct H1 as (Hu1 & Ha1 & Ho1).
    (* the reference *)
    set (st2 := exec (dispatch (Message uid (Some ref_text))) st1).
    assert (H2 : user_add_state st2 =
                   <[uid := {| step := 2;
                               st_market_url := Some (PyStr.strip ref_text);
                               st_outcome := None |}]> (user_add_state st) /\
                 alerts st2 = alerts st /\
                 outbox st2 = (outbox st ++ [(uid, TAddStep1);
                                             (uid, TAddStep2)])%list).
    { subst st2. unfold exec, dispatch.
      rewrite (handle_step12_run uid _ st1
                 {| step := 1; st_market_url := None; st_outcome := None |});
        [|rewrite Hu1; apply lookup_insert_eq | left; reflexivity].
      match goal with
      | |- context [send_message ?c ?x ?s0] =>
          destruct (send_message_effect c x s0) as (Ha & Hu & Ho & _)
      end.
      rewrite Ha, Hu, Ho. simpl. rewrite Hu1, Ha1, Ho1, insert_insert_eq.
      rewrite <- app_assoc. auto. }
    destruct H2 as (Hu2 & Ha2 & Ho2).
    (* the outcome *)
    unfold exec, dispatch.
    rewrite (handle_step12_run uid _ st2
               {| step := 2; st_market_url := Some (PyStr.strip ref_text);
                  st_outcome := None |});
      [|rewrite Hu2; apply lookup_insert_eq | right; reflexivity].
    match goal with
    | |- context [send_message ?c ?x ?s0] =>
        destruct (send_message_effect c x s0) as (Ha & Hu & Ho & _)
    end.
    rewrite Ha, Hu, Ho. simpl. rewrite Hu2, Ha2, Ho2, insert_insert_eq.
    rewrite <- app_assoc. auto. }
  cbv zeta in H3. split; [exact H3|].
  set (st3 := run [CmdAdd uid; Message uid (Some ref_text);
                   Message uid (Some outcome_text)] st) in *.
  destruct H3 as (Hu3 & Ha3 & Ho3).
  intros price_text price strike st3' Hp Hnan Hk Hr.
  unfold exec, dispatch.
  rewrite (handle_price_run uid _ st3 e3);
    [|rewrite Hu3; apply lookup_insert_eq | reflexivity].
  rewrite Hp. cbn [st_market_url st_outcome e3]. rewrite Hk, Hr, Hnan.
  pose proof (strike_exists_in_event_frame (PyStr.strip ref_text) strike st3)
    as Hf.
  cbv zeta in Hf. rewrite Hr in Hf. cbn [snd] in Hf.
  destruct Hf as (Hfa & Hfu & Hfo & _).
  match goal with
  | |- context [send_message ?c ?x ?s0] =>
      destruct (send_message_effect c x s0) as (Ha & Hu & Ho & _)
  end.
  rewrite Ha, Hu, Ho. cbn [alerts user_add_state outbox].
  rewrite Hfa, Hfu, Hfo, Ha3, Hu3, delete_insert_eq. auto.
Qed.

(** ** Invariants of the running program *)

Lemma add_alert_table (Q : gmap Z alert -> Prop) f g uid url out target :
  (PrimFloat.is_nan target = false ->
   forall t, Q t -> Q (insert_alert t uid url out target)) ->
  preserves (@inv W (fun t _ _ _ => Q t) f g) (add_alert uid url out target).
Proof.
  intros HQ st H. rewrite add_alert_run.
  destruct (PrimFloat.is_nan target) eqn:E; [exact H|].
  apply (HQ eq_refl). exact H.
Qed.

(** A property of the table that deactivations and insertions keep holds
    after anything the program runs. *)
Lemma dispatch_table (Q : gmap Z alert -> Prop) u st :
  (forall t uid i, Q t -> Q (deactivate_row t uid i).1) ->
  (forall t uid url out target, PrimFloat.is_nan target = false ->
     Q t -> Q (insert_alert t uid url out target)) ->
  Q (alerts st) -> Q (alerts (exec (dispatch u) st)).
Proof.
  intros Hd Hi H.
  assert (Hsend : forall chat text,
            preserves (@inv W (fun t _ _ _ => Q t) (fun _ => false)
                         (fun _ => false)) (send_message chat text)).
  { intros. apply preserves_send. reflexivity. }
  destruct u as [uid|uid|uid|uid text|uid text|]; simpl.
  - apply Hsend, H.
  - revert st H. change (preserves (@inv W (fun t _ _ _ => Q t)
                           (fun _ => false) (fun _ => false)) (cmd_list uid)).
    unfold cmd_list, get_user_alerts. pres; apply Hsend.
  - revert st H. change (preserves (@inv W (fun t _ _ _ => Q t)
                           (fun _ => false) (fun _ => false)) (cmd_add uid)).
    unfold cmd_add. pres; [apply update_add_state_inv; auto | apply Hsend].
  - revert st H. change (preserves (@inv W (fun t _ _ _ => Q t)
                           (fun _ => false) (fun _ => false))
                           (cmd_delete uid text)).
    unfold cmd_delete. pres; try apply Hsend.
    apply deactivate_alert_inv. intros ? ? ? ?. apply Hd.
  - revert st H. change (preserves (@inv W (fun t _ _ _ => Q t)
                           (fun _ => false) (fun _ => false))
                           (handle_add_flow_or_default uid text)).
    unfold handle_add_flow_or_default.
    pres; try apply Hsend; try (apply update_add_state_inv; auto);
      try apply strike_exists_in_event_inv.
    + apply add_alert_table. intros Hn t. apply Hi, Hn.
    + apply set_user_add_state_inv. auto.
  - unfold exec. rewrite alerts_worker_cycle_run.
    apply (worker_loop_table Q (select_all_active (alerts st))
             (exec (print (LActive (length (select_all_active (alerts st)))))
                   st)); [exact Hd | exact H].
Qed.

Lemma run_table (Q : gmap Z alert -> Prop) us :
  (forall t uid i, Q t -> Q (deactivate_row t uid i).1) ->
  (forall t uid url out target, PrimFloat.is_nan target = false ->
     Q t -> Q (insert_alert t uid url out target)) ->
  forall st, Q (alerts st) -> Q (alerts (run us st)).
Proof.
  intros Hd Hi. induction us as [|u us IH]; intros st H; [exact H|].
  rewrite run_cons. apply IH, dispatch_table; assumption.
Qed.

(** X12. Nothing the program runs removes a row or changes its owner,
    reference, outcome, target or direction; the only change a row ever sees
    is its [active] flag going from true to false. *)
Theorem rows_persist us st j a :
  alerts st !! j = Some a ->
  exists b, alerts (run us st) !! j = Some b /\ same_alert a b /\
            (active b = true -> active a = true).
Proof.
  intros Ha.
  apply (run_table
           (fun t => exists b, t !! j = Some b /\ same_alert a b /\
                               (active b = true -> active a = true))).
  - intros t uid i (b & Hb & Hsame & Hact).
    rewrite deactivate_row_lookup, Hb. eexists. split; [reflexivity|].
    destruct ((j =? i) && (user_id b =? uid) && active b); [|auto].
    split; [exact Hsame | discriminate].
  - intros t uid url out target _ (b & Hb & Hrest).
    exists b. split; [apply insert_alert_old, Hb | exact Hrest].
  - exists a. unfold same_alert. auto 8.
Qed.

Lemma max_id_nonneg t : 0 <= max_id t.
Proof.
  unfold max_id. induction (map_to_list t) as [|kv l IH]; simpl; lia.
Qed.

(** X13. If every row of the table has a key from 1 on, the direction [>=]
    and a target that is a number, the same holds after anything the program
    runs: no alert with the direction [<=] is ever stored. *)
Theorem stored_alerts_well_formed us st :
  well_stored (alerts st) -> well_stored (alerts (run us st)).
Proof.
  apply run_table.
  - intros t uid i H j a. rewrite deactivate_row_lookup.
    destruct (t !! j) as [b|] eqn:Hb; [|discriminate].
    intros [= <-]. specialize (H j b Hb).
    destruct ((j =? i) && (user_id b =? uid) && active b); exact H.
  - intros t uid url out target Hn H j a. rewrite insert_alert_lookup.
    destruct (decide (j = max_id t + 1)) as [->|Hne]; [|apply H].
    intros [= <-]. simpl. pose proof (max_id_nonneg t).
    repeat split; [lia | apply sqlite_real_nan, Hn].
Qed.

(** ** What a cycle does *)

Lemma only_deactivated_refl t : only_deactivated t t.
Proof. intros j. left. reflexivity. Qed.

Lemma only_deactivated_trans t1 t2 t3 :
  only_deactivated t1 t2 -> only_deactivated t2 t3 -> only_deactivated t1 t3.
Proof.
  intros H12 H23 j. destruct (H23 j) as [E | (a & Ha & Hact & E)].
  - rewrite E. apply H12.
  - destruct (H12 j) as [E' | (b & Hb & Hactb & E')].
    + right. exists a. rewrite <- E'. auto.
    + rewrite E' in Ha. injection Ha as <-. discriminate Hact.
Qed.

Lemma only_deactivated_row t uid i :
  only_deactivated t (deactivate_row t uid i).1.
Proof.
  intros j. rewrite deactivate_row_lookup.
  destruct (t !! j) as [a|] eqn:Ha; [|left; reflexivity].
  destruct ((j =? i) && (user_id a =? uid) && active a) eqn:E;
    [|left; reflexivity].
  right. exists a. apply andb_true_iff in E as [_ E]. auto.
Qed.

(** One iteration: the dialogue map is kept, the table sees deactivations
    only, and at most one text is sent, the notification of this alert. *)
Lemma alert_step_effects alert_id uid url out target dir st :
  let st' := exec (alert_step (alert_id, uid, url, out, target, dir)) st in
  user_add_state st' = user_add_state st /\
  only_deactivated (alerts st) (alerts st') /\
  (outbox st' = outbox st \/
   exists c, crossed dir c target /\
     outbox st' =
       (outbox st ++ [(uid, TTriggered alert_id url out target c)])%list).
Proof.
  cbv zeta.
  destruct (alert_price_frame url out st) as (Ha & Hu & Ho).
  destruct (alert_price url out st) as [[[price|]|e] st1] eqn:Hp;
    simpl in Ha, Hu, Ho; [|unfold exec; rewrite alert_step_run, Hp ..].
  - pose proof (alert_step_priced alert_id uid url out target dir price st st1
                  Hp) as (_ & Hu' & H).
    cbv zeta in H. rewrite Hu', Hu. split; [reflexivity|].
    destruct (should_trigger dir (price * 100) target) eqn:T.
    + destruct H as [-> ->]. rewrite Ha, Ho.
      split; [apply only_deactivated_row|].
      right. exists (price * 100)%float.
      split; [apply should_trigger_crossed, T | reflexivity].
    + destruct H as [-> ->]. rewrite Ha, Ho.
      split; [apply only_deactivated_refl | auto].
  - simpl. rewrite Ha, Hu, Ho.
    split; [reflexivity|]. split; [apply only_deactivated_refl | auto].
  - simpl. rewrite Ha, Hu, Ho.
    split; [reflexivity|]. split; [apply only_deactivated_refl | auto].
Qed.

Lemma worker_loop_effects t0 l : forall st,
  (forall al, In al l -> In al (select_all_active t0)) ->
  let st' := exec (for_each l alert_step) st in
  user_add_state st' = user_add_state st /\
  only_deactivated (alerts st) (alerts st') /\
  exists ext, outbox st' = (outbox st ++ ext)%list /\
              Forall (notice_of t0) ext /\
              (length ext <= length l)%nat.
Proof.
  induction l as [|al l IH]; intros st Hin; cbv zeta.
  - split; [reflexivity|]. split; [apply only_deactivated_refl|].
    exists []. split; [symmetry; apply app_nil_r|].
    split; [constructor | reflexivity].
  - unfold exec. rewrite for_each_cons by apply alert_step_ok.
    destruct (IH (exec (alert_step al) st)) as (Hu & Ht & ext & Ho & Hg & Hl).
    { intros x Hx. apply Hin. right. exact Hx. }
    assert (Hal : In al (select_all_active t0)) by (apply Hin; left; reflexivity).
    destruct al as [[[[[alert_id uid] url] out] target] dir].
    destruct (alert_step_effects alert_id uid url out target dir st)
      as (Hu1 & Ht1 & Ho1).
    unfold exec in *. rewrite Hu, Hu1. split; [reflexivity|].
    split; [eapply only_deactivated_trans; eassumption|].
    destruct Ho1 as [Ho1 | (c & Hc & Ho1)].
    + exists ext. rewrite Ho, Ho1. split; [reflexivity|].
      split; [exact Hg | simpl; lia].
    + exists ((uid, TTriggered alert_id url out target c) :: ext).
      rewrite Ho, Ho1, <- app_assoc. split; [reflexivity|].
      split; [|simpl; lia].
      constructor; [|exact Hg].
      apply select_all_active_in in Hal
        as (a & Ha & <- & Hact & <- & <- & <- & <-).
      exists alert_id, a, c. auto.
Qed.

(** X14. A cycle leaves the dialogue map as it was, changes the table only by
    deactivating rows that were active, and sends nothing but notifications
    for alerts that were active when the cycle began, each to the owner of
    the alert, with the columns of its row and a price that meets its
    condition; it sends at most as many as there were active alerts. *)
Theorem worker_cycle_effects st :
  let st' := exec alerts_worker_cycle st in
  user_add_state st' = user_add_state st /\
  only_deactivated (alerts st) (alerts st') /\
  exists ext, outbox st' = (outbox st ++ ext)%list /\
              Forall (notice_of (alerts st)) ext /\
              (length ext <= length (select_all_active (alerts st)))%nat.
Proof.
  cbv zeta. unfold exec. rewrite alerts_worker_cycle_run.
  apply (worker_loop_effects (alerts st) (select_all_active (alerts st))
           (exec (print (LActive (length (select_all_active (alerts st))))) st)).
  auto.
Qed.

(** ** The comparison of prices *)

Lemma SFcompare_refl x : x <> S754_nan -> SFcompare x x = Some Eq.
Proof.
  destruct x as [s| s| |s m e]; intros H; try contradiction; simpl.
  - reflexivity.
  - destruct s; reflexivity.
  - rewrite Z.compare_refl.
    change (Pos.compare_cont Eq m m) with (Pos.compare m m).
    rewrite Pos.compare_refl. destruct s; reflexivity.
Qed.

Lemma is_nan_spec x : PrimFloat.is_nan x = true -> Prim2SF x = S754_nan.
Proof.
  unfold PrimFloat.is_nan. rewrite FloatAxioms.eqb_spec. unfold SFeqb.
  intros H. destruct (Prim2SF x) eqn:E; try reflexivity;
    rewrite SFcompare_refl in H by discriminate; discriminate.
Qed.

Lemma leb_nan_l x y : PrimFloat.is_nan x = true -> (x <=? y)%float = false.
Proof.
  intros H. rewrite FloatAxioms.leb_spec, (is_nan_spec x H). reflexivity.
Qed.

Lemma leb_nan_r x y : PrimFloat.is_nan y = true -> (x <=? y)%float = false.
Proof.
  intros H. rewrite FloatAxioms.leb_spec, (is_nan_spec y H). unfold SFleb.
  destruct (Prim2SF x); reflexivity.
Qed.

Lemma mul_nan x y :
  PrimFloat.is_nan x = true -> PrimFloat.is_nan (x * y) = true.
Proof.
  intros H. unfold PrimFloat.is_nan at 1.
  rewrite FloatAxioms.eqb_spec, FloatAxioms.mul_spec, (is_nan_spec x H).
  reflexivity.
Qed.

Lemma SFleb_trans x y z :
  SFleb x y = true -> SFleb y z = true -> SFleb x z = true.
Proof.
  unfold SFleb.
  destruct x as [sx|sx| |sx mx ex], y as [sy|sy| |sy my ey],
           z as [sz|sz| |sz mz ez];
    simpl; try discriminate; try reflexivity;
    try (destruct sx; try destruct sy; try destruct sz; simpl;
         try discriminate; try reflexivity; fail).
  change (Pos.compare_cont Eq mx my) with (Pos.compare mx my).
  change (Pos.compare_cont Eq my mz) with (Pos.compare my mz).
  change (Pos.compare_cont Eq mx mz) with (Pos.compare mx mz).
  destruct sx, sy, sz; try discriminate; try reflexivity;
    destruct (Z.compare_spec ex ey), (Z.compare_spec ey ez),
             (Z.compare_spec ex ez);
    try discriminate; try reflexivity; try lia; subst;
    destruct (Pos.compare_spec mx my), (Pos.compare_spec my mz),
             (Pos.compare_spec mx mz);
    simpl; try discriminate; try reflexivity; try lia.
Qed.

Lemma leb_trans x y z :
  (x <=? y)%float = true -> (y <=? z)%float = true -> (x <=? z)%float = true.
Proof. rewrite !FloatAxioms.leb_spec. apply SFleb_trans. Qed.

(** X16. The condition is monotone in the price: an alert with [>=] that
    triggers at some cents triggers at any cents above them, and an alert
    with [<=] that triggers at some cents triggers at any cents below
    them. *)
Theorem should_trigger_monotone (target c c' : float) :
  ((c <=? c')%float = true ->
   should_trigger ">=" c target = true ->
   should_trigger ">=" c' target = true) /\
  ((c' <=? c)%float = true ->
   should_trigger "<=" c target = true ->
   should_trigger "<=" c' target = true).
Proof.
  unfold should_trigger. simpl. split.
  - intros Hcc H.
    destruct (target <=? c)%float eqn:E; [|discriminate].
    rewrite (leb_trans _ _ _ E Hcc). reflexivity.
  - intros Hcc H.
    destruct (c <=? target)%float eqn:E; [|discriminate].
    rewrite (leb_trans _ _ _ Hcc E). reflexivity.
Qed.

(** X17. A price that is not a number triggers nothing: whatever the
    direction and the target, the iteration sends no notification and leaves
    the table as it was. *)
Theorem nan_price_never_triggers alert_id uid url out target dir price st st1 :
  alert_price url out st = (Ok (Some price), st1) ->
  PrimFloat.is_nan price = true ->
  let st' := exec (alert_step (alert_id, uid, url, out, target, dir)) st in
  should_trigger dir (price * 100) target = false /\
  outbox st' = outbox st /\ alerts st' = alerts st.
Proof.
  intros Hp Hn. cbv zeta.
  assert (Hs : should_trigger dir (price * 100) target = false).
  { unfold should_trigger.
    rewrite (leb_nan_r target _ (mul_nan price 100 Hn)).
    rewrite (leb_nan_l _ target (mul_nan price 100 Hn)).
    rewrite !andb_false_r. reflexivity. }
  split; [exact Hs|].
  destruct (alert_price_frame url out st) as (Ha & _ & Ho).
  unfold exec. rewrite alert_step_run, Hp in *. simpl in Ha, Ho.
  rewrite alert_decide_run. cbv zeta. rewrite Hs. simpl. auto.
Qed.

(** ** The list of a user and the shapes of an answer *)

(** X7. [/list] changes neither the table nor the dialogue map and sends
    one text to the user: the list of exactly the user's active alerts, or,
    when the user has none, the text that says so. *)
Theorem cmd_list_reply uid st :
  let st' := exec (cmd_list uid) st in
  let rows := select_user_active (alerts st) uid in
  alerts st' = alerts st /\ user_add_state st' = user_add_state st /\
  outbox st' =
    (outbox st ++ [(uid, match rows with
                         | [] => TNoAlerts
                         | _ => TAlertList rows
                         end)])%list /\
  (rows = [] <->
   forall j a, alerts st !! j = Some a -> user_id a = uid -> active a = false).
Proof.
  cbv zeta. unfold exec, cmd_list, get_user_alerts, bind, get_state, ret.
  split; [|split; [|split]].
  - destruct (select_user_active (alerts st) uid); apply send_message_effect.
  - destruct (select_user_active (alerts st) uid); apply send_message_effect.
  - destruct (select_user_active (alerts st) uid); apply send_message_effect.
  - split.
    + intros Hnil j a Ha Hu. destruct (active a) eqn:Hact; [|reflexivity].
      exfalso.
      assert (Hin : In (j, market_url a, outcome a, target_price a, direction a)
                       (select_user_active (alerts st) uid)).
      { apply select_user_active_in. exists a. auto 8. }
      rewrite Hnil in Hin. destruct Hin.
    + intros Hnone.
      destruct (select_user_active (alerts st) uid)
        as [|[[[[i url] out] target] dir] rows] eqn:E; [reflexivity|].
      assert (Hin : In (i, url, out, target, dir)
                       (select_user_active (alerts st) uid)).
      { rewrite E. left. reflexivity. }
      apply select_user_active_in in Hin as (a & Ha & Hu & Hact & _).
      rewrite (Hnone i a Ha Hu) in Hact. discriminate.
Qed.

(** X18. On an answer with a 2xx status, [fetch_event_by_slug] returns the
    first element of a body that is a list, or of the list under [events] of
    a body that is an object; it returns [None] when that list is empty or
    absent, and when the body is a text. *)
Theorem fetch_event_by_slug_shapes slug st resp w :
  gamma_events slug (world st) = (Ok resp, w) ->
  200 <= status_code resp <= 299 ->
  let out := fetch_event_by_slug slug st in
  (forall e es, json_body resp = Ok (JList (e :: es)) -> out.1 = Ok e) /\
  (forall kv e es, json_body resp = Ok (JDict kv) ->
     assoc "events" kv = Some (JList (e :: es)) -> out.1 = Ok e) /\
  (forall kv, json_body resp = Ok (JDict kv) ->
     assoc "events" kv = None \/ assoc "events" kv = Some (JList []) ->
     out.1 = Ok JNull) /\
  (json_body resp = Ok (JList []) -> out.1 = Ok JNull) /\
  (forall s, json_body resp = Ok (JStr s) -> out.1 = Ok JNull).
Proof.
  intros Hg [Hlo Hhi]. cbv zeta. rewrite fetch_event_by_slug_run, Hg.
  unfold raise_for_status.
  apply Z.leb_le in Hlo, Hhi. rewrite Hlo, Hhi. simpl.
  repeat split.
  - intros e es ->. reflexivity.
  - intros kv e es -> Hk. simpl. unfold dict_get. rewrite Hk. reflexivity.
  - intros kv -> [Hk | Hk]; simpl; unfold dict_get; rewrite Hk; reflexivity.
  - intros ->. reflexivity.
  - intros s ->. reflexivity.
Qed.

End Proofs.

(** * The theorems at work *)

Section Examples.

Import Demo.

#[local] Existing Instance ucd.
#[local] Existing Instance lib.
#[local] Existing Instance net.

(** ** The string built-ins on sample texts *)

Example strip_ex : PyStr.strip "  82000 YES  " = "82000 YES".
Proof. reflexivity. Qed.

Example strip_char_ex : PyStr.strip_char "/" "//event/abc/" = "event/abc".
Proof. reflexivity. Qed.

Example split_on_ex : PyStr.split_on "/" "event//abc" = ["event"; ""; "abc"].
Proof. reflexivity. Qed.

Example split_on_empty : PyStr.split_on "/" "" = [""].
Proof. reflexivity. Qed.

Example split_ex : PyStr.split " 82000   yes " = ["82000"; "yes"].
Proof. reflexivity. Qed.

Example split_blank : PyStr.split "   " = [].
Proof. reflexivity. Qed.

Example replace_ex : PyStr.replace "," "" "1,278,000" = "1278000".
Proof. reflexivity. Qed.

Example lower_ex : PyStr.lower "No" = "no" /\ PyStr.lower "НЕТУ" = "нету".
Proof. split; reflexivity. Qed.

Example int_ex :
  PyStr.int " 82000 " = Some 82000 /\ PyStr.int "-7" = Some (-7) /\
  PyStr.int "78_000" = Some 78000 /\ PyStr.int "78,000" = None /\
  PyStr.int "78__0" = None /\ PyStr.int "_78" = None /\ PyStr.int "" = None /\
  PyStr.int "+" = None /\ PyStr.int "007" = Some 7 /\ PyStr.int "8 2" = None.
Proof. repeat split; reflexivity. Qed.

Example of_int_ex : PyStr.of_int 78000 = "78000" /\ PyStr.of_int (-5) = "-5".
Proof. split; reflexivity. Qed.

(** Whitespace and digits of other scripts: the no-break space is stripped
    and cuts words, [int] reads fullwidth and Arabic-Indic digits, and FS is
    whitespace for [strip] but not for [int]. *)
Example unicode_ex :
  PyStr.strip (String.append nbsp (String.append "82000 YES" nbsp))
    = "82000 YES" /\
  PyStr.split (String.append "82000" (String.append nbsp "no"))
    = ["82000"; "no"] /\
  PyStr.split_max1 (String.append "/delete" (String.append nbsp "1"))
    = ["/delete"; "1"] /\
  PyStr.int "８２０００" = Some 82000 /\
  PyStr.int (String.append nbsp "٤٢") = Some 42 /\
  PyStr.int "１_２" = Some 12 /\
  PyStr.int "＋5" = None /\
  PyStr.strip (String.append fs "5") = "5" /\
  PyStr.int (String.append fs "5") = None.
Proof. repeat split; vm_compute; reflexivity. Qed.

(** ** The market helpers on sample inputs *)

Example extract_event_slug_ex :
  extract_event_slug "/event/abc" = Some "abc" /\
  extract_event_slug "/event/abc/" = Some "abc" /\
  extract_event_slug "/event//abc" = Some "" /\
  extract_event_slug "/event/" = None /\
  extract_event_slug "/events/abc" = None /\
  extract_event_slug "" = None /\
  extract_event_slug "http://[" = None.
Proof. repeat split; reflexivity. Qed.

Example pick_token_id_ex :
  let ev := event ["78,000"; "82,000"] in
  pick_token_id_for_outcome ev "82000 YES" = Ok (Some "71") /\
  pick_token_id_for_outcome ev "82000" = Ok (Some "71") /\
  pick_token_id_for_outcome ev "82000 maybe" = Ok (Some "71") /\
  pick_token_id_for_outcome ev " 82000  No " = Ok (Some "72") /\
  pick_token_id_for_outcome ev "82000 НЕТ" = Ok (Some "72") /\
  pick_token_id_for_outcome ev "81999 YES" = Ok None /\
  pick_token_id_for_outcome ev "YES 82000" = Ok None /\
  pick_token_id_for_outcome ev "" = Ok None.
Proof. repeat split; vm_compute; reflexivity. Qed.

(** An outcome cut by a no-break space, and a label in fullwidth digits. *)
Example pick_token_id_unicode :
  pick_token_id_for_outcome (event ["78,000"; "82,000"])
    (String.append "82000" (String.append nbsp "no")) = Ok (Some "72") /\
  pick_token_id_for_outcome (event ["７８,０００"]) "78000" = Ok (Some "71") /\
  (strike_exists_in_event url 78000
     (start (with_events (http_ok (JList [event ["７８,０００"]]))) ∅ ∅)).1
    = Ok true.
Proof. repeat split; vm_compute; reflexivity. Qed.

(** A pair that is absent, that is no JSON, or that has one element. *)
Example pick_token_id_bad_pair :
  let ev raw := JDict [("markets",
                        JList [JDict (("groupItemTitle", JStr "82,000") :: raw)])] in
  pick_token_id_for_outcome (ev []) "82000 YES" = Ok None /\
  pick_token_id_for_outcome (ev [("clobTokenIds", JStr "71, 72")]) "82000 YES"
    = Ok None /\
  pick_token_id_for_outcome (ev [("clobTokenIds", JStr "[71]")]) "82000 YES"
    = Ok None /\
  pick_token_id_for_outcome (ev [("clobTokenIds", JList [JStr "71"; JStr "72"])])
    "82000 YES" = Ok None.
Proof. repeat split; vm_compute; reflexivity. Qed.

(** ** The claims on sample inputs *)

(** Scenario C of the specification: target 50, [>=], price 0.52. *)
Lemma alert_trigger_condition_witness :
  outbox (exec (alert_step (snap1 50 ">=")) (armed calm))
    = [(7, TTriggered 1 url "82000 YES" 50 52)] /\
  alerts (exec (alert_step (snap1 50 ">=")) (armed calm))
    = table1 50 ">=" false.
Proof.
  destruct (alert_trigger_condition 1 7 url "82000 YES" 50%float ">=" price52
              (armed calm) (armed calm))
    as (_ & H & _); [vm_compute; reflexivity|].
  destruct H as [Ho Ha]; [left; split; reflexivity|].
  unfold snap1. rewrite Ho, Ha. split; vm_compute; reflexivity.
Defined.



(** Telegram refuses the notification; the alert is deactivated all the
    same. *)
Lemma triggered_alert_retires_witness :
  exists a, alerts (exec alerts_worker_cycle (armed mute)) !! 1 = Some a /\
            active a = false.
Proof.
  apply (proj1 triggered_alert_retires (armed mute) [] [] 1 7 url "82000 YES"
           50%float ">=" price52 (exec (print (LActive 1)) (armed mute))).
  - reflexivity.
  - vm_compute. reflexivity.
  - left. split; reflexivity.
Defined.


(** An id that is no key and does not fit 64 bits: the notification is sent,
    the deactivation raises, the exception is logged and the table is as
    before. *)
Example scenario_deactivation_refused :
  let st' := exec (alert_step (2 ^ 63, 7, url, "82000 YES", 50%float, ">="))
               (armed calm) in
  alerts st' = alerts (armed calm) /\
  outbox st' = [(7, TTriggered (2 ^ 63) url "82000 YES" 50 52)] /\
  stdout st' = [LPrice (2 ^ 63) 52 50 ">="; LAlertError (2 ^ 63) OverflowError].
Proof. repeat split; vm_compute; reflexivity. Qed.


Lemma extract_event_slug_segments_witness :
  extract_event_slug url = Some "abc".
Proof.
  generalize (extract_event_slug_segments url). vm_compute.
  intros [H _]. apply H. split; [repeat constructor | reflexivity].
Defined.

(** An answer with no event. *)
Lemma fetch_event_by_slug_outcomes_witness :
  (fetch_event_by_slug "abc"
     (start (with_events (http_ok (JList []))) ∅ ∅)).1 = Ok JNull.
Proof.
  generalize (fetch_event_by_slug_outcomes "abc"
                (start (with_events (http_ok (JList []))) ∅ ∅)).
  vm_compute. intros [[H _] _]. apply H. reflexivity.
Defined.

(** A status 404 and a network failure reach the caller as exceptions. *)
Lemma fetch_event_by_slug_raises :
  (fetch_event_by_slug "abc"
     (start (with_events (http_status 404)) ∅ ∅)).1 = Raise HTTPStatusError /\
  (fetch_event_by_slug "abc" (start offline ∅ ∅)).1 = Raise TransportError.
Proof. split; vm_compute; reflexivity. Qed.

Lemma strike_label_normalization_witness :
  normalize_title "1,278,000" = Some 1278000.
Proof.
  destruct (proj1 (strike_label_normalization (W := replies)) "1,278,000")
    as [H _]; [vm_compute; reflexivity | vm_compute; discriminate |].
  rewrite H; [vm_compute; reflexivity | vm_compute; discriminate].
Defined.

(** A label grouped by dots is no integer once the commas are removed, and
    the strike it shows is not found; a label of 4301 digits is more than
    [int] reads, and normalizes to nothing. *)
Lemma dotted_label_not_normalized :
  grouped_by "." "78.000" = true /\
  decimal (digits_of "78.000") = 78000 /\
  normalize_title "78.000" = None /\
  (strike_exists_in_event url 78000
     (start (with_events (http_ok (JList [event ["78.000"]]))) ∅ ∅)).1
    = Ok false /\
  grouped_by "," long_label = true /\
  length (digits_of long_label) = 4301%nat /\
  normalize_title long_label = None.
Proof. repeat split; vm_compute; reflexivity. Qed.

(** Scenario A of the specification: the strike 82000 exists, the price is
    48. *)
Lemma await_price_step_witness :
  alerts (exec (handle_add_flow_or_default 7 (Some "48"))
            (pricing calm "82000 YES"))
    = <[1 := row 7 48 ">=" true]> ∅ /\
  user_add_state (exec (handle_add_flow_or_default 7 (Some "48"))
                    (pricing calm "82000 YES"))
    = delete 7 (asking "82000 YES").
Proof.
  destruct (await_price_step 7 (Some "48") (pricing calm "82000 YES")
              (at_price "82000 YES") eq_refl eq_refl)
    as (_ & _ & _ & _ & H).
  pose proof (H "48" 48%float url "82000 YES" 82000 (pricing calm "82000 YES")
                eq_refl ltac:(reflexivity) eq_refl eq_refl
                ltac:(vm_compute; reflexivity) ltac:(vm_compute; reflexivity))
    as H'.
  change (PrimFloat.is_nan 48) with false in H'. cbv iota in H'.
  destruct H' as (_ & Ha & _ & Hu).
  rewrite Ha, Hu. split; vm_compute; reflexivity.
Defined.

(** The input [nan] is read as a number, the outcome starts with an integer
    and the check of the strike answers yes; the table refuses the target,
    no alert is stored and the user is still at the price step. *)
Lemma nan_price_not_stored :
  parse_price "nan" = Some nan /\
  parse_strike (PyStr.split (PyStr.strip "82000 YES")) = Some 82000 /\
  (strike_exists_in_event url 82000 (pricing calm "82000 YES")).1 = Ok true /\
  handle_add_flow_or_default 7 (Some "nan") (pricing calm "82000 YES")
    = (Raise IntegrityError, pricing calm "82000 YES").
Proof. repeat split; vm_compute; reflexivity. Qed.

Lemma deactivate_alert_idempotent_witness :
  deactivate_alert 7 1 (spent calm) = (Ok false, spent calm).
Proof.
  apply (proj1 (deactivate_alert_idempotent 7 1 (spent calm))).
  right. exists (row 7 50 ">=" false). split; reflexivity.
Defined.

(** The id 2^63 is the id of no alert, and the call raises; so does the
    command that carries it. *)
Lemma deactivate_absent_id_raises :
  alerts (armed calm) !! (2 ^ 63) = None /\
  deactivate_alert 7 (2 ^ 63) (armed calm) = (Raise OverflowError, armed calm) /\
  cmd_delete 7 "/delete 9223372036854775808" (armed calm)
    = (Raise OverflowError, armed calm).
Proof. repeat split; vm_compute; reflexivity. Qed.

(** User 8 asks to deactivate the alert of user 7. *)
Lemma deactivate_alert_owner_scoped_witness :
  deactivate_alert 8 1 (armed calm) = (Ok false, armed calm).
Proof.
  apply (proj1 (deactivate_alert_owner_scoped 8 1 (armed calm))
           7 (row 7 50 ">=" true)); [reflexivity | reflexivity | lia].
Defined.

(** Scenario B: the strike 80000 is not in the event; nothing is stored and
    the user is still at the price step. *)
Example scenario_strike_absent :
  let st' := exec (handle_add_flow_or_default 7 (Some "48"))
               (pricing calm "80000 YES") in
  alerts st' = ∅ /\ user_add_state st' = asking "80000 YES" /\
  outbox st' = [(7, TStrikeMissing)].
Proof. repeat split; vm_compute; reflexivity. Qed.

(** Scenarios A and C in one run: the dialogue, then two cycles; the second
    cycle finds no active alert and sends nothing more. *)
Example scenario_dialogue_then_cycles :
  let st' := run [CmdAdd 7; Message 7 (Some url); Message 7 (Some "82000 YES");
                  Message 7 (Some "48"); WorkerCycle; WorkerCycle]
                 (start calm ∅ ∅) in
  alerts st' = <[1 := row 7 48 ">=" false]> ∅ /\
  outbox st' = [(7, TAddStep1); (7, TAddStep2); (7, TAddStep3);
                (7, TAlertAdded url "82000 YES" 48);
                (7, TTriggered 1 url "82000 YES" 48 52)] /\
  stdout st' = [LActive 1; LPrice 1 52 48 ">="; LActive 0].
Proof. repeat split; vm_compute; reflexivity. Qed.

(** Scenario D: no price for the instrument; the alert stays as it is and
    nothing is sent. *)
Example scenario_price_unavailable :
  let w := {| events_reply := events_reply calm;
              price_reply := http_status 503; send_reply := Ok tt |} in
  let st' := exec alerts_worker_cycle (armed w) in
  alerts st' = alerts (armed w) /\ outbox st' = [] /\
  stdout st' = [LActive 1; LNoPrice "71"].
Proof. repeat split; vm_compute; reflexivity. Qed.

(** Minus zero is read as a number and stored as zero. *)
Example scenario_minus_zero :
  parse_price "-0" = Some neg_zero /\
  alerts (exec (handle_add_flow_or_default 7 (Some "-0"))
            (pricing calm "82000 YES"))
    = <[1 := row 7 0 ">=" true]> ∅ /\
  PrimFloat.classify neg_zero = NZero /\ PrimFloat.classify 0 = PZero.
Proof. repeat split; vm_compute; reflexivity. Qed.

(** An outcome whose two words are cut by a no-break space is stored as it
    was typed, and [/delete] followed by a no-break space and a fullwidth
    digit deactivates the alert. *)
Example scenario_other_scripts :
  let out := String.append "82000" (String.append nbsp "YES") in
  alerts (exec (handle_add_flow_or_default 7 (Some "48")) (pricing calm out))
    = <[1 := {| user_id := 7; market_url := url; outcome := out;
                target_price := 48; direction := ">="; active := true |}]> ∅ /\
  (let st' := exec (cmd_delete 7 (String.append "/delete"
                                    (String.append nbsp "１")))
                (armed calm) in
   alerts st' = <[1 := row 7 50 ">=" false]> ∅ /\
   outbox st' = [(7, TDeleted 1)]).
Proof. repeat split; vm_compute; reflexivity. Qed.

(** ** The further properties on sample inputs *)

(** User 8 adds an alert beside the one of user 7. *)
Lemma add_alert_stores_witness :
  (add_alert 8 url "78000 NO" 12.5 (armed calm)).1 = Ok tt /\
  alerts (exec (add_alert 8 url "78000 NO" 12.5) (armed calm)) !! 1
    = Some (row 7 50 ">=" true).
Proof.
  pose proof (add_alert_stores 8 url "78000 NO" 12.5%float (armed calm)) as H.
  cbv zeta in H. destruct H as [_ H].
  destruct H as (Hr & Hold & _); [reflexivity|].
  split; [exact Hr|]. apply (Hold 1 (row 7 50 ">=" true)). reflexivity.
Defined.

Lemma get_user_alerts_exact_witness :
  exists a, alerts both !! 1 = Some a /\ user_id a = 7 /\ active a = true /\
            market_url a = url /\ outcome a = "82000 YES" /\
            target_price a = 50%float /\ direction a = ">=".
Proof.
  destruct (get_user_alerts_exact 7 both
              [(1, url, "82000 YES", 50%float, ">=")] both)
    as (_ & H & _); [vm_compute; reflexivity|].
  apply H. left. reflexivity.
Defined.

Lemma get_all_active_alerts_exact_witness :
  exists a, alerts both !! 2 = Some a /\ user_id a = 8 /\ active a = true /\
            market_url a = url /\ outcome a = "82000 YES" /\
            target_price a = 12.5%float /\ direction a = ">=".
Proof.
  destruct (get_all_active_alerts_exact both
              [snap1 50 ">="; (2, 8, url, "82000 YES", 12.5%float, ">=")] both)
    as (_ & H & _); [vm_compute; reflexivity|].
  apply H. right. left. reflexivity.
Defined.

(** User 7 deactivates alert 1; alert 2 of user 8 is still in the snapshot. *)
Lemma deactivate_alert_unlists_witness :
  In (2, 8, url, "82000 YES", 12.5%float, ">=")
     (select_all_active (alerts (exec (deactivate_alert 7 1) both))).
Proof.
  destruct (deactivate_alert_unlists 7 1 both (exec (deactivate_alert 7 1) both))
    as (_ & _ & H); [vm_compute; reflexivity|].
  apply H. split; [lia|]. right. left. reflexivity.
Defined.

Lemma fetch_token_price_outcomes_witness :
  (fetch_token_price "71" "buy" (armed calm)).1 = Ok (Some price52).
Proof.
  destruct (fetch_token_price_outcomes "71" "buy" (armed calm)
              {| status_code := 200;
                 json_body := Ok (JDict [("price", JStr "0.52")]) |}
              calm) as (_ & H & _); [reflexivity|].
  destruct (H eq_refl) as (_ & _ & Hkv).
  destruct (Hkv [("price", JStr "0.52")] eq_refl) as (_ & Hs & _).
  apply (Hs "0.52"). reflexivity.
Defined.

Lemma strike_exists_in_event_decides_witness :
  strike_exists_in_event url 82000 (start calm ∅ ∅)
    = (Ok true, start calm ∅ ∅).
Proof.
  rewrite (proj2 (strike_exists_in_event_decides url 82000 (start calm ∅ ∅))
             "abc" (event ["78,000"; "82,000"]) (start calm ∅ ∅)).
  - vm_compute. reflexivity.
  - vm_compute. reflexivity.
  - discriminate.
  - vm_compute. reflexivity.
  - reflexivity.
  - repeat constructor.
Defined.

(** A message without text for a user at the price step. *)
Lemma handle_add_flow_edges_witness :
  handle_add_flow_or_default 7 None (pricing calm "82000 YES")
    = (Raise AttributeError, pricing calm "82000 YES").
Proof.
  destruct (handle_add_flow_edges 7 None (pricing calm "82000 YES"))
    as (_ & _ & H).
  apply (H (at_price "82000 YES")); [reflexivity|]. right. right. reflexivity.
Defined.

(** User 8 asks to delete alert 1 of user 7. *)
Lemma handler_confined_to_sender_witness :
  alerts (exec (dispatch (CmdDelete 8 "/delete 1")) (armed calm)) !! 1
    = Some (row 7 50 ">=" true).
Proof.
  destruct (handler_confined_to_sender (CmdDelete 8 "/delete 1") 8 (armed calm))
    as (_ & H & _); [reflexivity|].
  apply H; [reflexivity|]. simpl. lia.
Defined.

Lemma cmd_delete_cases_witness :
  alerts (exec (cmd_delete 7 "/delete 1") (armed calm)) = table1 50 ">=" false /\
  outbox (exec (cmd_delete 7 "/delete 1") (armed calm)) = [(7, TDeleted 1)].
Proof.
  pose proof (cmd_delete_cases 7 "/delete 1" (armed calm)) as H.
  cbv zeta in H. destruct H as (_ & _ & H & _).
  destruct (H "/delete" "1" [] 1) as [Hfit _];
    [vm_compute; reflexivity | vm_compute; reflexivity |].
  destruct (Hfit eq_refl) as [Ha Ho].
  rewrite Ha, Ho. split; vm_compute; reflexivity.
Defined.

(** Scenario A with padded texts. *)
Lemma add_dialogue_end_to_end_witness :
  alerts (exec (dispatch (Message 7 (Some "48")))
            (run [CmdAdd 7; Message 7 (Some "  https://x/event/abc/abc-market ");
                  Message 7 (Some " 82000 YES ")] (start calm ∅ ∅)))
    = <[1 := row 7 48 ">=" true]> ∅.
Proof.
  pose proof (add_dialogue_end_to_end 7 "  https://x/event/abc/abc-market "
                " 82000 YES " (start calm ∅ ∅)) as H.
  cbv zeta in H. destruct H as [_ H].
  destruct (H "48" 48%float 82000
              (run [CmdAdd 7;
                    Message 7 (Some "  https://x/event/abc/abc-market ");
                    Message 7 (Some " 82000 YES ")] (start calm ∅ ∅)))
    as (Ha & _); [vm_compute; reflexivity .. |].
  rewrite Ha. vm_compute. reflexivity.
Defined.

(** The row of alert 1 after its owner deleted it and a cycle ran. *)
Lemma rows_persist_witness :
  exists b,
    alerts (run [CmdDelete 7 "/delete 1"; WorkerCycle] (armed calm)) !! 1
      = Some b /\
    same_alert (row 7 50 ">=" true) b /\
    (active b = true -> active (row 7 50 ">=" true) = true).
Proof.
  apply (rows_persist [CmdDelete 7 "/delete 1"; WorkerCycle] (armed calm) 1
           (row 7 50 ">=" true)).
  reflexivity.
Defined.

Lemma stored_alerts_well_formed_witness :
  well_stored
    (alerts (run [CmdAdd 8; Message 8 (Some url); Message 8 (Some "78000 NO");
                  Message 8 (Some "12.5"); WorkerCycle] (armed calm))).
Proof.
  apply stored_alerts_well_formed.
  intros j a H. unfold armed, start, table1 in H. simpl in H.
  apply lookup_insert_Some in H as [[<- <-] | [_ H]].
  - repeat split; first [lia | reflexivity].
  - rewrite lookup_empty in H. discriminate.
Defined.

(** Scenario D: the price service answers 503. *)
Lemma alert_passed_over_witness :
  alert_step (snap1 50 ">=") (armed priceless) =
    (Ok tt,
     {| alerts := table1 50 ">=" true; user_add_state := ∅;
        world := priceless; outbox := []; stdout := [LNoPrice "71"] |}).
Proof.
  pose proof (alert_passed_over 1 7 url "82000 YES" 50%float ">="
                (armed priceless)) as H.
  cbv zeta in H. destruct H as [_ H].
  destruct (H "abc" (event ["78,000"; "82,000"]) (armed priceless))
    as [_ Hev]; [vm_compute; reflexivity | discriminate | vm_compute; reflexivity |].
  destruct (Hev eq_refl (Some "71")) as [_ Hp]; [vm_compute; reflexivity|].
  apply (Hp "71" (armed priceless)); [reflexivity | discriminate |].
  vm_compute. reflexivity.
Defined.

Lemma should_trigger_monotone_witness :
  should_trigger ">=" 60 50 = true /\ should_trigger "<=" 40 50 = true.
Proof.
  split.
  - apply (proj1 (should_trigger_monotone 50 52 60)); reflexivity.
  - apply (proj2 (should_trigger_monotone 50 48 40)); reflexivity.
Defined.

(** The price service answers with a text that [float] reads as NaN. *)
Lemma nan_price_never_triggers_witness :
  outbox (exec (alert_step (snap1 50 ">=")) (armed nan_quote)) = [] /\
  alerts (exec (alert_step (snap1 50 ">=")) (armed nan_quote))
    = table1 50 ">=" true.
Proof.
  destruct (nan_price_never_triggers 1 7 url "82000 YES" 50%float ">=" nan
              (armed nan_quote) (armed nan_quote))
    as (_ & Ho & Ha); [vm_compute; reflexivity | reflexivity |].
  split; [exact Ho | exact Ha].
Defined.

Lemma fetch_event_by_slug_shapes_witness :
  (fetch_event_by_slug "abc" (start calm ∅ ∅)).1
    = Ok (event ["78,000"; "82,000"]).
Proof.
  destruct (fetch_event_by_slug_shapes "abc" (start calm ∅ ∅)
              {| status_code := 200;
                 json_body := Ok (JList [event ["78,000"; "82,000"]]) |}
              calm) as (H & _); [reflexivity | simpl; lia |].
  apply (H (event ["78,000"; "82,000"]) []). reflexivity.
Defined.

End Examples.
